(** * Fair multi-source article collection: a shallow embedding

    The News_Intelligence actors of this repository collect articles from
    several RSS feeds in round-robin fashion, filter them against a
    persistent store of processed links, recycle old articles when too few
    new ones are found and enrich each article in turn.  This development
    embeds

    - [fetch_rss_feeds] of the health-fitness and of the cybersecurity actor
      (src/tools.py of each),
    - [rss_fetcher], [process_and_save_article] and [should_continue] of the
      health-fitness actor (src/main.py),
    - [fetch_summary_from_google] and
      [extract_most_common_date_from_google] of the gdelt-news actor
      (src/tools.py),
    - [format_datetime], [convert_gdelt_date_to_iso], [build_gdelt_url],
      [fetch_gdelt_articles] and [main] of the gdelt-news actor
      (src/main.py),

    and proves the properties the specification states about them, and
    further properties the code shows.

    Conventions.  A Python [int] is a [Z]; [len] is [Z.of_nat (length _)].
    A Python [str] is a [string]; its characters are read as code points
    below 256, so that [String.length] is Python's [len].  An iterator over
    a list is the list of the entries it has not yet produced.  Calls that
    leave the program (feedparser, pydantic's URL validation, hashlib, the
    search and language-model services, the Apify platform) are fields of a
    [World] record: every theorem holds whatever these calls answer. *)

From stdpp Require Import base tactics option list gmap strings sorting.
From Stdlib Require Import ZArith Lia.
From Stdlib Require DecimalString.

Open Scope string_scope.
Open Scope list_scope.
Open Scope Z_scope.

(** ** Results of Python calls *)

Inductive exn : Type :=
  | ValidationError      (* pydantic rejected a field *)
  | IndexError           (* list.pop out of range *)
  | PushError            (* Actor.push_data failed *)
  | GraphRecursionError  (* langgraph ran out of steps *)
  | ValueError.          (* langgraph refused the recursion limit *)

Inductive outcome (A : Type) : Type :=
  | Returns (a : A)
  | Raises (e : exn)
  | OutOfFuel.
Arguments Returns {A} a.
Arguments Raises {A} e.
Arguments OutOfFuel {A}.

#[global] Instance outcome_bind : MBind outcome := fun A B k m =>
  match m with
  | Returns a => k a
  | Raises e => Raises e
  | OutOfFuel => OutOfFuel
  end.

(** [len(l)] *)
Definition len {A} (l : list A) : Z := Z.of_nat (length l).
Arguments len {A} l : simpl never.

(** [len(s)] of a string *)
Definition str_len (s : string) : Z := Z.of_nat (String.length s).

(** Truth value of a Python string and of an optional string. *)
Definition truthy (s : string) : bool := negb (String.eqb s "").
Definition truthy_opt (o : option string) : bool :=
  match o with Some s => truthy s | None => false end.

(** ** models.py *)

(** An entry of a parsed feed (a feedparser dictionary): only the keys the
    actors read. *)
Record FeedEntry : Type := {
  entry_title : option string;
  entry_link : option string;
  entry_published : option string;
  entry_summary : option string }.

(** [class RSSFeed(BaseModel)]; [link] holds the validated URL. *)
Record RSSFeed : Type := {
  title : string;
  link : string;
  source : option string;
  published : option string;
  summary : option string }.

#[global] Instance RSSFeed_eq_dec : EqDecision RSSFeed.
Proof. solve_decision. Defined.

(** [class InputConfig(BaseModel)] *)
Record InputConfig : Type := {
  cfg_source : string;
  customFeedUrl : option string;
  maxArticles : Z;
  region : string;
  timeLimit : string;
  runTestMode : bool }.

(** A value of a JSON list returned by the language model. *)
Inductive pyval : Type :=
  | PyStr (s : string)
  | PyOther.

(** The dictionary [analyze_article_summary] returns. *)
Record Analysis : Type := {
  a_sentiment : string;
  a_category : string;
  a_key_entities : list pyval }.

(** [class DatasetRecord(BaseModel)] *)
Record DatasetRecord : Type := {
  d_source : option string;
  d_title : string;
  d_url : string;
  d_published : option string;
  d_summary : option string;
  d_sentiment : option string;
  d_category : option string;
  d_key_entities : option (list string) }.

(** ** The outside world *)

(** What [feedparser.parse(url)] (with the reads of [parsed.entries] and
    [parsed.feed] inside the same [try]) yields. *)
Inductive parse_outcome : Type :=
  | ParseFails
  | Parsed (entries : list FeedEntry) (feed_title : option string).

(** What the DuckDuckGo search tool yields: an exception, or the title and
    the snippet of each result. *)
Inductive search_outcome : Type :=
  | SearchFails
  | SearchResults (items : list (option string * option string)).

Record World : Type := {
  (** pydantic [HttpUrl]: [None] is a validation error, [Some u] the
      validated URL as [str(link)] shows it *)
  http_url : string -> option string;
  (** [feedparser.parse] *)
  feedparser_parse : string -> parse_outcome;
  (** [hashlib.md5(s.encode('utf-8')).hexdigest()] *)
  md5_hexdigest : string -> string;
  (** the DuckDuckGo news search: query, region, time limit *)
  duckduckgo_search : string -> string -> option string -> search_outcome;
  (** the chat completion that summarises: the prompt; [None] when the call
      raises *)
  llm_summary : string -> option string;
  (** the analysing model call on a summary of at least 20 characters,
      outside test mode *)
  llm_analysis : string -> Analysis;
  (** whether [Actor.push_data] accepts the record *)
  push_data_ok : DatasetRecord -> bool }.

(** A parsed feed kept by [fetch_rss_feeds]: the iterator over its entries
    and the source title. *)
Definition feed : Type := (list FeedEntry * string)%type.

(** [RSSFeed(title=entry.get("title", ""), link=entry.get("link", ""),
    source=source_title, published=entry.get("published"),
    summary=entry.get("summary"))] *)
Definition RSSFeed_of_entry (W : World) (entry : FeedEntry) (source_title : string)
  : option RSSFeed :=
  match http_url W (default "" (entry_link entry)) with
  | Some u =>
      Some {| title := default "" (entry_title entry);
              link := u;
              source := Some source_title;
              published := entry_published entry;
              summary := entry_summary entry |}
  | None => None
  end.

(** ** Python string operations used by main.py *)

(** [c.isspace()] for a character below 256 *)
Definition py_isspace (c : Ascii.ascii) : bool :=
  let n := Ascii.nat_of_ascii c in
  ((9 <=? n)%nat && (n <=? 13)%nat) || ((28 <=? n)%nat && (n <=? 32)%nat)
  || (n =? 133)%nat || (n =? 160)%nat.

Fixpoint py_lstrip (s : string) : string :=
  match s with
  | EmptyString => EmptyString
  | String c s' => if py_isspace c then py_lstrip s' else s
  end.

Fixpoint py_rstrip (s : string) : string :=
  match s with
  | EmptyString => EmptyString
  | String c s' =>
      let r := py_rstrip s' in
      if String.eqb r "" && py_isspace c then EmptyString else String c r
  end.

(** [s.strip()] *)
Definition py_strip (s : string) : string := py_lstrip (py_rstrip s).

(** [s.split()]: the maximal runs of non-blank characters; [word] is the
    run being read. *)
Fixpoint py_split_from (word : option string) (s : string) : list string :=
  match s with
  | EmptyString => match word with Some w => [w] | None => [] end
  | String c s' =>
      if py_isspace c then
        match word with
        | Some w => w :: py_split_from None s'
        | None => py_split_from None s'
        end
      else py_split_from (Some (default "" word +:+ String c EmptyString)) s'
  end.

Definition py_split (s : string) : list string := py_split_from None s.

(** [c.lower()] for a character below 256 *)
Definition py_lower_char (c : Ascii.ascii) : Ascii.ascii :=
  let n := Ascii.nat_of_ascii c in
  if ((65 <=? n)%nat && (n <=? 90)%nat)
     || ((192 <=? n)%nat && (n <=? 222)%nat && negb (n =? 215)%nat)
  then Ascii.ascii_of_nat (n + 32) else c.

(** [s.lower()] *)
Fixpoint py_lower (s : string) : string :=
  match s with
  | EmptyString => EmptyString
  | String c s' => String (py_lower_char c) (py_lower s')
  end.

Definition newline : string := String (Ascii.ascii_of_nat 10) EmptyString.

(** [s.replace(c, '')] for a one-character [c] *)
Fixpoint py_remove_char (c : Ascii.ascii) (s : string) : string :=
  match s with
  | EmptyString => EmptyString
  | String d s' => if Ascii.eqb c d then py_remove_char c s' else String d (py_remove_char c s')
  end.

Definition lt_sign : Ascii.ascii := Ascii.ascii_of_nat 60.
Definition gt_sign : Ascii.ascii := Ascii.ascii_of_nat 62.
Definition double_quote : Ascii.ascii := Ascii.ascii_of_nat 34.

(** Length of a match of [[^<]*?>] at the start of [s], if there is one. *)
Fixpoint tag_close (s : string) : option nat :=
  match s with
  | EmptyString => None
  | String c s' =>
      if Ascii.eqb c gt_sign then Some 1%nat
      else if Ascii.eqb c lt_sign then None
      else S <$> tag_close s'
  end.

(** Length of a match of [[^<]+?>] at the start of [s]. *)
Definition tag_length (s : string) : option nat :=
  match s with
  | EmptyString => None
  | String c s' => if Ascii.eqb c lt_sign then None else S <$> tag_close s'
  end.

(** [re.sub('<[^<]+?>', '', s)]; [skip] characters of a match are still to
    be dropped. *)
Fixpoint re_sub_tags_from (skip : nat) (s : string) : string :=
  match s with
  | EmptyString => EmptyString
  | String c s' =>
      match skip with
      | S k => re_sub_tags_from k s'
      | O =>
          if Ascii.eqb c lt_sign then
            match tag_length s' with
            | Some n => re_sub_tags_from n s'
            | None => String c (re_sub_tags_from 0 s')
            end
          else String c (re_sub_tags_from 0 s')
      end
  end.

Definition re_sub_tags (s : string) : string := re_sub_tags_from 0 s.

(** ** Python list operations used by tools.py *)

(** [sorted(l, reverse=True)] on indices *)
Fixpoint insert_desc (x : nat) (l : list nat) : list nat :=
  match l with
  | [] => [x]
  | y :: l' => if (y <? x)%nat then x :: y :: l' else y :: insert_desc x l'
  end.

Definition sorted_reverse (l : list nat) : list nat := foldr insert_desc [] l.

(** [l.pop(index)]: the list without its element at [index], an
    [IndexError] out of range. *)
Definition pop {A} (index : nat) (l : list A) : outcome (list A) :=
  if (index <? length l)%nat then Returns (delete index l) else Raises IndexError.

(** [for index in indices: l.pop(index)] *)
Fixpoint pop_each {A} (indices : list nat) (l : list A) : outcome (list A) :=
  match indices with
  | [] => Returns l
  | index :: rest => l' ← pop index l; pop_each rest l'
  end.

(** [feed_map.get(source)] on the dictionary in insertion order *)
Fixpoint feed_map_get (feed_map : list (string * option string)) (key : string)
  : option string :=
  match feed_map with
  | [] => None
  | (k, v) :: rest => if String.eqb k key then v else feed_map_get rest key
  end.

(** ** health-fitness-intelligence/src/tools.py *)

Module HealthFitness.

(** [feed_map] of [fetch_rss_feeds], in insertion order *)
Definition feed_map (custom_url : option string) : list (string * option string) :=
  [
    ("mens-health", Some "https://www.menshealth.com/rss/all.xml/");
    ("myfitnesspal", Some "https://blog.myfitnesspal.com/feed");
    ("born-fitness", Some "https://www.bornfitness.com/feed/");
    ("trainerize", Some "http://feeds.feedburner.com/TrainerizeBlog");
    ("wod-guru", Some "https://wod.guru/feed/");
    ("breaking-muscle", Some "https://breakingmuscle.com/feed/");
    ("fitnessista", Some "https://fitnessista.com/feed/");
    ("anytime-fitness", Some "https://www.anytimefitness.co.in/feed/");
    ("nasm", Some "https://blog.nasm.org/rss.xml");
    ("girls-gone-strong", Some "https://www.girlsgonestrong.com/feed");
    ("popsugar-fitness", Some "https://www.popsugar.com/feed");
    ("the-fit-bits", Some "http://www.thefitbits.com/feed");
    ("precision-nutrition", Some "https://www.precisionnutrition.com/feed");
    ("bites-of-wellness", Some "https://bitesofwellness.com/feed/");
    ("eating-bird-food", Some "https://www.eatingbirdfood.com/feed/");
    ("nutrition-stripped", Some "https://nutritionstripped.com/articles/feed/");
    ("oh-she-glows", Some "https://ohsheglows.com/feed/");
    ("nutritionfacts", Some "https://nutritionfacts.org/feed/");
    ("delish-knowledge", Some "https://www.delishknowledge.com/feed/");
    ("real-food-dietitians", Some "https://therealfooddietitians.com/feed");
    ("fit-foodie-finds", Some "https://fitfoodiefinds.com/feed/");
    ("toby-amidor-nutrition", Some "https://tobyamidornutrition.com/feed");
    ("pbfingers", Some "https://www.pbfingers.com/feed");
    ("the-healthy-maven", Some "https://www.thehealthymaven.com/feed");
    ("nutrition-twins", Some "https://www.nutritiontwins.com/feed");
    ("the-full-helping", Some "https://www.thefullhelping.com/feed");
    ("the-fit-foodie", Some "https://the-fit-foodie.com/feed");
    ("fit-bottomed-girls", Some "https://fitbottomedgirls.com/category/fitness/fitness-blogs/feed/");
    ("art-of-healthy-living", Some "https://artofhealthyliving.com/feed/");
    ("shape", Some "https://feeds-api.dotdashmeredith.com/v1/rss/google/5814e1d4-bdb5-4afb-a458-61bfc1585860");
    ("health", Some "https://feeds-api.dotdashmeredith.com/v1/rss/google/3a6c43d9-d394-4797-9855-97f429e5b1ff");
    ("healthshots", Some "https://www.healthshots.com/rss-feeds/");
    ("mommypotamus", Some "https://mommypotamus.com/feed");
    ("natural-living-ideas", Some "https://www.naturallivingideas.com/feed");
    ("a-healthy-slice-of-life", Some "https://www.ahealthysliceoflife.com/feed");
    ("unlikely-martha", Some "https://unlikelymartha.com/feed");
    ("athletechnews", Some "https://athletechnews.com/feed");
    ("health-club-management", Some "https://www.healthclubmanagement.co.uk/feed/news-feed.xml");
    ("club-solutions", Some "https://clubsolutionsmagazine.com/feed/");
    ("total-health-and-fitness", Some "https://www.totalhealthandfitness.com/feed/");
    ("core-handf", Some "https://corehandf.com/blog/rss.xml");
    ("custom", custom_url)
  ].

(** The [urls] list: the custom URL, every mapped URL but the custom one, or
    the URL of the named source. *)
Definition select_urls (source : string) (custom_url : option string) : list string :=
  if String.eqb source "custom" && truthy_opt custom_url then
    [default "" custom_url]
  else if String.eqb source "all" then
    omap (fun kv : string * option string =>
            if negb (String.eqb kv.1 "custom") then kv.2 else None)
         (feed_map custom_url)
  else
    match feed_map_get (feed_map custom_url) source with
    | Some selected => if truthy selected then [selected] else []
    | None => []
    end.

(** The parsing loop: a feed that fails to parse or has no entries is
    logged and left out. *)
Fixpoint parse_feeds (W : World) (urls : list string) : list feed :=
  match urls with
  | [] => []
  | feed_url :: rest =>
      match feedparser_parse W feed_url with
      | Parsed (e :: es) feed_title =>
          (e :: es, default ("Unknown (" +:+ feed_url +:+ ")") feed_title)
            :: parse_feeds W rest
      | Parsed [] _ => parse_feeds W rest
      | ParseFails => parse_feeds W rest
      end
  end.

(** One run of [for i, (entry_iterator, source_title) in
    enumerate(available_feeds)], from index [i] on: the feeds with their
    iterators advanced, the articles and [feeds_to_remove]. *)
Fixpoint for_feeds (W : World) (max_articles : Z) (i : nat) (available_feeds : list feed)
    (articles : list RSSFeed) (feeds_to_remove : list nat)
  : list feed * list RSSFeed * list nat :=
  match available_feeds with
  | [] => ([], articles, feeds_to_remove)
  | (entry_iterator, source_title) :: rest =>
      if max_articles <=? len articles then
        (available_feeds, articles, feeds_to_remove)            (* break *)
      else
        match entry_iterator with
        | [] =>                                                  (* StopIteration *)
            let '(rest', articles', remove') :=
              for_feeds W max_articles (S i) rest articles (feeds_to_remove ++ [i]) in
            ((entry_iterator, source_title) :: rest', articles', remove')
        | entry :: later =>
            match RSSFeed_of_entry W entry source_title with
            | Some article =>
                let '(rest', articles', remove') :=
                  for_feeds W max_articles (S i) rest (articles ++ [article])
                            feeds_to_remove in
                ((later, source_title) :: rest', articles', remove')
            | None =>                                            (* Exception *)
                let '(rest', articles', remove') :=
                  for_feeds W max_articles (S i) rest articles (feeds_to_remove ++ [i]) in
                ((later, source_title) :: rest', articles', remove')
            end
        end
  end.

(** The body of the [while] loop: one pass over the live feeds, then the
    flagged feeds are popped, highest index first. *)
Definition while_body (W : World) (max_articles : Z)
    (articles : list RSSFeed) (available_feeds : list feed)
  : outcome (list RSSFeed * list feed) :=
  let '(feeds, articles', feeds_to_remove) :=
    for_feeds W max_articles 0 available_feeds articles [] in
  available' ← pop_each (sorted_reverse feeds_to_remove) feeds;
  Returns (articles', available').

(** [while len(articles) < max_articles and available_feeds], at most
    [fuel] passes. *)
Fixpoint while_loop (W : World) (fuel : nat) (max_articles : Z)
    (articles : list RSSFeed) (available_feeds : list feed)
  : outcome (list RSSFeed * list feed) :=
  if (len articles <? max_articles) && negb (bool_decide (available_feeds = [])) then
    match fuel with
    | O => OutOfFuel
    | S fuel' =>
        st ← while_body W max_articles articles available_feeds;
        while_loop W fuel' max_articles st.1 st.2
    end
  else Returns (articles, available_feeds).

(** A number of passes that always suffices: every pass uses up an entry of
    a live feed or drops a feed. *)
Definition enough_passes (feeds : list feed) : nat :=
  S (sum_list (map (fun f : feed => S (length f.1)) feeds)).

(** [for i, entry in enumerate(entry_iterator)] of the single-feed branch;
    a validation error is not caught there. *)
Fixpoint single_feed (W : World) (max_articles : Z) (i : nat)
    (entry_iterator : list FeedEntry) (source_title : string) (articles : list RSSFeed)
  : outcome (list RSSFeed) :=
  match entry_iterator with
  | [] => Returns articles
  | entry :: later =>
      if max_articles <=? Z.of_nat i then Returns articles       (* break *)
      else
        match RSSFeed_of_entry W entry source_title with
        | Some article =>
            single_feed W max_articles (S i) later source_title (articles ++ [article])
        | None => Raises ValidationError
        end
  end.

(** The collection part of [fetch_rss_feeds], from [articles = []] on. *)
Definition collect (W : World) (source : string) (max_articles : Z)
    (parsed_feeds : list feed) : outcome (list RSSFeed) :=
  if (1 <? len parsed_feeds) && String.eqb source "all" then
    st ← while_loop W (enough_passes parsed_feeds) max_articles [] parsed_feeds;
    Returns st.1
  else if len parsed_feeds =? 1 then
    match parsed_feeds with
    | (entry_iterator, source_title) :: _ =>
        single_feed W max_articles 0 entry_iterator source_title []
    | [] => Returns []
    end
  else Returns [].

(** The list [parsed_feeds] that [fetch_rss_feeds] builds. *)
Definition parsed_feeds (W : World) (source : string) (custom_url : option string)
  : list feed :=
  parse_feeds W (select_urls source custom_url).

Definition fetch_rss_feeds (W : World) (source : string) (custom_url : option string)
    (max_articles : Z) : outcome (list RSSFeed) :=
  collect W source max_articles (parsed_feeds W source custom_url).

(** *** health-fitness-intelligence/src/main.py *)

(** [strip_html_tags(text)] *)
Definition strip_html_tags (text : option string) : string :=
  match text with
  | None => ""
  | Some t =>
      if truthy t then String.concat " " (py_split (re_sub_tags t)) else ""
  end.

(** [summarize_snippets_with_llm(snippets, is_test_mode)]: the canned
    summary in test mode; otherwise the stripped answer of the model, or the
    empty string when the call raises. *)
Definition summarize_snippets_with_llm (W : World) (snippets : string)
    (is_test_mode : bool) : string :=
  if is_test_mode then
    "This is a test summary generated from dummy search snippets about a recent health or fitness trend."
  else
    let prompt :=
      "Based on the following raw search result snippets, synthesize a concise, neutral, one-paragraph summary of the main news event."
      +:+ newline +:+ newline +:+ "Snippets:" +:+ newline +:+ "---" +:+ newline
      +:+ snippets +:+ newline +:+ "---" in
    match llm_summary W prompt with
    | Some content => py_strip content
    | None => ""
    end.

(** [fetch_summary_from_duckduckgo(query, is_test_mode, region,
    time_limit)] *)
Definition fetch_summary_from_duckduckgo (W : World) (query : string)
    (is_test_mode : bool) (region time_limit : string) : string :=
  if is_test_mode then summarize_snippets_with_llm W "" true
  else
    let time_param_for_api :=
      if truthy time_limit && String.eqb (py_lower time_limit) "any" then None
      else Some time_limit in
    match duckduckgo_search W query region time_param_for_api with
    | SearchFails => ""
    | SearchResults [] => ""
    | SearchResults search_results =>
        let snippets_for_prompt :=
          String.concat newline
            (omap (fun item : option string * option string =>
                     if truthy_opt item.2 then
                       Some ("Title: " +:+ default "N/A" item.1 +:+ newline
                             +:+ "Snippet: " +:+ default "" item.2)
                     else None)
                  search_results) in
        if truthy snippets_for_prompt then
          summarize_snippets_with_llm W snippets_for_prompt false
        else ""
    end.

(** [analyze_article_summary] *)
Definition analyze_article_summary (W : World) (summary : string) (is_test_mode : bool)
  : Analysis :=
  if is_test_mode then
    {| a_sentiment := "General Info (TEST)";
       a_category := "Nutrition/Recipes (TEST)";
       a_key_entities := [PyStr "Vitamin D"; PyStr "HIIT"; PyStr "Wellness"] |}
  else if negb (truthy summary) || (str_len summary <? 20) then
    {| a_sentiment := "N/A"; a_category := "N/A"; a_key_entities := [] |}
  else llm_analysis W summary.

(** Validation of [key_entities: Optional[List[str]]] *)
Fixpoint validate_str_list (l : list pyval) : option (list string) :=
  match l with
  | [] => Some []
  | PyStr s :: rest => (fun r => s :: r) <$> validate_str_list rest
  | PyOther :: _ => None
  end.

(** [DatasetRecord(source=art.source, title=art.title, url=art.link, ...)] *)
Definition DatasetRecord_of (art : RSSFeed) (analysis_results : Analysis)
  : option DatasetRecord :=
  match validate_str_list (a_key_entities analysis_results) with
  | Some entities =>
      Some {| d_source := source art;
              d_title := title art;
              d_url := link art;
              d_published := published art;
              d_summary := summary art;
              d_sentiment := Some (a_sentiment analysis_results);
              d_category := Some (a_category analysis_results);
              d_key_entities := Some entities |}
  | None => None
  end.

(** The calls that change the platform, in the order they are made. *)
Inductive effect : Type :=
  | PushData (record : DatasetRecord)
  | SetValue (key : string) (value : bool).

(** The Apify platform as the actor sees it: the dataset, the key-value
    store "processed-urls-health" and the journal of the changing calls. *)
Record Platform : Type := {
  dataset : list DatasetRecord;
  processed_urls_store : gmap string bool;
  journal : list effect }.

(** [class WorkflowState(TypedDict)]; the store lives in [Platform]. *)
Record WorkflowState : Type := {
  config : InputConfig;
  articles : list RSSFeed;
  processed_count : nat }.

(** [hashlib.md5(str(article.link).encode('utf-8')).hexdigest()] *)
Definition url_key (W : World) (article : RSSFeed) : string :=
  md5_hexdigest W (link article).

(** [is_duplicate = await processed_urls_store.get_value(url_key)], as a
    truth value *)
Definition is_duplicate (W : World) (store : gmap string bool) (article : RSSFeed) : bool :=
  match store !! url_key W article with
  | Some value => value
  | None => false
  end.

(** The deduplication loop of [rss_fetcher]. *)
Definition filter_new (W : World) (store : gmap string bool)
    (all_articles_from_feed : list RSSFeed) : list RSSFeed :=
  filter (fun article => is_duplicate W store article = false) all_articles_from_feed.

(** The recycling step of [rss_fetcher]. *)
Definition recycle (max_articles : Z) (all_articles_from_feed new_articles : list RSSFeed)
  : list RSSFeed :=
  if len new_articles <? max_articles then
    let needed := max_articles - len new_articles in
    let remaining :=
      take (Z.to_nat needed)
           (filter (fun a => a ∉ new_articles) all_articles_from_feed) in
    new_articles ++ remaining
  else new_articles.

(** [rss_fetcher(state)] *)
Definition rss_fetcher (W : World) (state : WorkflowState) (P : Platform)
  : outcome WorkflowState :=
  let config := config state in
  all_articles_from_feed ←
    fetch_rss_feeds W (cfg_source config) (customFeedUrl config) (maxArticles config);
  let new_articles := filter_new W (processed_urls_store P) all_articles_from_feed in
  Returns {| config := config;
             articles := recycle (maxArticles config) all_articles_from_feed new_articles;
             processed_count := 0 |}.

(** [Actor.push_data([dataset_record])]: the platform with the record
    pushed, or [None] when the call raises. *)
Definition push_data (W : World) (record : DatasetRecord) (P : Platform)
  : option Platform :=
  if push_data_ok W record then
    Some {| dataset := dataset P ++ [record];
            processed_urls_store := processed_urls_store P;
            journal := journal P ++ [PushData record] |}
  else None.

(** [processed_urls_store.set_value(key=url_key, value=True)] *)
Definition set_value (key : string) (value : bool) (P : Platform) : Platform :=
  {| dataset := dataset P;
     processed_urls_store := <[key := value]> (processed_urls_store P);
     journal := journal P ++ [SetValue key value] |}.

(** [art.summary = ai_overview] *)
Definition with_summary (art : RSSFeed) (ai_overview : string) : RSSFeed :=
  {| title := title art; link := link art; source := source art;
     published := published art; summary := Some ai_overview |}.

(** The summary [process_and_save_article] settles on: the strict search,
    the loose search, then the cleaned feed summary. *)
Definition find_overview (W : World) (config : InputConfig) (art : RSSFeed) : string :=
  let query_strict :=
    String double_quote (title art +:+ String double_quote EmptyString) in
  let ai_overview :=
    fetch_summary_from_duckduckgo W query_strict (runTestMode config)
                                  (region config) (timeLimit config) in
  let ai_overview :=
    if truthy ai_overview then ai_overview
    else
      let query_loose := py_strip (py_remove_char double_quote (title art)) in
      fetch_summary_from_duckduckgo W query_loose (runTestMode config)
                                    (region config) (timeLimit config) in
  if negb (truthy ai_overview) && truthy_opt (summary art)
     && (50 <=? str_len (py_strip (default "" (summary art)))) then
    strip_html_tags (summary art)
  else ai_overview.

(** [process_and_save_article(state)]: the platform after the call and the
    updated state, or the exception that left the node. *)
Definition process_and_save_article (W : World) (state : WorkflowState) (P : Platform)
  : Platform * outcome WorkflowState :=
  match articles state !! processed_count state with
  | None => (P, Returns state)                        (* no more articles *)
  | Some art =>
      let ai_overview := find_overview W (config state) art in
      if negb (truthy ai_overview) then
        (P, Returns {| config := config state;          (* article skipped *)
                       articles := articles state;
                       processed_count := S (processed_count state) |})
      else
        let art' := with_summary art ai_overview in
        let articles' := <[processed_count state := art']> (articles state) in
        let analysis_results :=
          analyze_article_summary W ai_overview (runTestMode (config state)) in
        match DatasetRecord_of art' analysis_results with
        | None => (P, Raises ValidationError)
        | Some dataset_record =>
            match push_data W dataset_record P with
            | Some P1 =>
                let P2 := set_value (url_key W art') true P1 in
                (P2, Returns {| config := config state;
                                articles := articles';
                                processed_count := S (processed_count state) |})
            | None => (P, Raises PushError)
            end
        end
  end.

(** [should_continue(state)] *)
Definition should_continue (state : WorkflowState) : string :=
  if (processed_count state <? length (articles state))%nat then "continue" else "end".

(** The nodes of the graph [main] builds. *)
Inductive node : Type :=
  | RSSFetcher
  | ProcessAndSaveArticle.

Definition run_node (W : World) (n : node) (state : WorkflowState) (P : Platform)
  : Platform * outcome WorkflowState :=
  match n with
  | RSSFetcher => (P, rss_fetcher W state P)
  | ProcessAndSaveArticle => process_and_save_article W state P
  end.

(** The compiled graph: after either node the conditional edge sends
    "continue" to ProcessAndSaveArticle and "end" to the end of the run.
    langgraph counts the steps of a run and compares the count with the
    limit after every node, before it looks at the edge: a run ends without
    the recursion error only when [recursion_limit] exceeds the number of
    nodes run.  With a limit of [k] the node number [k] still runs, and the
    run then stops with the recursion error, also when that node was the
    last one.  A limit below 1 is refused before any node runs. *)
Fixpoint run_graph (W : World) (recursion_limit : nat) (n : node)
    (state : WorkflowState) (P : Platform) : Platform * outcome WorkflowState :=
  match recursion_limit with
  | O => (P, Raises ValueError)
  | S limit =>
      match run_node W n state P with
      | (P', Returns state') =>
          match limit with
          | O => (P', Raises GraphRecursionError)
          | S _ =>
              if String.eqb (should_continue state') "continue" then
                run_graph W limit ProcessAndSaveArticle state' P'
              else (P', Returns state')
          end
      | failed => failed
      end
  end.

(** [app.ainvoke] as [main] calls it: from the RSSFetcher, with empty
    articles and a recursion limit of [maxArticles + 5]. *)
Definition pipeline (W : World) (config : InputConfig) (P : Platform)
  : Platform * outcome WorkflowState :=
  run_graph W (Z.to_nat (maxArticles config + 5)) RSSFetcher
            {| config := config; articles := []; processed_count := 0 |} P.

End HealthFitness.

(** ** cybersecurity-ai-news-intelligence/src/tools.py *)

Module Cybersecurity.

(** [feed_map] of [fetch_rss_feeds], in insertion order *)
Definition feed_map (custom_url : option string) : list (string * option string) :=
  [
    ("the-hacker-news", Some "https://feeds.feedburner.com/TheHackersNews");
    ("krebsonsecurity", Some "https://krebsonsecurity.com/feed/");
    ("dark-reading", Some "https://www.darkreading.com/rss.xml");
    ("schneier", Some "https://www.schneier.com/feed/atom");
    ("cisa-advisories", Some "https://www.cisa.gov/cybersecurity-advisories/all.xml");
    ("bleepingcomputer", Some "https://www.bleepingcomputer.com/feed/");
    ("cso-online", Some "https://www.csoonline.com/feed/");
    ("rapid7", Some "https://blog.rapid7.com/rss/");
    ("microsoft-security", Some "https://www.microsoft.com/security/blog/feed");
    ("google-security", Some "https://googleonlinesecurity.blogspot.com/atom.xml");
    ("zdnet-security", Some "https://www.zdnet.com/topic/security/rss.xml");
    ("arstechnica-security", Some "https://arstechnica.com/tag/security/feed");
    ("threatpost", Some "https://threatpost.com/feed");
    ("security-affairs", Some "http://securityaffairs.co/wordpress/feed");
    ("naked-security", Some "https://nakedsecurity.sophos.com/feed");
    ("troy-hunt", Some "https://feeds.feedburner.com/TroyHunt");
    ("zdi-published", Some "https://www.zerodayinitiative.com/rss/published/");
    ("cisco-talos", Some "https://feeds.feedburner.com/feedburner/Talos");
    ("crowdstrike", Some "https://www.crowdstrike.com/blog/feed");
    ("custom", custom_url)
  ].

(** The [urls] list: the custom URL, every mapped URL but the custom one, or
    the URL of the named source. *)
Definition select_urls (source : string) (custom_url : option string) : list string :=
  if String.eqb source "custom" && truthy_opt custom_url then
    [default "" custom_url]
  else if String.eqb source "all" then
    omap (fun kv : string * option string =>
            if negb (String.eqb kv.1 "custom") then kv.2 else None)
         (feed_map custom_url)
  else
    match feed_map_get (feed_map custom_url) source with
    | Some selected => if truthy selected then [selected] else []
    | None => []
    end.

(** The parsing loop: a feed that fails to parse or has no entries is
    logged and left out. *)
Fixpoint parse_feeds (W : World) (urls : list string) : list feed :=
  match urls with
  | [] => []
  | feed_url :: rest =>
      match feedparser_parse W feed_url with
      | Parsed (e :: es) feed_title =>
          (e :: es, default ("Unknown (" +:+ feed_url +:+ ")") feed_title)
            :: parse_feeds W rest
      | Parsed [] _ => parse_feeds W rest
      | ParseFails => parse_feeds W rest
      end
  end.

(** One run of [for i, (entry_iterator, source_title) in
    enumerate(available_feeds)], from index [i] on: the feeds with their
    iterators advanced, the articles and [feeds_to_remove]. *)
Fixpoint for_feeds (W : World) (max_articles : Z) (i : nat) (available_feeds : list feed)
    (articles : list RSSFeed) (feeds_to_remove : list nat)
  : list feed * list RSSFeed * list nat :=
  match available_feeds with
  | [] => ([], articles, feeds_to_remove)
  | (entry_iterator, source_title) :: rest =>
      if max_articles <=? len articles then
        (available_feeds, articles, feeds_to_remove)            (* break *)
      else
        match entry_iterator with
        | [] =>                                                  (* StopIteration *)
            let '(rest', articles', remove') :=
              for_feeds W max_articles (S i) rest articles (feeds_to_remove ++ [i]) in
            ((entry_iterator, source_title) :: rest', articles', remove')
        | entry :: later =>
            match RSSFeed_of_entry W entry source_title with
            | Some article =>
                let '(rest', articles', remove') :=
                  for_feeds W max_articles (S i) rest (articles ++ [article])
                            feeds_to_remove in
                ((later, source_title) :: rest', articles', remove')
            | None =>                                            (* Exception *)
                let '(rest', articles', remove') :=
                  for_feeds W max_articles (S i) rest articles (feeds_to_remove ++ [i]) in
                ((later, source_title) :: rest', articles', remove')
            end
        end
  end.

(** The body of the [while] loop: one pass over the live feeds, then the
    flagged feeds are popped, highest index first. *)
Definition while_body (W : World) (max_articles : Z)
    (articles : list RSSFeed) (available_feeds : list feed)
  : outcome (list RSSFeed * list feed) :=
  let '(feeds, articles', feeds_to_remove) :=
    for_feeds W max_articles 0 available_feeds articles [] in
  available' ← pop_each (sorted_reverse feeds_to_remove) feeds;
  Returns (articles', available').

(** [while len(articles) < max_articles and available_feeds], at most
    [fuel] passes. *)
Fixpoint while_loop (W : World) (fuel : nat) (max_articles : Z)
    (articles : list RSSFeed) (available_feeds : list feed)
  : outcome (list RSSFeed * list feed) :=
  if (len articles <? max_articles) && negb (bool_decide (available_feeds = [])) then
    match fuel with
    | O => OutOfFuel
    | S fuel' =>
        st ← while_body W max_articles articles available_feeds;
        while_loop W fuel' max_articles st.1 st.2
    end
  else Returns (articles, available_feeds).

(** A number of passes that always suffices: every pass uses up an entry of
    a live feed or drops a feed. *)
Definition enough_passes (feeds : list feed) : nat :=
  S (sum_list (map (fun f : feed => S (length f.1)) feeds)).

(** [for i, entry in enumerate(entry_iterator)] of the single-feed branch;
    a validation error is not caught there. *)
Fixpoint single_feed (W : World) (max_articles : Z) (i : nat)
    (entry_iterator : list FeedEntry) (source_title : string) (articles : list RSSFeed)
  : outcome (list RSSFeed) :=
  match entry_iterator with
  | [] => Returns articles
  | entry :: later =>
      if max_articles <=? Z.of_nat i then Returns articles       (* break *)
      else
        match RSSFeed_of_entry W entry source_title with
        | Some article =>
            single_feed W max_articles (S i) later source_title (articles ++ [article])
        | None => Raises ValidationError
        end
  end.

(** The collection part of [fetch_rss_feeds], from [articles = []] on. *)
Definition collect (W : World) (source : string) (max_articles : Z)
    (parsed_feeds : list feed) : outcome (list RSSFeed) :=
  if (1 <? len parsed_feeds) && String.eqb source "all" then
    st ← while_loop W (enough_passes parsed_feeds) max_articles [] parsed_feeds;
    Returns st.1
  else if len parsed_feeds =? 1 then
    match parsed_feeds with
    | (entry_iterator, source_title) :: _ =>
        single_feed W max_articles 0 entry_iterator source_title []
    | [] => Returns []
    end
  else Returns [].

(** The list [parsed_feeds] that [fetch_rss_feeds] builds. *)
Definition parsed_feeds (W : World) (source : string) (custom_url : option string)
  : list feed :=
  parse_feeds W (select_urls source custom_url).

Definition fetch_rss_feeds (W : World) (source : string) (custom_url : option string)
    (max_articles : Z) : outcome (list RSSFeed) :=
  collect W source max_articles (parsed_feeds W source custom_url).

End Cybersecurity.

(** ** gdelt-news/src/tools.py *)

Module Gdelt.

(** What [response.json()] and the reads of the result yield. *)
Inductive json_body : Type :=
  | BodyUnreadable                               (* an exception *)
  | BodyItems (items : list (option string)).    (* the [snippet] of each item *)

(** What [client.get(search_url, params=params)] yields. *)
Inductive http_outcome : Type :=
  | RequestFails                                 (* an exception *)
  | Response (status_code : Z) (body : json_body).

Record SearchWorld : Type := {
  (** [os.getenv("GOOGLE_API_KEY")] and [os.getenv("GOOGLE_CSE_ID")] *)
  google_api_key : option string;
  google_cse_id : option string;
  (** the answer to the request of each attempt *)
  http_get : nat -> string -> http_outcome;
  (** whether [response.raise_for_status()] raises for a status *)
  raise_for_status : Z -> bool;
  (** the summarising model call outside test mode: the summary, or the
      empty string when the call fails *)
  llm_summary : string -> string }.

(** The calls of [fetch_summary_from_google] that can be observed from
    outside, in order. *)
Inductive event : Type :=
  | Request (attempt : nat)
  | Sleep (seconds : Z).

Definition MAX_RETRIES : Z := 3.

(** [summarize_snippets_with_llm] *)
Definition summarize_snippets_with_llm (W : SearchWorld) (snippets : string)
    (is_test_mode : bool) : string :=
  if is_test_mode then
    "This is a test summary generated from dummy search snippets about a recent cybersecurity or geopolitical event."
  else llm_summary W snippets.

(** The body of [for attempt in range(MAX_RETRIES)] over the attempts still
    to make, and the [return ""] that follows the loop. *)
Fixpoint search_attempts (W : SearchWorld) (query : string) (range : list nat)
  : string * list event :=
  match range with
  | [] => ("", [])
  | attempt :: later =>
      match http_get W attempt query with
      | RequestFails => ("", [Request attempt])
      | Response status_code body =>
          if status_code =? 403 then
            if Z.of_nat attempt <? MAX_RETRIES - 1 then
              let delay := 2 ^ (Z.of_nat attempt + 1) in
              let '(result, events) := search_attempts W query later in
              (result, Request attempt :: Sleep delay :: events)
            else ("", [Request attempt])
          else if raise_for_status W status_code then ("", [Request attempt])
          else
            match body with
            | BodyUnreadable => ("", [Request attempt])
            | BodyItems [] => ("", [Request attempt])
            | BodyItems items =>
                let snippets :=
                  String.concat newline
                    (map (fun item => "- " +:+ default "" item) items) in
                (summarize_snippets_with_llm W snippets false, [Request attempt])
            end
      end
  end.

(** [fetch_summary_from_google(query, is_test_mode)]: the summary and the
    requests and sleeps made. *)
Definition fetch_summary_from_google (W : SearchWorld) (query : string)
    (is_test_mode : bool) : string * list event :=
  if is_test_mode then (summarize_snippets_with_llm W "" true, [])
  else if negb (truthy_opt (google_api_key W)) || negb (truthy_opt (google_cse_id W)) then
    ("", [])
  else search_attempts W query (seq 0 (Z.to_nat MAX_RETRIES)).

End Gdelt.

(** ** Notions used to state the properties *)

Import HealthFitness.

(** The articles a feed delivers before the collector drops it: its entries
    up to the first one pydantic rejects. *)
Fixpoint readable (W : World) (entry_iterator : list FeedEntry) (source_title : string)
  : list RSSFeed :=
  match entry_iterator with
  | [] => []
  | entry :: later =>
      match RSSFeed_of_entry W entry source_title with
      | Some article => article :: readable W later source_title
      | None => []
      end
  end.

Definition readable_feed (W : World) (f : feed) : list RSSFeed := readable W f.1 f.2.



(** The cycle [k] of a round-robin visit: the entry number [k] of every
    source that has one, in the order of the sources. *)
Definition cycle {A} (k : nat) (sources : list (list A)) : list A :=
  omap (fun l : list A => l !! k) sources.

(** Round-robin order as the specification words it: every source is
    visited once per cycle, in the order supplied, and within a source the
    order of the feed is kept. *)
Definition round_robin {A} (sources : list (list A)) : list A :=
  concat (map (fun k => cycle k sources) (seq 0 (max_list (map length sources)))).

(** A list without its first element, if it has one. *)
Definition behead {A} (l : list A) : option (list A) :=
  match l with
  | [] => None
  | _ :: l' => Some l'
  end.

(** One successful [next] on a feed: [None] when the iterator is exhausted
    or its next entry is rejected. *)
Definition advance (W : World) (f : feed) : option feed :=
  match f.1 with
  | [] => None
  | entry :: later =>
      match RSSFeed_of_entry W entry f.2 with
      | Some _ => Some (later, f.2)
      | None => None
      end
  end.

(** One pass over the live feeds without the index bookkeeping: the feeds
    still live afterwards and the articles. *)
Fixpoint sweep (W : World) (max_articles : Z) (available_feeds : list feed)
    (articles : list RSSFeed) : list feed * list RSSFeed :=
  match available_feeds with
  | [] => ([], articles)
  | (entry_iterator, source_title) :: rest =>
      if max_articles <=? len articles then (available_feeds, articles)
      else
        match entry_iterator with
        | [] => sweep W max_articles rest articles
        | entry :: later =>
            match RSSFeed_of_entry W entry source_title with
            | Some article =>
                let '(rest', articles') :=
                  sweep W max_articles rest (articles ++ [article]) in
                ((later, source_title) :: rest', articles')
            | None => sweep W max_articles rest articles
            end
        end
  end.

(** The indices, counted from [i], at which a list of marks is set, and the
    elements of a list whose mark is not set. *)
Fixpoint flagged (i : nat) (marks : list bool) : list nat :=
  match marks with
  | [] => []
  | true :: marks' => i :: flagged (S i) marks'
  | false :: marks' => flagged (S i) marks'
  end.

Fixpoint unflagged {A} (marks : list bool) (l : list A) : list A :=
  match marks, l with
  | true :: marks', _ :: l' => unflagged marks' l'
  | false :: marks', x :: l' => x :: unflagged marks' l'
  | _, _ => []
  end.

(** What is left to do for the collection loop: every live feed counts for
    one more than the entries its iterator still holds. *)
Definition live_weight (feeds : list feed) : nat :=
  sum_list (map (fun f : feed => S (length f.1)) feeds).

(** Number of articles of a list that carry a source title. *)
Definition contribution (source_title : string) (l : list RSSFeed) : Z :=
  len (filter (fun a => source a = Some source_title) l).



(** The requests and sleeps of a search that asks [S n] times. *)
Fixpoint backoff (first : nat) (n : nat) : list Gdelt.event :=
  match n with
  | O => [Gdelt.Request first]
  | S n' =>
      Gdelt.Request first :: Gdelt.Sleep (2 ^ (Z.of_nat first + 1))
        :: backoff (S first) n'
  end.

Definition is_request (e : Gdelt.event) : bool :=
  match e with
  | Gdelt.Request _ => true
  | Gdelt.Sleep _ => false
  end.

(** ** Example worlds *)

(** An entry with a title and a link. *)
Definition entry_of (title link : string) : FeedEntry :=
  {| entry_title := Some title; entry_link := Some link;
     entry_published := None; entry_summary := None |}.

(** The entries of a feed at [site], one for each name. *)
Definition entries_of (site : string) (names : list string) : list FeedEntry :=
  map (fun name => entry_of name (site +:+ name)) names.

(** The answer a table of feeds holds for a URL. *)
Fixpoint answer_of (table : list (string * parse_outcome)) (feed_url : string)
  : parse_outcome :=
  match table with
  | [] => ParseFails
  | (u, answer) :: rest =>
      if String.eqb u feed_url then answer else answer_of rest feed_url
  end.

(** A world in which the listed URLs answer as listed and every other URL
    fails to parse; URLs validate when they start with "http"; the digest is
    a stand-in that keeps digests of different links apart; outside test
    mode the search and the model calls fail. *)
Definition example_world (table : list (string * parse_outcome)) : World :=
  {| http_url := fun s => if String.prefix "http" s then Some s else None;
     feedparser_parse := answer_of table;
     md5_hexdigest := fun s => "md5:" +:+ s;
     duckduckgo_search := fun _ _ _ => SearchFails;
     llm_summary := fun _ => None;
     llm_analysis := fun _ =>
       {| a_sentiment := "N/A"; a_category := "N/A"; a_key_entities := [] |};
     push_data_ok := fun _ => true |}.

(** Three live feeds holding 5, 2 and 10 entries. *)
Definition three_feeds : World :=
  example_world
    [ ("https://www.menshealth.com/rss/all.xml/",
       Parsed (entries_of "http://a.example/" ["1"; "2"; "3"; "4"; "5"]) (Some "A"));
      ("https://blog.myfitnesspal.com/feed",
       Parsed (entries_of "http://b.example/" ["1"; "2"]) (Some "B"));
      ("https://www.bornfitness.com/feed/",
       Parsed (entries_of "http://c.example/"
                          ["1"; "2"; "3"; "4"; "5"; "6"; "7"; "8"; "9"; "10"])
              (Some "C"));
      ("https://wod.guru/feed/", Parsed [] (Some "D")) ].

(** Two live feeds holding 4 entries each. *)
Definition two_feeds : World :=
  example_world
    [ ("https://www.menshealth.com/rss/all.xml/",
       Parsed (entries_of "http://a.example/" ["1"; "2"; "3"; "4"]) (Some "A"));
      ("https://blog.myfitnesspal.com/feed",
       Parsed (entries_of "http://b.example/" ["1"; "2"; "3"; "4"]) (Some "B")) ].





(** No feed answers. *)
Definition dead_feeds : World := example_world [].

Definition example_config (source : string) (max_articles : Z) (test : bool)
  : InputConfig :=
  {| cfg_source := source; customFeedUrl := None; maxArticles := max_articles;
     region := "wt-wt"; timeLimit := "w"; runTestMode := test |}.

(** The platform with a given store and nothing pushed. *)
Definition platform_with (store : gmap string bool) : Platform :=
  {| dataset := []; processed_urls_store := store; journal := [] |}.

(** A store in which the second and the fourth article of each of the two
    feeds of [two_feeds] are marked. *)
Definition half_seen : gmap string bool :=
  list_to_map
    [ ("md5:http://a.example/2", true); ("md5:http://a.example/4", true);
      ("md5:http://b.example/2", true); ("md5:http://b.example/4", true) ].

Definition initial_state (config : InputConfig) : WorkflowState :=
  {| config := config; articles := []; processed_count := 0 |}.

(** ** Notions used for the further properties *)

(** The record [process_and_save_article] pushes for an article in test
    mode. *)
Definition test_record (art : RSSFeed) : DatasetRecord :=
  {| d_source := source art;
     d_title := title art;
     d_url := link art;
     d_published := published art;
     d_summary := Some (summarize_snippets_with_llm dead_feeds "" true);
     d_sentiment := Some "General Info (TEST)";
     d_category := Some "Nutrition/Recipes (TEST)";
     d_key_entities := Some ["Vitamin D"; "HIIT"; "Wellness"] |}.

(** The store after the keys of a list of articles were committed in
    turn. *)
Definition commit_all (W : World) (arts : list RSSFeed) (store : gmap string bool)
  : gmap string bool :=
  foldl (fun m a => <[url_key W a := true]> m) store arts.

(** The seconds slept in a list of events. *)
Fixpoint sleep_total (events : list Gdelt.event) : Z :=
  match events with
  | [] => 0
  | Gdelt.Sleep seconds :: rest => seconds + sleep_total rest
  | Gdelt.Request _ :: rest => sleep_total rest
  end.

(** The text [fetch_summary_from_google] hands to the summarising call. *)
Definition snippets_of (items : list (option string)) : string :=
  String.concat newline (map (fun item => "- " +:+ default "" item) items).

(** A custom feed whose second entry has a link pydantic rejects. *)
Definition broken_feed : World :=
  example_world
    [ ("https://feeds.example/custom",
       Parsed [entry_of "first" "http://x.example/1";
               entry_of "second" "not a link";
               entry_of "third" "http://x.example/3"] (Some "X")) ].

(** A platform that only gained: its dataset and its journal were extended
    and no marked key of the store was lost. *)
Definition grows (P P' : Platform) : Prop :=
  dataset P `prefix_of` dataset P'
  ∧ journal P `prefix_of` journal P'
  ∧ ∀ key : string,
      processed_urls_store P !! key = Some true →
      processed_urls_store P' !! key = Some true.

(** The calls that change the platform when an article is processed in
    test mode. *)
Definition test_effects (W : World) (art : RSSFeed) : list effect :=
  [PushData (test_record art); SetValue (url_key W art) true].

(** A search service that answers 403 to the first request and a result
    with one snippet to the second; the keys are set and the model answers
    with a fixed summary. *)
Definition flaky_search : Gdelt.SearchWorld :=
  {| Gdelt.google_api_key := Some "key";
     Gdelt.google_cse_id := Some "cse";
     Gdelt.http_get := fun attempt _ =>
       match attempt with
       | O => Gdelt.Response 403 Gdelt.BodyUnreadable
       | _ => Gdelt.Response 200 (Gdelt.BodyItems [Some "a snippet"])
       end;
     Gdelt.raise_for_status := fun status => 400 <=? status;
     Gdelt.llm_summary := fun _ => "a summary" |}.

(** A string in which every character satisfies [p]. *)
Fixpoint every_char (p : Ascii.ascii -> bool) (s : string) : bool :=
  match s with
  | EmptyString => true
  | String c s' => p c && every_char p s'
  end.

(** A word: a non-empty string without blank characters. *)
Definition is_word (w : string) : Prop :=
  w ≠ "" ∧ every_char (fun c => negb (py_isspace c)) w = true.

(** A string without the sign that opens a tag. *)
Definition tag_free (s : string) : Prop :=
  every_char (fun c => negb (Ascii.eqb c lt_sign)) s = true.

(** A world in which the news search answers with two results, one of them
    without a snippet, and the model answers with a fixed summary. *)
Definition answering_search : World :=
  {| http_url := fun s => if String.prefix "http" s then Some s else None;
     feedparser_parse := fun _ => ParseFails;
     md5_hexdigest := fun s => "md5:" +:+ s;
     duckduckgo_search := fun _ _ _ =>
       SearchResults [(Some "Headline", Some "A snippet."); (Some "Other", None)];
     llm_summary := fun _ => Some " A summary of the snippets. ";
     llm_analysis := fun _ =>
       {| a_sentiment := "N/A"; a_category := "N/A"; a_key_entities := [] |};
     push_data_ok := fun _ => true |}.

(** The text [fetch_summary_from_duckduckgo] makes of the results that have
    a snippet. *)
Definition snippets_for_prompt (search_results : list (option string * option string))
  : string :=
  String.concat newline
    (map (fun item : option string * option string =>
            "Title: " +:+ default "N/A" item.1 +:+ newline
            +:+ "Snippet: " +:+ default "" item.2)
         (filter (fun item : option string * option string => truthy_opt item.2 = true)
                 search_results)).

(** Both searches [process_and_save_article] makes for an article find
    nothing. *)
Definition searches_fail (W : World) (config : InputConfig) (art : RSSFeed) : Prop :=
  fetch_summary_from_duckduckgo W
    (String double_quote (title art +:+ String double_quote EmptyString))
    (runTestMode config) (region config) (timeLimit config) = ""
  ∧ fetch_summary_from_duckduckgo W
      (py_strip (py_remove_char double_quote (title art)))
      (runTestMode config) (region config) (timeLimit config) = "".

(** An article whose summary in the feed is long but made of tags only. *)
Definition tags_only_article : RSSFeed :=
  {| title := "Title"; link := "http://a.example/1"; source := Some "A";
     published := None;
     summary :=
       Some "<p><img src='http://a.example/picture-of-the-day.png' alt='picture'/></p>" |}.

(** ** gdelt-news/src/main.py: dates *)

Module GdeltMain.

(** [c.isdigit()] for a character below 256: the decimal digits and the
    superscripts one, two and three. *)
Definition py_isdigit_char (c : Ascii.ascii) : bool :=
  let n := Ascii.nat_of_ascii c in
  ((48 <=? n)%nat && (n <=? 57)%nat) || (n =? 178)%nat || (n =? 179)%nat
  || (n =? 185)%nat.

(** [s.isdigit()] *)
Definition py_isdigit (s : string) : bool :=
  negb (String.eqb s "") && every_char py_isdigit_char s.

(** The value of a character that the pattern [\d] matches (below 256: a
    decimal digit). *)
Definition digit_value (c : Ascii.ascii) : option Z :=
  let n := Ascii.nat_of_ascii c in
  if (48 <=? n)%nat && (n <=? 57)%nat then Some (Z.of_nat n - 48) else None.

Definition digit_char (d : Z) : Ascii.ascii := Ascii.ascii_of_nat (Z.to_nat (48 + d)).

(** [c in s] for a character *)
Fixpoint contains_char (c : Ascii.ascii) (s : string) : bool :=
  match s with
  | EmptyString => false
  | String d s' => Ascii.eqb c d || contains_char c s'
  end.

(** *** The patterns of [strptime]

    The patterns are those CPython 3.11 compiles the directives to.  A
    directive of a format is a pattern with alternatives; a token gives,
    for a text, the value and the rest of the text for every alternative that
    matches at its start, in the order of the alternatives. *)
Definition token : Type := string -> list (Z * string).

(** An alternative of two digits [x y] with [ok x y]. *)
Definition two_digits (ok : Z -> Z -> bool) (s : string) : list (Z * string) :=
  match s with
  | String a (String b rest) =>
      match digit_value a, digit_value b with
      | Some x, Some y => if ok x y then [(10 * x + y, rest)] else []
      | _, _ => []
      end
  | _ => []
  end.

(** An alternative of one digit [x] with [ok x]. *)
Definition one_digit (ok : Z -> bool) (s : string) : list (Z * string) :=
  match s with
  | String a rest =>
      match digit_value a with
      | Some x => if ok x then [(x, rest)] else []
      | None => []
      end
  | _ => []
  end.

(** The alternative [ [1-9]]: a blank and a digit from 1 to 9. *)
Definition blank_digit (s : string) : list (Z * string) :=
  match s with
  | String a rest =>
      if Ascii.eqb a (Ascii.ascii_of_nat 32) then one_digit (fun x => 1 <=? x) rest
      else []
  | _ => []
  end.

(** [%Y]: [\d\d\d\d] *)
Definition token_Y : token := fun s =>
  match s with
  | String a (String b (String c (String d rest))) =>
      match digit_value a, digit_value b, digit_value c, digit_value d with
      | Some x, Some y, Some z, Some w =>
          [(1000 * x + 100 * y + 10 * z + w, rest)]
      | _, _, _, _ => []
      end
  | _ => []
  end.

(** [%m]: [1[0-2]|0[1-9]|[1-9]] *)
Definition token_m : token := fun s =>
  two_digits (fun x y => (x =? 1) && (y <=? 2)) s
  ++ two_digits (fun x y => (x =? 0) && (1 <=? y)) s
  ++ one_digit (fun x => (1 <=? x)) s.

(** [%d]: [3[0-1]|[1-2]\d|0[1-9]|[1-9]| [1-9]] *)
Definition token_d : token := fun s =>
  two_digits (fun x y => (x =? 3) && (y <=? 1)) s
  ++ two_digits (fun x _ => (1 <=? x) && (x <=? 2)) s
  ++ two_digits (fun x y => (x =? 0) && (1 <=? y)) s
  ++ one_digit (fun x => (1 <=? x)) s
  ++ blank_digit s.

(** [%H]: [2[0-3]|[0-1]\d|\d] *)
Definition token_H : token := fun s =>
  two_digits (fun x y => (x =? 2) && (y <=? 3)) s
  ++ two_digits (fun x _ => (x <=? 1)) s
  ++ one_digit (fun _ => true) s.

(** [%M]: [[0-5]\d|\d] *)
Definition token_M : token := fun s =>
  two_digits (fun x _ => (x <=? 5)) s ++ one_digit (fun _ => true) s.

(** [%S]: [6[0-1]|[0-5]\d|\d] *)
Definition token_S : token := fun s =>
  two_digits (fun x y => (x =? 6) && (y <=? 1)) s
  ++ two_digits (fun x _ => (x <=? 5)) s
  ++ one_digit (fun _ => true) s.

(** A character of the format that stands for itself. *)
Definition token_char (c : Ascii.ascii) : token := fun s =>
  match s with
  | String a rest => if Ascii.eqb a c then [(0, rest)] else []
  | _ => []
  end.

(** The first result of [f] over a list. *)
Fixpoint first_match {A B} (f : A -> option B) (l : list A) : option B :=
  match l with
  | [] => None
  | x :: l' =>
      match f x with
      | Some y => Some y
      | None => first_match f l'
      end
  end.

(** The match of the pattern of a format at the start of a text, as a
    backtracking matcher finds it: the values of the tokens and the rest. *)
Fixpoint regex_match (tokens : list token) (s : string) : option (list Z * string) :=
  match tokens with
  | [] => Some ([], s)
  | tok :: later =>
      first_match
        (fun vr : Z * string =>
           match regex_match later vr.2 with
           | Some (values, rest) => Some (vr.1 :: values, rest)
           | None => None
           end)
        (tok s)
  end.

(** The values [strptime] finds for a format: the pattern has to match at
    the start and nothing may remain; [None] is the [ValueError]. *)
Definition strptime_values (tokens : list token) (s : string) : option (list Z) :=
  match regex_match tokens s with
  | Some (values, EmptyString) => Some values
  | _ => None
  end.

Definition is_leap (year : Z) : bool :=
  (year mod 4 =? 0) && (negb (year mod 100 =? 0) || (year mod 400 =? 0)).

Definition days_in_month (year month : Z) : Z :=
  match month with
  | 2 => if is_leap year then 29 else 28
  | 4 | 6 | 9 | 11 => 30
  | _ => 31
  end.

(** The checks of [datetime.date(year, month, day)]. *)
Definition date_ok (year month day : Z) : bool :=
  (1 <=? year) && (year <=? 9999) && (1 <=? month) && (month <=? 12)
  && (1 <=? day) && (day <=? days_in_month year month).

(** The checks of [datetime.time(hour, minute, second)]. *)
Definition time_ok (hour minute second : Z) : bool :=
  (hour <=? 23) && (minute <=? 59) && (second <=? 59).

(** [%02d] and [%04d] of a number below 100 and below 10000. *)
Definition pad2 (n : Z) : string :=
  String (digit_char (n / 10)) (String (digit_char (n mod 10)) EmptyString).

Definition pad4 (n : Z) : string :=
  String (digit_char (n / 1000))
    (String (digit_char (n / 100 mod 10)) (pad2 (n mod 100))).

(** [dt.replace(tzinfo=timezone.utc).isoformat()] of a time without
    microseconds *)
Definition isoformat (year month day hour minute second : Z) : string :=
  pad4 year +:+ "-" +:+ pad2 month +:+ "-" +:+ pad2 day +:+ "T"
  +:+ pad2 hour +:+ ":" +:+ pad2 minute +:+ ":" +:+ pad2 second +:+ "+00:00".

(** [convert_gdelt_date_to_iso(gdelt_date)] *)
Definition convert_gdelt_date_to_iso (gdelt_date : string) : string :=
  if truthy gdelt_date && (String.length gdelt_date =? 14)%nat && py_isdigit gdelt_date then
    match strptime_values [token_Y; token_m; token_d; token_H; token_M; token_S]
                          gdelt_date with
    | Some [year; month; day; hour; minute; second] =>
        if date_ok year month day && time_ok hour minute second then
          isoformat year month day hour minute second
        else "N/A"
    | _ => "N/A"
    end
  else "N/A".

(** [dt_obj.strftime('%Y%m%d')]; how a year below 1000 is printed depends
    on the C library (with or without leading zeros, or a [ValueError]) and
    is left to [small_year]. *)
Definition strftime_Ymd (small_year : Z -> option string) (year month day : Z)
  : option string :=
  year_text ← (if 1000 <=? year then Some (pad4 year) else small_year year);
  Some (year_text +:+ pad2 month +:+ pad2 day).

(** [format_datetime(dt_str, default_ts)] *)
Definition format_datetime (small_year : Z -> option string) (dt_str : option string)
    (default_ts : string) : option string :=
  if negb (truthy_opt dt_str) then None
  else
    let dt_str := py_strip (default "" dt_str) in
    if (String.length dt_str =? 14)%nat && py_isdigit dt_str then Some dt_str
    else if (String.length dt_str =? 8)%nat && py_isdigit dt_str then
      Some (dt_str +:+ default_ts)
    else if (String.length dt_str =? 10)%nat
            && contains_char (Ascii.ascii_of_nat 45) dt_str then
      match strptime_values
              [token_Y; token_char (Ascii.ascii_of_nat 45); token_m;
               token_char (Ascii.ascii_of_nat 45); token_d] dt_str with
      | Some [year; _; month; _; day] =>
          if date_ok year month day then
            (fun text => text +:+ default_ts) <$> strftime_Ymd small_year year month day
          else None
      | _ => None
      end
    else None.

(** ** gdelt-news/src/main.py: the GDELT request *)

Definition GDELT_API_BASE_URL : string := "https://api.gdeltproject.org/api/v2/doc/doc".

(** The input of the actor as [Actor.get_input()] gives it, after
    the validation by [InputConfig] accepted it: the keys [build_gdelt_url]
    reads, [None] for a key that is missing or null. *)
Record InputData : Type := {
  query : string;
  source_lang : option string;
  max_records_limit : option Z;
  sort_by : option string;
  timespan_offset : option string;
  start_datetime : option string;
  end_datetime : option string
}.

(** [sub in s] *)
Fixpoint py_in (sub s : string) : bool :=
  String.prefix sub s
  || match s with
     | EmptyString => false
     | String _ s' => py_in sub s'
     end.

(** [s.startswith(c)] and [s.endswith(c)] for a character [c] *)
Definition startswith_char (c : Ascii.ascii) (s : string) : bool :=
  match s with
  | String a _ => Ascii.eqb a c
  | EmptyString => false
  end.

Fixpoint endswith_char (c : Ascii.ascii) (s : string) : bool :=
  match s with
  | EmptyString => false
  | String a EmptyString => Ascii.eqb a c
  | String _ s' => endswith_char c s'
  end.

Definition open_paren : Ascii.ascii := Ascii.ascii_of_nat 40.
Definition close_paren : Ascii.ascii := Ascii.ascii_of_nat 41.

(** The first of the [final_query_parts]: the query, wrapped in parentheses
    when it has several terms and is not wrapped yet. *)
Definition wrapped_query (raw_query : string) : string :=
  if py_in "OR" raw_query || py_in "AND" raw_query then
    if negb (startswith_char open_paren raw_query && endswith_char close_paren raw_query)
    then "(" +:+ raw_query +:+ ")"
    else raw_query
  else raw_query.

Definition final_gdelt_query (input_data : InputData) : string :=
  String.concat " "
    (wrapped_query (query input_data)
     :: (if truthy_opt (source_lang input_data)
         then ["sourcelang:" +:+ default "" (source_lang input_data)]
         else [])).

(** [str(n)] for an integer *)
Definition py_str_int (n : Z) : string := DecimalString.NilZero.string_of_int (Z.to_int n).

(** The dictionary [params], in the order of insertion, with the values as
    [urlencode] prints them. *)
Definition params (small_year : Z -> option string) (input_data : InputData)
  : list (string * string) :=
  [("mode", "artlist"); ("format", "json"); ("query", final_gdelt_query input_data)]
  ++ match max_records_limit input_data with
     | Some limit => if limit =? 0 then [] else [("maxrecords", py_str_int limit)]
     | None => []
     end
  ++ (if truthy_opt (sort_by input_data)
      then [("sort", default "" (sort_by input_data))]
      else [])
  ++ (if truthy_opt (timespan_offset input_data)
      then [("timespan", default "" (timespan_offset input_data))]
      else
        let start_dt := format_datetime small_year (start_datetime input_data) "000000" in
        let end_dt := format_datetime small_year (end_datetime input_data) "235959" in
        (if truthy_opt start_dt then [("startdatetime", default "" start_dt)] else [])
        ++ (if truthy_opt end_dt then [("enddatetime", default "" end_dt)] else [])).

(** *** [urllib.parse.urlencode] *)

(** The characters [quote] never escapes: letters, digits and [_.-~]. *)
Definition always_safe (c : Ascii.ascii) : bool :=
  let n := Ascii.nat_of_ascii c in
  ((65 <=? n)%nat && (n <=? 90)%nat) || ((97 <=? n)%nat && (n <=? 122)%nat)
  || ((48 <=? n)%nat && (n <=? 57)%nat)
  || (n =? 95)%nat || (n =? 46)%nat || (n =? 45)%nat || (n =? 126)%nat.

Definition hex_digit (n : nat) : Ascii.ascii :=
  if (n <? 10)%nat then Ascii.ascii_of_nat (48 + n) else Ascii.ascii_of_nat (55 + n).

(** [%XX] for a byte *)
Definition percent_byte (b : nat) : string :=
  String (Ascii.ascii_of_nat 37)
    (String (hex_digit (b / 16)) (String (hex_digit (b mod 16)) EmptyString)).

(** The UTF-8 bytes of a character below 256. *)
Definition utf8_bytes (c : Ascii.ascii) : list nat :=
  let n := Ascii.nat_of_ascii c in
  if (n <? 128)%nat then [n] else [192 + n / 64; 128 + n mod 64]%nat.

(** [quote_plus(s)]: safe characters stay, a blank becomes a plus sign,
    every other character becomes the escapes of its bytes. *)
Fixpoint quote_plus (s : string) : string :=
  match s with
  | EmptyString => EmptyString
  | String c s' =>
      (if always_safe c then String c EmptyString
       else if Ascii.eqb c (Ascii.ascii_of_nat 32) then "+"
       else String.concat "" (map percent_byte (utf8_bytes c)))
      +:+ quote_plus s'
  end.

(** [urlencode(params)] *)
Definition urlencode (params : list (string * string)) : string :=
  String.concat "&"
    (map (fun kv : string * string => quote_plus kv.1 +:+ "=" +:+ quote_plus kv.2) params).

(** [build_gdelt_url(input_data)] *)
Definition build_gdelt_url (small_year : Z -> option string) (input_data : InputData)
  : string :=
  GDELT_API_BASE_URL +:+ "?" +:+ urlencode (params small_year input_data).

(** ** gdelt-news/src/main.py: the enrichment *)

(** An article of the GDELT answer: the keys [main] reads, [None] for a key
    that is missing. *)
Record Article : Type := {
  g_url : option string;
  g_title : option string;
  g_date : option string;
  g_seendate : option string;
  g_snippet : option string
}.

(** What the request to GDELT and the decoding of its answer yield. *)
Inductive gdelt_answer : Type :=
  | GdeltFails                  (* time-out, client error or error status *)
  | GdeltNotJson                (* [json.JSONDecodeError] *)
  | GdeltNothing                (* a JSON value that is false *)
  | GdeltObject (error : option string) (articles : option (list Article)).

(** What [date_parse(date_str)] yields. *)
Inductive parse_answer : Type :=
  | DateParsed (year month day : Z)
  | DateRejected                (* [ValueError] or [TypeError] *)
  | DateError.                  (* another exception *)

(** A tag of [item['pagemap']['metatags']]: the two keys the search for a
    date reads; [None] for a missing key, [Some None] for a null. *)
Record MetaTag : Type := {
  article_published_time : option (option string);
  og_published_time : option (option string)
}.

(** A result of the search: its metatags, when it has any, and its
    snippet. *)
Record SearchItem : Type := {
  metatags : option (list MetaTag);
  item_snippet : option string
}.

(** What the request of the search for a date and the decoding of its
    answer yield. *)
Inductive date_search_answer : Type :=
  | DateSearchFails             (* an exception *)
  | DateSearchItems (items : list SearchItem).

(** The services [main] reaches; the number is the position of the article
    that is enriched when the service is called. *)
Record EnrichWorld : Type := {
  (** how [strftime] prints a year below 1000 *)
  small_year : Z -> option string;
  (** [session.get(gdelt_url)] and [gdelt_response.json(content_type=None)] *)
  gdelt_get : string -> gdelt_answer;
  (** [urllib.parse.urlparse(url).netloc], [None] when [urlparse] raises *)
  urlparse_netloc : string -> option string;
  (** the search service and the summarising model *)
  search_world : nat -> Gdelt.SearchWorld;
  (** the request of [extract_most_common_date_from_google] *)
  date_search : nat -> string -> date_search_answer;
  (** the text the pattern for dates finds in a snippet, if any *)
  snippet_date_text : string -> option string;
  (** [dateutil.parser.parse] *)
  date_parse : string -> parse_answer;
  (** [datetime.now(timezone.utc).isoformat()] *)
  now_isoformat : nat -> string;
  (** whether [init_openai()] returns a client *)
  openai_client : nat -> bool;
  (** the analysing model call with the reading of its answer *)
  llm_analysis : nat -> string -> Analysis;
  (** the validation of [HttpUrl] *)
  http_url : string -> option string;
  (** whether [Actor.push_data] accepts the record *)
  push_data_ok : nat -> DatasetRecord -> bool
}.

(** The exceptions that reach the handler of [main]. *)
Inductive failure : Type :=
  | NoClient            (* [init_openai()] raised *)
  | RecordRejected      (* [DatasetRecord(...)] raised *)
  | PushFailed.         (* [Actor.push_data] raised *)

Inductive step (A : Type) : Type :=
  | Done (a : A)
  | Fails (f : failure).
Arguments Done {A} a.
Arguments Fails {A} f.

(** [fetch_gdelt_articles(gdelt_url)] *)
Definition fetch_gdelt_articles (W : EnrichWorld) (gdelt_url : string) : list Article :=
  match gdelt_get W gdelt_url with
  | GdeltFails | GdeltNotJson | GdeltNothing => []
  | GdeltObject error articles =>
      if truthy_opt error then [] else default [] articles
  end.

(** [netloc.replace('www.', '')] *)
Fixpoint remove_www (s : string) : string :=
  match s with
  | EmptyString => EmptyString
  | String c1 s1 =>
      match s1 with
      | String c2 (String c3 (String c4 rest)) =>
          if Ascii.eqb c1 (Ascii.ascii_of_nat 119) && Ascii.eqb c2 (Ascii.ascii_of_nat 119)
             && Ascii.eqb c3 (Ascii.ascii_of_nat 119) && Ascii.eqb c4 (Ascii.ascii_of_nat 46)
          then remove_www rest
          else String c1 (remove_www s1)
      | _ => String c1 (remove_www s1)
      end
  end.

(** The source [main] derives from the URL of an article. *)
Definition source_of (W : EnrichWorld) (url : string) : string :=
  match urlparse_netloc W url with
  | Some netloc => if truthy netloc then remove_www netloc else "N/A"
  | None => "N/A"
  end.

(** The loop over the metatags of a result: the value of the first tag
    that has one of the two keys. *)
Fixpoint published_time (tags : list MetaTag) : option string :=
  match tags with
  | [] => None
  | tag :: later =>
      match article_published_time tag with
      | Some value => value
      | None =>
          match og_published_time tag with
          | Some value => value
          | None => published_time later
          end
      end
  end.

(** The text of a date found for a result: the metadata first, then the
    snippet. *)
Definition date_str_of (W : EnrichWorld) (item : SearchItem) : option string :=
  let date_str :=
    match metatags item with
    | Some tags => published_time tags
    | None => None
    end in
  if negb (truthy_opt date_str) then
    match snippet_date_text W (default "" (item_snippet item)) with
    | Some text => Some text
    | None => date_str
    end
  else date_str.

(** [parsed_date.strftime('%Y-%m-%d')] *)
Definition strftime_dashed (small_year : Z -> option string) (year month day : Z)
  : option string :=
  year_text ← (if 1000 <=? year then Some (pad4 year) else small_year year);
  Some (year_text +:+ "-" +:+ pad2 month +:+ "-" +:+ pad2 day).

(** The loop that fills [dates_found]; [None] when an exception other than
    [ValueError] and [TypeError] leaves it. *)
Fixpoint dates_found (W : EnrichWorld) (items : list SearchItem) : option (list string) :=
  match items with
  | [] => Some []
  | item :: later =>
      let date_str := date_str_of W item in
      if truthy_opt date_str then
        match date_parse W (default "" date_str) with
        | DateParsed year month day =>
            match strftime_dashed (small_year W) year month day with
            | Some text => (fun found => text :: found) <$> dates_found W later
            | None => dates_found W later
            end
        | DateRejected => dates_found W later
        | DateError => None
        end
      else dates_found W later
  end.

(** How often [x] occurs in [l]. *)
Definition occurrences (x : string) (l : list string) : nat :=
  length (filter (fun y => y = x) l).

(** The keys of [Counter(l)], in the order of their insertion. *)
Definition counter_keys (l : list string) : list string :=
  foldl (fun keys x => if decide (x ∈ keys) then keys else keys ++ [x]) [] l.

(** [Counter(l).most_common(1)[0][0]]: the first key with the largest
    count; [None] is the [IndexError] of an empty counter. *)
Definition most_common (l : list string) : option string :=
  foldl (fun best x =>
           match best with
           | None => Some x
           | Some b => if (occurrences b l <? occurrences x l)%nat then Some x else best
           end)
        None (counter_keys l).

(** [extract_most_common_date_from_google(query, is_test_mode)] *)
Definition extract_most_common_date_from_google (W : EnrichWorld) (i : nat)
    (query : string) (is_test_mode : bool) : option string :=
  if is_test_mode then Some (now_isoformat W i)
  else if negb (truthy_opt (Gdelt.google_api_key (search_world W i)))
          || negb (truthy_opt (Gdelt.google_cse_id (search_world W i))) then None
  else
    match date_search W i query with
    | DateSearchFails => None
    | DateSearchItems [] => None
    | DateSearchItems items =>
        match dates_found W items with
        | None | Some [] => None
        | Some found =>
            match most_common found with
            | None => None
            | Some most_common_date_str =>
                match strptime_values
                        [token_Y; token_char (Ascii.ascii_of_nat 45); token_m;
                         token_char (Ascii.ascii_of_nat 45); token_d]
                        most_common_date_str with
                | Some [year; _; month; _; day] =>
                    if date_ok year month day then Some (isoformat year month day 0 0 0)
                    else None
                | _ => None
                end
            end
        end
    end.

(** The date of an article: the date GDELT gives when it is a timestamp,
    else the date the search gives, else "N/A". *)
Definition published_of (W : EnrichWorld) (i : nat) (is_test_mode : bool)
    (article_data : Article) (query_for_enrichment : string) : string :=
  let published :=
    let raw_gdelt_date :=
      if truthy_opt (g_date article_data) then g_date article_data
      else g_seendate article_data in
    if truthy_opt raw_gdelt_date then
      let cleaned_date :=
        py_remove_char (Ascii.ascii_of_nat 90)
          (py_remove_char (Ascii.ascii_of_nat 84) (default "" raw_gdelt_date)) in
      let iso_date := convert_gdelt_date_to_iso cleaned_date in
      if negb (String.eqb iso_date "N/A") then iso_date else "N/A"
    else "N/A" in
  if String.eqb published "N/A" then
    match extract_most_common_date_from_google W i query_for_enrichment is_test_mode with
    | Some google_date => if truthy google_date then google_date else "N/A"
    | None => "N/A"
    end
  else published.

(** [analyze_article_summary(summary, is_test_mode)] of the GDELT actor *)
Definition analyze_article_summary (W : EnrichWorld) (i : nat) (summary : string)
    (is_test_mode : bool) : step Analysis :=
  if is_test_mode then
    Done {| a_sentiment := "High Risk (TEST)";
            a_category := "Threat Intelligence (TEST)";
            a_key_entities := [PyStr "Google"; PyStr "OpenAI";
                               PyStr "Geopolitical Group X"] |}
  else if negb (openai_client W i) then Fails NoClient
  else if negb (truthy summary) || (str_len summary <? 20) then
    Done {| a_sentiment := "N/A"; a_category := "N/A"; a_key_entities := [] |}
  else Done (llm_analysis W i summary).

(** Validation of [key_entities: Optional[List[str]]] *)
Fixpoint validate_str_list (l : list pyval) : option (list string) :=
  match l with
  | [] => Some []
  | PyStr s :: rest => (fun r => s :: r) <$> validate_str_list rest
  | PyOther :: _ => None
  end.

(** The body of the enrichment loop up to [DatasetRecord(...)]. *)
Definition enriched_record (W : EnrichWorld) (i : nat) (is_test_mode : bool)
    (article_data : Article) : step DatasetRecord :=
  let url := default "N/A" (g_url article_data) in
  let title := default "Unknown Title" (g_title article_data) in
  let source := source_of W url in
  let query_for_enrichment := title +:+ " " +:+ source in
  let published := published_of W i is_test_mode article_data query_for_enrichment in
  let ai_overview :=
    (Gdelt.fetch_summary_from_google (search_world W i) query_for_enrichment
       is_test_mode).1 in
  let summary_text :=
    if truthy ai_overview then ai_overview
    else default "No summary available." (g_snippet article_data) in
  match (if truthy ai_overview then analyze_article_summary W i ai_overview is_test_mode
         else Done {| a_sentiment := "N/A"; a_category := "N/A";
                      a_key_entities := [] |}) with
  | Fails f => Fails f
  | Done analysis_results =>
      match http_url W url, validate_str_list (a_key_entities analysis_results) with
      | Some valid_url, Some entities =>
          Done {| d_source := Some source;
                  d_title := title;
                  d_url := valid_url;
                  d_published := Some published;
                  d_summary := Some summary_text;
                  d_sentiment := Some (a_sentiment analysis_results);
                  d_category := Some (a_category analysis_results);
                  d_key_entities := Some entities |}
      | _, _ => Fails RecordRejected
      end
  end.

(** How a run of [main] ends. *)
Inductive run_end : Type :=
  | NoArticles                  (* the early [return] *)
  | Completed
  | ActorFailed (f : failure).  (* the handler: [Actor.fail()] *)

(** [for article_data in gdelt_articles], from the article at position [i]
    on: the dataset and the end of the run. *)
Fixpoint enrichment_loop (W : EnrichWorld) (is_test_mode : bool) (i : nat)
    (gdelt_articles : list Article) (dataset : list DatasetRecord)
  : list DatasetRecord * run_end :=
  match gdelt_articles with
  | [] => (dataset, Completed)
  | article_data :: later =>
      match enriched_record W i is_test_mode article_data with
      | Fails f => (dataset, ActorFailed f)
      | Done dataset_record =>
          if push_data_ok W i dataset_record then
            enrichment_loop W is_test_mode (S i) later (dataset ++ [dataset_record])
          else (dataset, ActorFailed PushFailed)
      end
  end.

(** [main()] for an input that [InputConfig] accepts. *)
Definition main (W : EnrichWorld) (input_data : InputData) (runTestMode : bool)
    (dataset : list DatasetRecord) : list DatasetRecord * run_end :=
  let gdelt_url := build_gdelt_url (small_year W) input_data in
  match fetch_gdelt_articles W gdelt_url with
  | [] => (dataset, NoArticles)
  | gdelt_articles => enrichment_loop W runTestMode 0 gdelt_articles dataset
  end.


(** ** Notions used to state the properties of the GDELT actor *)

(** The texts of a date and of a time of day: [YYYYMMDD], [YYYY-MM-DD] and
    [HHMMSS]. *)
Definition compact_date (year month day : Z) : string :=
  pad4 year +:+ pad2 month +:+ pad2 day.

Definition dashed_date (year month day : Z) : string :=
  pad4 year +:+ "-" +:+ pad2 month +:+ "-" +:+ pad2 day.

Definition clock (hour minute second : Z) : string :=
  pad2 hour +:+ pad2 minute +:+ pad2 second.

(** A token that takes two digits, the text of its value, or one
    character. *)
Definition narrow (tok : token) : Prop :=
  ∀ (s : string) (v : Z) (r : string),
    (v, r) ∈ tok s →
    (0 <= v <= 99 ∧ s = pad2 v +:+ r) ∨ (∃ a : Ascii.ascii, s = String a r).

(** How often a character occurs in a text. *)
Fixpoint count_char (c : Ascii.ascii) (s : string) : nat :=
  match s with
  | EmptyString => 0%nat
  | String a s' => ((if Ascii.eqb a c then 1 else 0) + count_char c s')%nat
  end.

(** The characters of an encoded query string apart from the signs that
    separate its parts: the safe characters, the plus and the percent
    sign. *)
Definition encoded_char (c : Ascii.ascii) : bool :=
  always_safe c || Ascii.eqb c (Ascii.ascii_of_nat 43)
  || Ascii.eqb c (Ascii.ascii_of_nat 37).

(** The names [build_gdelt_url] gives to parameters. *)
Definition parameter_names : list string :=
  ["mode"; "format"; "query"; "maxrecords"; "sort"; "timespan"; "startdatetime";
   "enddatetime"].

(** The signs that structure a URL. *)
Definition question_mark : Ascii.ascii := Ascii.ascii_of_nat 63.
Definition equals_sign : Ascii.ascii := Ascii.ascii_of_nat 61.
Definition ampersand : Ascii.ascii := Ascii.ascii_of_nat 38.
Definition hash_sign : Ascii.ascii := Ascii.ascii_of_nat 35.

(** The records are those of the first articles, in order, each accepted by
    the platform; [i] is the position of the first article. *)
Definition pushed_in_order (W : EnrichWorld) (is_test_mode : bool) (i : nat)
    (gdelt_articles : list Article) (records : list DatasetRecord) : Prop :=
  ∀ (j : nat) (record : DatasetRecord),
    records !! j = Some record →
    ∃ article_data : Article,
      gdelt_articles !! j = Some article_data
      ∧ enriched_record W (i + j) is_test_mode article_data = Done record
      ∧ push_data_ok W (i + j) record = true.

(** The article at which a run failed: its record was refused, or the
    platform refused the push. *)
Definition fails_at (W : EnrichWorld) (is_test_mode : bool) (i : nat)
    (article_data : Article) (f : failure) : Prop :=
  enriched_record W i is_test_mode article_data = Fails f
  ∨ ∃ record : DatasetRecord,
      enriched_record W i is_test_mode article_data = Done record
      ∧ push_data_ok W i record = false ∧ f = PushFailed.

(** The record of an article for which no summary was found. *)
Definition plain_record (W : EnrichWorld) (i : nat) (is_test_mode : bool)
    (article_data : Article) (valid_url : string) : DatasetRecord :=
  let title := default "Unknown Title" (g_title article_data) in
  let source := source_of W (default "N/A" (g_url article_data)) in
  {| d_source := Some source;
     d_title := title;
     d_url := valid_url;
     d_published :=
       Some (published_of W i is_test_mode article_data (title +:+ " " +:+ source));
     d_summary := Some (default "No summary available." (g_snippet article_data));
     d_sentiment := Some "N/A";
     d_category := Some "N/A";
     d_key_entities := Some [] |}.

(** The text of a moment as GDELT writes it: [YYYYMMDDTHHMMSSZ]. *)
Definition seen_stamp (year month day hour minute second : Z) : string :=
  compact_date year month day +:+ "T" +:+ clock hour minute second +:+ "Z".

(** A world without settings for the search and without a client for the
    model, in which GDELT answers with two articles. *)
Definition quiet_world : EnrichWorld :=
  {| small_year := fun _ => None;
     gdelt_get := fun _ =>
       GdeltObject None
         (Some [ {| g_url := Some "https://www.example.org/a";
                    g_title := Some "First";
                    g_date := None;
                    g_seendate := Some (seen_stamp 2025 10 16 9 0 0);
                    g_snippet := Some "A snippet." |};
                 {| g_url := Some "https://news.example.org/b";
                    g_title := None;
                    g_date := None;
                    g_seendate := Some "yesterday";
                    g_snippet := None |} ]);
     urlparse_netloc := fun url =>
       if String.eqb url "https://www.example.org/a" then Some "www.example.org"
       else Some "news.example.org";
     search_world := fun _ =>
       {| Gdelt.google_api_key := None;
          Gdelt.google_cse_id := None;
          Gdelt.http_get := fun _ _ => Gdelt.RequestFails;
          Gdelt.raise_for_status := fun _ => false;
          Gdelt.llm_summary := fun _ => "" |};
     date_search := fun _ _ => DateSearchFails;
     snippet_date_text := fun _ => None;
     date_parse := fun _ => DateRejected;
     now_isoformat := fun _ => "2025-10-17T08:00:00+00:00";
     openai_client := fun _ => false;
     llm_analysis := fun _ _ =>
       {| a_sentiment := "Error"; a_category := "Error"; a_key_entities := [] |};
     http_url := fun url => if String.prefix "https://" url then Some url else None;
     push_data_ok := fun _ _ => true |}.

(** Three results of a search for a date: two carry the same day in their
    metadata, one carries another day in its snippet. *)
Definition dated_items : list SearchItem :=
  [ {| metatags := Some [ {| article_published_time := None;
                             og_published_time := None |};
                          {| article_published_time := Some (Some "2025-10-15T21:30:00Z");
                             og_published_time := None |} ];
       item_snippet := Some "Oct 16, 2025 ... a snippet" |};
    {| metatags := None; item_snippet := Some "Oct 16, 2025 ... another snippet" |};
    {| metatags := Some [ {| article_published_time := None;
                             og_published_time := Some (Some "2025-10-16") |} ];
       item_snippet := None |} ].

(** A world with the settings of the search, in which the search for a
    date answers with [dated_items]. *)
Definition dated_world : EnrichWorld :=
  {| small_year := fun _ => None;
     gdelt_get := fun _ => GdeltFails;
     urlparse_netloc := fun _ => None;
     search_world := fun _ =>
       {| Gdelt.google_api_key := Some "key";
          Gdelt.google_cse_id := Some "cse";
          Gdelt.http_get := fun _ _ => Gdelt.RequestFails;
          Gdelt.raise_for_status := fun _ => false;
          Gdelt.llm_summary := fun _ => "" |};
     date_search := fun _ _ => DateSearchItems dated_items;
     snippet_date_text := fun snippet =>
       if String.prefix "Oct 16, 2025" snippet then Some "Oct 16, 2025" else None;
     date_parse := fun text =>
       if String.eqb text "2025-10-15T21:30:00Z" then DateParsed 2025 10 15
       else if String.eqb text "Oct 16, 2025" then DateParsed 2025 10 16
       else if String.eqb text "2025-10-16" then DateParsed 2025 10 16
       else DateRejected;
     now_isoformat := fun _ => "2025-10-17T08:00:00+00:00";
     openai_client := fun _ => false;
     llm_analysis := fun _ _ =>
       {| a_sentiment := "Error"; a_category := "Error"; a_key_entities := [] |};
     http_url := fun url => if String.prefix "https://" url then Some url else None;
     push_data_ok := fun _ _ => true |}.

Definition example_input : InputData :=
  {| query := "cyber OR attack";
     source_lang := Some "english";
     max_records_limit := Some 10;
     sort_by := None;
     timespan_offset := None;
     start_datetime := Some "2025-10-01";
     end_datetime := Some "20251016" |}.

End GdeltMain.

(** * Proofs *)

(** ** The index bookkeeping of a pass *)

Lemma insert_desc_above (x : nat) (l : list nat) :
  Forall (fun y => (x < y)%nat) l → insert_desc x l = l ++ [x].
Proof.
  induction 1 as [|y l Hy _ IH]; simpl; [done|].
  destruct (Nat.ltb_spec y x); [lia|]. by rewrite IH.
Qed.

Lemma flagged_lower (i : nat) (marks : list bool) :
  Forall (fun j => (i <= j)%nat) (flagged i marks).
Proof.
  revert i. induction marks as [|[] marks IH]; intros i; simpl.
  - constructor.
  - constructor; [lia|]. eapply Forall_impl; [apply IH|]. simpl. lia.
  - eapply Forall_impl; [apply IH|]. simpl. lia.
Qed.

Lemma sorted_reverse_flagged (i : nat) (marks : list bool) :
  sorted_reverse (flagged i marks) = reverse (flagged i marks).
Proof.
  revert i. induction marks as [|[] marks IH]; intros i; simpl; [done| |by apply IH].
  unfold sorted_reverse in *. simpl. rewrite IH, reverse_cons.
  apply insert_desc_above. apply Forall_reverse.
  eapply Forall_impl; [apply flagged_lower|]. simpl. lia.
Qed.

Lemma pop_each_app {A} (xs ys : list nat) (l : list A) :
  pop_each (xs ++ ys) l = pop_each xs l ≫= pop_each ys.
Proof.
  revert l. induction xs as [|x xs IH]; intros l; simpl; [done|].
  unfold pop. destruct (x <? length l)%nat; simpl; [apply IH|done].
Qed.

Lemma pop_middle {A} (pre : list A) (x : A) (post : list A) :
  pop (length pre) (pre ++ x :: post) = Returns (pre ++ post).
Proof.
  unfold pop. rewrite length_app. simpl.
  destruct (Nat.ltb_spec (length pre) (length pre + S (length post))); [|lia].
  by rewrite delete_middle.
Qed.

Lemma pop_each_flagged {A} (marks : list bool) (pre l : list A) :
  length marks = length l →
  pop_each (reverse (flagged (length pre) marks)) (pre ++ l)
  = Returns (pre ++ unflagged marks l).
Proof.
  revert pre l. induction marks as [|b marks IH]; intros pre [|x l] Hlen;
    simpl in *; try discriminate; [done|].
  injection Hlen as Hlen.
  specialize (IH (pre ++ [x]) l Hlen).
  rewrite length_app in IH. simpl in IH.
  replace (length pre + 1)%nat with (S (length pre)) in IH by lia.
  rewrite <- !(assoc_L (++)) in IH. simpl in IH.
  destruct b; simpl; [|done].
  rewrite reverse_cons, pop_each_app, IH. simpl.
  by rewrite pop_middle.
Qed.

Lemma unflagged_none {A} (l : list A) :
  unflagged (replicate (length l) false) l = l.
Proof. induction l; simpl; by f_equal. Qed.

Lemma flagged_none (i n : nat) : flagged i (replicate n false) = [].
Proof. revert i. induction n; intros; simpl; auto. Qed.

Lemma for_feeds_sweep (W : World) (max_articles : Z) (feeds : list feed) :
  ∀ (i : nat) (arts : list RSSFeed) (rm : list nat),
  ∃ (marks : list bool) (feeds' : list feed),
    for_feeds W max_articles i feeds arts rm
    = (feeds', (sweep W max_articles feeds arts).2, rm ++ flagged i marks)
    ∧ length marks = length feeds'
    ∧ unflagged marks feeds' = (sweep W max_articles feeds arts).1.
Proof.
  induction feeds as [|[it t] rest IH]; intros i arts rm.
  - exists [], []. simpl. by rewrite (right_id_L [] (++)).
  - simpl. destruct (max_articles <=? len arts).
    { exists (replicate (S (length rest)) false), ((it, t) :: rest).
      rewrite flagged_none, (right_id_L [] (++)). split; [done|].
      split; [by rewrite length_replicate|]. simpl. by rewrite unflagged_none. }
    destruct it as [|e later].
    { destruct (IH (S i) arts (rm ++ [i])) as (marks & fs & -> & Hlen & Hun).
      exists (true :: marks), (([], t) :: fs). simpl.
      rewrite <- (assoc_L (++)). simpl. by rewrite Hlen. }
    destruct (RSSFeed_of_entry W e t) as [a|].
    { destruct (IH (S i) (arts ++ [a]) rm) as (marks & fs & -> & Hlen & Hun).
      exists (false :: marks), ((later, t) :: fs). simpl.
      destruct (sweep W max_articles rest (arts ++ [a])) as [r' a'] eqn:Hs.
      simpl in *. by rewrite Hlen, Hun. }
    destruct (IH (S i) arts (rm ++ [i])) as (marks & fs & -> & Hlen & Hun).
    exists (true :: marks), ((later, t) :: fs). simpl.
    rewrite <- (assoc_L (++)). simpl. by rewrite Hlen.
Qed.

Lemma while_body_sweep (W : World) (max_articles : Z)
    (arts : list RSSFeed) (feeds : list feed) :
  while_body W max_articles arts feeds
  = Returns ((sweep W max_articles feeds arts).2, (sweep W max_articles feeds arts).1).
Proof.
  unfold while_body.
  destruct (for_feeds_sweep W max_articles feeds 0%nat arts [])
    as (marks & fs & -> & Hlen & Hun).
  simpl. rewrite sorted_reverse_flagged.
  pose proof (pop_each_flagged marks [] fs Hlen) as Hpop. simpl in Hpop.
  rewrite Hpop. simpl. by rewrite Hun.
Qed.

(** ** One pass in terms of the readable articles *)

Lemma readable_feed_advance (W : World) (f f' : feed) :
  advance W f = Some f' → behead (readable_feed W f) = Some (readable_feed W f').
Proof.
  destruct f as [[|e later] t]; unfold advance, readable_feed; simpl; [done|].
  destruct (RSSFeed_of_entry W e t); [|done]. by intros [= <-].
Qed.

Lemma readable_feed_stuck (W : World) (f : feed) :
  advance W f = None → readable_feed W f = [].
Proof.
  destruct f as [[|e later] t]; unfold advance, readable_feed; simpl; [done|].
  by destruct (RSSFeed_of_entry W e t).
Qed.

Lemma readable_omap_advance (W : World) (feeds : list feed) :
  map (readable_feed W) (omap (advance W) feeds)
  = omap behead (map (readable_feed W) feeds).
Proof.
  induction feeds as [|f feeds IH]; simpl; [done|].
  destruct (advance W f) as [f'|] eqn:Hf.
  - apply readable_feed_advance in Hf. rewrite Hf. simpl. f_equal. apply IH.
  - apply readable_feed_stuck in Hf. rewrite Hf. simpl. apply IH.
Qed.

Lemma sweep_articles (W : World) (max_articles : Z) (feeds : list feed) :
  ∀ arts : list RSSFeed,
  (sweep W max_articles feeds arts).2
  = arts ++ take (Z.to_nat (max_articles - len arts))
                 (cycle 0 (map (readable_feed W) feeds)).
Proof.
  induction feeds as [|[it t] rest IH]; intros arts; simpl.
  { unfold cycle. simpl. rewrite take_nil. by rewrite app_nil_r. }
  destruct (Z.leb_spec max_articles (len arts)) as [Hle|Hlt].
  { replace (Z.to_nat (max_articles - len arts)) with 0%nat by lia.
    simpl. by rewrite app_nil_r. }
  unfold cycle, readable_feed in *. simpl.
  destruct it as [|e later]; simpl; [apply IH|].
  destruct (RSSFeed_of_entry W e t) as [a|]; simpl; [|apply IH].
  destruct (sweep W max_articles rest (arts ++ [a])) as [r' a'] eqn:Hs.
  specialize (IH (arts ++ [a])). rewrite Hs in IH. simpl in *. rewrite IH.
  unfold len in *. rewrite length_app. simpl.
  replace (Z.to_nat (max_articles - Z.of_nat (length arts)))
    with (S (Z.to_nat (max_articles - Z.of_nat (length arts + 1)))) by lia.
  simpl. by rewrite <- (assoc_L (++)).
Qed.

Lemma len_nonneg {A} (l : list A) : 0 <= len l.
Proof. unfold len. lia. Qed.

Lemma len_app {A} (l k : list A) : len (l ++ k) = len l + len k.
Proof. unfold len. rewrite length_app. lia. Qed.

Lemma len_cons {A} (x : A) (l : list A) : len (x :: l) = 1 + len l.
Proof. unfold len. simpl length. lia. Qed.

Lemma cycle_cons_nil {A} (L : list (list A)) : cycle 0 ([] :: L) = cycle 0 L.
Proof. done. Qed.

Lemma cycle_cons_cons {A} (x : A) (l : list A) (L : list (list A)) :
  cycle 0 ((x :: l) :: L) = x :: cycle 0 L.
Proof. done. Qed.

Lemma sweep_feeds (W : World) (max_articles : Z) (feeds : list feed) :
  ∀ arts : list RSSFeed,
  len arts + len (cycle 0 (map (readable_feed W) feeds)) < max_articles →
  (sweep W max_articles feeds arts).1 = omap (advance W) feeds.
Proof.
  induction feeds as [|[it t] rest IH]; intros arts Hlt; [done|].
  match type of Hlt with _ + len ?l < _ => pose proof (len_nonneg l) as H0 end.
  cbn [sweep].
  destruct (Z.leb_spec max_articles (len arts)) as [Hle|_]; [lia|].
  clear H0. unfold advance at 1. cbn [omap list_omap fst snd].
  cbn [map] in Hlt. unfold readable_feed at 1 in Hlt. cbn [fst snd] in Hlt.
  destruct it as [|e later]; cbn [readable] in Hlt.
  { rewrite cycle_cons_nil in Hlt. by apply IH. }
  destruct (RSSFeed_of_entry W e t) as [a|].
  2:{ rewrite cycle_cons_nil in Hlt. by apply IH. }
  rewrite cycle_cons_cons, len_cons in Hlt.
  specialize (IH (arts ++ [a])).
  destruct (sweep W max_articles rest (arts ++ [a])) as [r' a'] eqn:Hs.
  cbn [fst] in *. rewrite IH; [done|].
  rewrite len_app, len_cons. unfold len at 2. simpl. lia.
Qed.

Lemma sweep_weight_le (W : World) (max_articles : Z) (feeds : list feed) :
  ∀ arts : list RSSFeed,
  (live_weight (sweep W max_articles feeds arts).1 <= live_weight feeds)%nat.
Proof.
  induction feeds as [|[it t] rest IH]; intros arts; simpl; [done|].
  destruct (max_articles <=? len arts); [done|].
  unfold live_weight in *. simpl.
  destruct it as [|e later]; simpl.
  { specialize (IH arts). lia. }
  destruct (RSSFeed_of_entry W e t) as [a|].
  - specialize (IH (arts ++ [a])).
    destruct (sweep W max_articles rest (arts ++ [a])) as [r' a']. simpl in *. lia.
  - specialize (IH arts). lia.
Qed.

Lemma sweep_weight_lt (W : World) (max_articles : Z) (feeds : list feed)
    (arts : list RSSFeed) :
  len arts < max_articles → feeds ≠ [] →
  (live_weight (sweep W max_articles feeds arts).1 < live_weight feeds)%nat.
Proof.
  intros Hlt Hne. destruct feeds as [|[it t] rest]; [done|]. simpl.
  destruct (Z.leb_spec max_articles (len arts)) as [Hle|_]; [lia|].
  unfold live_weight. simpl.
  destruct it as [|e later]; simpl.
  { pose proof (sweep_weight_le W max_articles rest arts). unfold live_weight in *. lia. }
  destruct (RSSFeed_of_entry W e t) as [a|].
  - pose proof (sweep_weight_le W max_articles rest (arts ++ [a])) as Hw.
    destruct (sweep W max_articles rest (arts ++ [a])) as [r' a'].
    unfold live_weight in *. simpl in *. lia.
  - pose proof (sweep_weight_le W max_articles rest arts). unfold live_weight in *. lia.
Qed.

Lemma sweep_titles (W : World) (max_articles : Z) (feeds : list feed) :
  ∀ arts : list RSSFeed,
  map snd (sweep W max_articles feeds arts).1 `sublist_of` map snd feeds.
Proof.
  induction feeds as [|[it t] rest IH]; intros arts; simpl; [done|].
  destruct (max_articles <=? len arts); [done|].
  destruct it as [|e later]; simpl.
  { by apply sublist_cons. }
  destruct (RSSFeed_of_entry W e t) as [a|].
  - specialize (IH (arts ++ [a])).
    destruct (sweep W max_articles rest (arts ++ [a])) as [r' a']. simpl in *.
    by apply sublist_skip.
  - by apply sublist_cons.
Qed.

(** ** Round-robin order *)

Section RoundRobin.
Context {A : Type}.
Implicit Types (l : list A) (L : list (list A)).

Lemma cycle_succ k L : cycle (S k) L = cycle k (omap behead L).
Proof.
  unfold cycle. induction L as [|[|x l] L IH]; simpl; [done|apply IH|].
  destruct (l !! k); [f_equal|]; apply IH.
Qed.

Lemma longest_behead L :
  max_list (map length (omap behead L)) = pred (max_list (map length L)).
Proof.
  induction L as [|[|x l] L IH]; simpl; [done|apply IH|].
  change (list_omap _ _ behead L) with (omap behead L). rewrite IH. lia.
Qed.

Lemma longest_zero L :
  max_list (map length L) = 0%nat → cycle 0 L = [] ∧ omap behead L = [].
Proof.
  unfold cycle. induction L as [|[|x l] L IH]; simpl; [done|apply IH|lia].
Qed.

Lemma round_robin_unfold L :
  round_robin L = cycle 0 L ++ round_robin (omap behead L).
Proof.
  unfold round_robin at 1. destruct (max_list (map length L)) as [|m] eqn:Hm.
  - apply longest_zero in Hm as [-> ->]. done.
  - simpl. f_equal. unfold round_robin. rewrite longest_behead, Hm. simpl.
    rewrite <- fmap_S_seq. rewrite <- list_fmap_compose. f_equal.
    apply list_fmap_ext. intros _ k _. simpl. apply cycle_succ.
Qed.

Lemma cycle_behead_perm L : cycle 0 L ++ concat (omap behead L) ≡ₚ concat L.
Proof.
  unfold cycle. induction L as [|[|x l] L IH]; simpl; [done|apply IH|].
  constructor. rewrite <- IH. by rewrite Permutation_app_swap_app.
Qed.

Lemma round_robin_perm L : round_robin L ≡ₚ concat L.
Proof.
  remember (max_list (map length L)) as m eqn:Hm. revert L Hm.
  induction m as [|m IH]; intros L Hm.
  - symmetry in Hm. unfold round_robin. rewrite <- Hm. simpl.
    apply longest_zero in Hm as [_ Hm].
    clear -Hm. induction L as [|[|x l] L IH]; simpl in *; [done|by apply IH|done].
  - rewrite round_robin_unfold, <- cycle_behead_perm.
    f_equiv. apply IH. rewrite longest_behead. lia.
Qed.

Lemma round_robin_nil : round_robin (@nil (list A)) = [].
Proof. done. Qed.
End RoundRobin.

(** ** The collection loop *)

Lemma while_loop_unfold (W : World) (fuel : nat) (max_articles : Z)
    (arts : list RSSFeed) (feeds : list feed) :
  while_loop W (S fuel) max_articles arts feeds
  = if (len arts <? max_articles) && negb (bool_decide (feeds = [])) then
      while_loop W fuel max_articles (sweep W max_articles feeds arts).2
                 (sweep W max_articles feeds arts).1
    else Returns (arts, feeds).
Proof. simpl. rewrite while_body_sweep. done. Qed.

Lemma while_loop_no_feeds (W : World) (fuel : nat) (max_articles : Z)
    (arts : list RSSFeed) :
  while_loop W fuel max_articles arts [] = Returns (arts, []).
Proof. destruct fuel; simpl; by rewrite andb_false_r. Qed.

Lemma while_loop_round_robin (W : World) (max_articles : Z) (fuel : nat) :
  ∀ (feeds : list feed) (arts : list RSSFeed),
  (live_weight feeds <= fuel)%nat →
  ∃ final : list feed,
    while_loop W fuel max_articles arts feeds
    = Returns (arts ++ take (Z.to_nat (max_articles - len arts))
                            (round_robin (map (readable_feed W) feeds)), final)
    ∧ map snd final `sublist_of` map snd feeds
    ∧ (max_articles <= len arts + len (round_robin (map (readable_feed W) feeds))
       ∨ final = []).
Proof.
  induction fuel as [|fuel IH]; intros feeds arts Hfuel.
  - destruct feeds as [|f feeds]; [|unfold live_weight in Hfuel; simpl in Hfuel; lia].
    exists []. rewrite while_loop_no_feeds. cbn [map].
    rewrite round_robin_nil, take_nil, app_nil_r. auto.
  - rewrite while_loop_unfold.
    destruct (Z.ltb_spec (len arts) max_articles) as [Hlt|Hge]; simpl.
    2:{ exists feeds. replace (Z.to_nat (max_articles - len arts)) with 0%nat by lia.
        rewrite take_0, app_nil_r. split; [done|]. split; [done|].
        left. pose proof (len_nonneg (round_robin (map (readable_feed W) feeds))). lia. }
    destruct feeds as [|f feeds].
    { exists []. cbn [map]. rewrite round_robin_nil, take_nil, app_nil_r. auto. }
    rewrite bool_decide_eq_false_2 by done. simpl negb. cbv iota.
    set (fs := f :: feeds) in *.
    pose proof (sweep_weight_lt W max_articles fs arts Hlt ltac:(done)) as Hw.
    pose proof (sweep_titles W max_articles fs arts) as Ht.
    pose proof (sweep_articles W max_articles fs arts) as Ha.
    destruct (IH (sweep W max_articles fs arts).1 (sweep W max_articles fs arts).2
                ltac:(lia)) as (final & -> & Hsub & Hend).
    exists final.
    rewrite (round_robin_unfold (map (readable_feed W) fs)).
    set (c := cycle 0 (map (readable_feed W) fs)) in *.
    destruct (Z.ltb_spec (len arts + len c) max_articles) as [Hroom|Hfull].
    + pose proof (sweep_feeds W max_articles fs arts Hroom) as Hf.
      rewrite Hf in *. rewrite readable_omap_advance in *.
      rewrite Ha in *.
      assert (take (Z.to_nat (max_articles - len arts)) c = c) as Hc
        by (apply take_ge; unfold len in *; lia).
      rewrite Hc in *.
      split; [|split].
      * f_equal. f_equal. rewrite <- (assoc_L (++)). f_equal.
        rewrite take_app_ge by (unfold len in *; lia). f_equal. f_equal.
        unfold len in *. rewrite length_app. lia.
      * etrans; [exact Hsub|exact Ht].
      * destruct Hend as [Hend|Hend]; [left|by right].
        unfold len in *. rewrite !length_app in *. lia.
    + rewrite Ha in *.
      assert (length (take (Z.to_nat (max_articles - len arts)) c)
              = Z.to_nat (max_articles - len arts)) as Hlen
        by (rewrite length_take; unfold len in *; lia).
      split; [|split].
      * f_equal. f_equal.
        rewrite take_app_le by (unfold len in *; lia).
        replace (Z.to_nat (max_articles
                           - len (arts ++ take (Z.to_nat (max_articles - len arts)) c)))
          with 0%nat by (unfold len in *; rewrite length_app; lia).
        by rewrite take_0, app_nil_r.
      * etrans; [exact Hsub|exact Ht].
      * left. unfold len in *. rewrite !length_app. lia.
Qed.

(** ** The single-feed branch and the whole collection *)

Lemma single_feed_returns (W : World) (max_articles : Z) (t : string)
    (it : list FeedEntry) :
  ∀ (i : nat) (arts : list RSSFeed),
  max_articles - Z.of_nat i <= len (readable W it t)
  ∨ length (readable W it t) = length it →
  single_feed W max_articles i it t arts
  = Returns (arts ++ take (Z.to_nat (max_articles - Z.of_nat i)) (readable W it t)).
Proof.
  induction it as [|e later IH]; intros i arts Hok; simpl.
  { by rewrite take_nil, app_nil_r. }
  destruct (Z.leb_spec max_articles (Z.of_nat i)) as [Hle|Hlt].
  { replace (Z.to_nat (max_articles - Z.of_nat i)) with 0%nat by lia.
    by rewrite take_0, app_nil_r. }
  simpl in Hok. destruct (RSSFeed_of_entry W e t) as [a|].
  - rewrite IH.
    + replace (Z.to_nat (max_articles - Z.of_nat i))
        with (S (Z.to_nat (max_articles - Z.of_nat (S i)))) by lia.
      simpl. by rewrite <- (assoc_L (++)).
    + destruct Hok as [Hok|Hok]; [left|right].
      * rewrite len_cons in Hok. lia.
      * simpl in Hok. lia.
  - destruct Hok as [Hok|Hok]; [|done]. unfold len in Hok. simpl in Hok. lia.
Qed.

Lemma single_feed_inv (W : World) (max_articles : Z) (t : string)
    (it : list FeedEntry) :
  ∀ (i : nat) (arts out : list RSSFeed),
  single_feed W max_articles i it t arts = Returns out →
  out = arts ++ take (Z.to_nat (max_articles - Z.of_nat i)) (readable W it t).
Proof.
  induction it as [|e later IH]; intros i arts out; simpl.
  { intros [= <-]. by rewrite take_nil, app_nil_r. }
  destruct (Z.leb_spec max_articles (Z.of_nat i)) as [Hle|Hlt].
  { intros [= <-]. replace (Z.to_nat (max_articles - Z.of_nat i)) with 0%nat by lia.
    by rewrite take_0, app_nil_r. }
  destruct (RSSFeed_of_entry W e t) as [a|]; [|done].
  intros Hout. apply IH in Hout as ->.
  replace (Z.to_nat (max_articles - Z.of_nat i))
    with (S (Z.to_nat (max_articles - Z.of_nat (S i)))) by lia.
  simpl. by rewrite <- (assoc_L (++)).
Qed.

Lemma round_robin_single {A} (l : list A) : round_robin [l] = l.
Proof.
  induction l as [|x l IH]; [done|].
  rewrite round_robin_unfold. simpl. by rewrite IH.
Qed.


Lemma enough_passes_weight (feeds : list feed) :
  (live_weight feeds <= enough_passes feeds)%nat.
Proof. unfold enough_passes, live_weight. lia. Qed.

Lemma len_two {A} (l : list A) : 1 < len l ↔ ∃ x y l', l = x :: y :: l'.
Proof.
  unfold len. split.
  - destruct l as [|x [|y l']]; simpl; try lia. eauto.
  - intros (x & y & l' & ->). simpl. lia.
Qed.

(** With at least two live feeds and the source "all", the collection is
    the round-robin order of the readable articles cut at the quota. *)
Lemma collect_many (W : World) (max_articles : Z) (feeds : list feed) :
  1 < len feeds →
  collect W "all" max_articles feeds
  = Returns (take (Z.to_nat max_articles)
                  (round_robin (map (readable_feed W) feeds))).
Proof.
  intros Hmany. unfold collect.
  destruct (Z.ltb_spec 1 (len feeds)) as [_|]; [|lia].
  rewrite String.eqb_refl. cbn [andb].
  destruct (while_loop_round_robin W max_articles (enough_passes feeds) feeds []
              (enough_passes_weight feeds)) as (final & -> & _).
  cbn [mbind outcome_bind fst app]. do 3 f_equal. unfold len. simpl. lia.
Qed.

(** Whatever the branch, what the collection returns is cut from the
    round-robin order of the readable articles. *)
Lemma collect_inv (W : World) (source : string) (max_articles : Z)
    (feeds : list feed) (out : list RSSFeed) :
  collect W source max_articles feeds = Returns out →
  out = [] ∨ out = take (Z.to_nat max_articles)
                        (round_robin (map (readable_feed W) feeds)).
Proof.
  unfold collect.
  destruct (Z.ltb_spec 1 (len feeds)) as [Hmany|Hfew]; cbn [andb].
  - destruct (String.eqb_spec source "all") as [->|Hne].
    + pose proof (collect_many W max_articles feeds Hmany) as Hc.
      unfold collect in Hc.
      destruct (Z.ltb_spec 1 (len feeds)); [|lia].
      rewrite String.eqb_refl in Hc. cbn [andb] in Hc.
      rewrite Hc. intros [= <-]. by right.
    + destruct (Z.eqb_spec (len feeds) 1); [lia|]. intros [= <-]. by left.
  - destruct (Z.eqb_spec (len feeds) 1) as [Hone|Hnone].
    + destruct feeds as [|[it t] [|f feeds]]; try (unfold len in Hone; simpl in Hone; lia).
      intros Hout. apply single_feed_inv in Hout as ->. right. simpl.
      rewrite round_robin_single. unfold readable_feed. simpl.
      do 2 f_equal. lia.
    + intros [= <-]. by left.
Qed.

Lemma collect_length (W : World) (source : string) (max_articles : Z)
    (feeds : list feed) (out : list RSSFeed) :
  collect W source max_articles feeds = Returns out →
  len out <= Z.max 0 max_articles.
Proof.
  intros [->| ->]%collect_inv; unfold len; simpl; [lia|].
  rewrite length_take. lia.
Qed.

Lemma collect_submseteq (W : World) (source : string) (max_articles : Z)
    (feeds : list feed) (out : list RSSFeed) :
  collect W source max_articles feeds = Returns out →
  out ⊆+ concat (map (readable_feed W) feeds).
Proof.
  intros [->| ->]%collect_inv.
  - apply submseteq_nil_l.
  - rewrite <- round_robin_perm. apply sublist_submseteq, sublist_take.
Qed.

Lemma readable_source (W : World) (t : string) (it : list FeedEntry) :
  Forall (fun a => source a = Some t) (readable W it t).
Proof.
  induction it as [|e later IH]; simpl; [constructor|].
  unfold RSSFeed_of_entry.
  destruct (http_url W (default "" (entry_link e))); constructor; [done|apply IH].
Qed.

(** ** Counting the articles of a source *)

Lemma contribution_nil (t : string) : contribution t [] = 0.
Proof. done. Qed.

Lemma contribution_app (t : string) (l k : list RSSFeed) :
  contribution t (l ++ k) = contribution t l + contribution t k.
Proof. unfold contribution. by rewrite filter_app, len_app. Qed.

Lemma contribution_nonneg (t : string) (l : list RSSFeed) : 0 <= contribution t l.
Proof. apply len_nonneg. Qed.








(** ** The articles of one source within the round-robin order *)

Lemma cycle_cons {A} (k : nat) (l : list A) (L : list (list A)) :
  cycle k (l :: L) = option_list (l !! k) ++ cycle k L.
Proof. unfold cycle. cbn [omap list_omap]. by destruct (l !! k). Qed.

Lemma cycle_sources (W : World) (k : nat) (feeds : list feed) (a : RSSFeed) :
  a ∈ cycle k (map (readable_feed W) feeds) → ∃ g, g ∈ feeds ∧ source a = Some g.2.
Proof.
  induction feeds as [|g feeds IH]; [by intros ?%elem_of_nil|].
  cbn [map]. rewrite cycle_cons. intros [Ha|Ha]%elem_of_app.
  - exists g. split; [left|].
    destruct (readable_feed W g !! k) as [b|] eqn:Hb; [|by apply elem_of_nil in Ha].
    apply list_elem_of_singleton in Ha as ->.
    pose proof (readable_source W g.2 g.1) as Hall. rewrite Forall_forall in Hall.
    apply Hall. eapply list_elem_of_lookup_2, Hb.
  - destruct (IH Ha) as (g' & Hg' & Hsrc). exists g'. split; [by right|done].
Qed.

Lemma filter_none {A} (P : A → Prop) `{!∀ x, Decision (P x)} (l : list A) :
  (∀ x, x ∈ l → ¬ P x) → filter P l = [].
Proof.
  induction l as [|x l IH]; intros Hl; [done|].
  rewrite filter_cons, decide_False by (apply Hl; left).
  apply IH. intros y Hy. apply Hl. by right.
Qed.

Lemma filter_every {A} (P : A → Prop) `{!∀ x, Decision (P x)} (l : list A) :
  (∀ x, x ∈ l → P x) → filter P l = l.
Proof.
  induction l as [|x l IH]; intros Hl; [done|].
  rewrite filter_cons, decide_True by (apply Hl; left).
  f_equal. apply IH. intros y Hy. apply Hl. by right.
Qed.

Lemma filter_cycle (W : World) (k : nat) (feeds : list feed) (f : feed) :
  NoDup (map snd feeds) → f ∈ feeds →
  filter (fun a => source a = Some f.2) (cycle k (map (readable_feed W) feeds))
  = option_list (readable_feed W f !! k).
Proof.
  induction feeds as [|g feeds IH]; [by intros _ ?%elem_of_nil|].
  cbn [map]. intros [Hg Hnd]%NoDup_cons Hf. rewrite cycle_cons, filter_app.
  assert (∀ h, h ∈ feeds → h.2 ≠ g.2) as Hother.
  { intros h Hh Heq. apply Hg. rewrite <- Heq.
    change (map snd feeds) with (snd <$> feeds). apply list_elem_of_fmap. eauto. }
  assert (∀ a, a ∈ option_list (readable_feed W g !! k) → source a = Some g.2) as Hown.
  { intros a Ha.
    destruct (readable_feed W g !! k) as [b|] eqn:Hb; [|by apply elem_of_nil in Ha].
    apply list_elem_of_singleton in Ha as ->.
    pose proof (readable_source W g.2 g.1) as Hall. rewrite Forall_forall in Hall.
    apply Hall. eapply list_elem_of_lookup_2, Hb. }
  apply elem_of_cons in Hf as [->|Hf].
  - rewrite (filter_every _ _ Hown), filter_none, app_nil_r; [done|].
    intros a (h & Hh & Hsrc)%cycle_sources Ha. rewrite Hsrc in Ha.
    injection Ha as Ha. by apply (Hother h).
  - rewrite (filter_none _ (option_list _)); [by rewrite IH|].
    intros a Ha%Hown Hsrc. rewrite Ha in Hsrc. injection Hsrc as Hsrc.
    by apply (Hother f).
Qed.

Lemma filter_concat {A} (P : A → Prop) `{!∀ x, Decision (P x)} (B : list (list A)) :
  filter P (concat B) = concat (map (filter P) B).
Proof.
  induction B as [|b B IH]; [done|]. simpl. by rewrite filter_app, IH.
Qed.

Lemma concat_option_list_seq {A} (M : nat) :
  ∀ l : list A, (length l <= M)%nat →
  concat (map (fun k => option_list (l !! k)) (seq 0 M)) = l.
Proof.
  induction M as [|M IH]; intros l Hl.
  - destruct l; [done|simpl in Hl; lia].
  - cbn [seq map concat]. rewrite <- seq_shift, map_map.
    destruct l as [|x l]; simpl.
    + apply (IH []). simpl. lia.
    + f_equal. apply IH. simpl in Hl. lia.
Qed.

(** The articles of one source appear in the round-robin order as they are
    in its feed. *)
Lemma filter_round_robin (W : World) (feeds : list feed) (f : feed) :
  NoDup (map snd feeds) → f ∈ feeds →
  filter (fun a => source a = Some f.2) (round_robin (map (readable_feed W) feeds))
  = readable_feed W f.
Proof.
  intros Hnd Hf. unfold round_robin. rewrite filter_concat, map_map.
  erewrite map_ext; [|intros k; by apply filter_cycle].
  apply concat_option_list_seq. apply max_list_elem_of_le.
  change (map ?g ?l) with (g <$> l). apply list_elem_of_fmap.
  exists (readable_feed W f). split; [done|]. apply list_elem_of_fmap. eauto.
Qed.

Lemma filter_take_prefix {A} (P : A → Prop) `{!∀ x, Decision (P x)} (n : nat)
    (l : list A) :
  filter P (take n l) `prefix_of` filter P l.
Proof.
  exists (filter P (drop n l)). by rewrite <- filter_app, take_drop.
Qed.




(** ** Quota and fairness of the collector *)













(** ** Round-robin order of the collector *)

Lemma collect_scenario (W : World) (f1 f2 f3 : feed) :
  length (readable_feed W f1) = 5%nat →
  length (readable_feed W f2) = 2%nat →
  length (readable_feed W f3) = 10%nat →
  ∃ out : list RSSFeed,
    collect W "all" 6 [f1; f2; f3] = Returns out
    ∧ map source out
      = [Some f1.2; Some f2.2; Some f3.2; Some f1.2; Some f2.2; Some f3.2]
    ∧ out = cycle 0 (map (readable_feed W) [f1; f2; f3])
            ++ cycle 1 (map (readable_feed W) [f1; f2; f3]).
Proof.
  intros H1 H2 H3. rewrite collect_many by (unfold len; simpl; lia).
  eexists. split; [done|].
  pose proof (readable_source W f1.2 f1.1) as S1.
  pose proof (readable_source W f2.2 f2.1) as S2.
  pose proof (readable_source W f3.2 f3.1) as S3.
  fold (readable_feed W f1) in S1. fold (readable_feed W f2) in S2.
  fold (readable_feed W f3) in S3. cbn [map].
  destruct (readable_feed W f1) as [|a1 [|a2 [|a3 [|a4 [|a5 [|]]]]]]; try discriminate.
  destruct (readable_feed W f2) as [|b1 [|b2 [|]]]; try discriminate.
  destruct (readable_feed W f3)
    as [|c1 [|c2 [|c3 [|c4 [|c5 [|c6 [|c7 [|c8 [|c9 [|c10 [|]]]]]]]]]]];
    try discriminate.
  replace (take (Z.to_nat 6)
             (round_robin [[a1; a2; a3; a4; a5]; [b1; b2];
                           [c1; c2; c3; c4; c5; c6; c7; c8; c9; c10]]))
    with [a1; b1; c1; a2; b2; c2] by (vm_compute; reflexivity).
  split; [|done].
  apply Forall_cons in S1 as [Ha1 [Ha2 _]%Forall_cons].
  apply Forall_cons in S2 as [Hb1 [Hb2 _]%Forall_cons].
  apply Forall_cons in S3 as [Hc1 [Hc2 _]%Forall_cons].
  cbn [map]. by rewrite Ha1, Ha2, Hb1, Hb2, Hc1, Hc2.
Qed.

Lemma collect_round_robin (W : World) (Q : Z) (feeds : list feed) :
  1 < len feeds →
  collect W "all" Q feeds
  = Returns (take (Z.to_nat Q) (round_robin (map (readable_feed W) feeds)))
  ∧ (NoDup (map snd feeds) →
     ∀ f : feed, f ∈ feeds →
       filter (fun a => source a = Some f.2)
              (take (Z.to_nat Q) (round_robin (map (readable_feed W) feeds)))
       `prefix_of` readable_feed W f)
  ∧ (∀ f1 f2 f3 : feed,
       feeds = [f1; f2; f3] →
       length (readable_feed W f1) = 5%nat →
       length (readable_feed W f2) = 2%nat →
       length (readable_feed W f3) = 10%nat →
       Q = 6 →
       ∃ out : list RSSFeed,
         collect W "all" Q feeds = Returns out
         ∧ map source out
           = [Some f1.2; Some f2.2; Some f3.2; Some f1.2; Some f2.2; Some f3.2]
         ∧ out = cycle 0 (map (readable_feed W) [f1; f2; f3])
                 ++ cycle 1 (map (readable_feed W) [f1; f2; f3])).
Proof.
  intros Hmany. split; [by apply collect_many|]. split.
  - intros Hnd f Hf. rewrite <- (filter_round_robin W feeds f Hnd Hf) at 1.
    apply filter_take_prefix.
  - intros f1 f2 f3 -> H1 H2 H3 ->. by apply collect_scenario.
Qed.

(** C5.  The multi-source collector returns the round-robin order of the
    articles its live sources make available, cut at the quota: the sources
    are visited cyclically in the order of the configuration, and within a
    source the order of the feed is kept (the articles of a source, told by
    its title, are in the output a prefix of its feed).  For three sources
    holding 5, 2 and 10 entries and a quota of 6 the output takes its
    articles from the sources 1, 2, 3, 1, 2, 3: the first articles of the
    three sources, then their second articles. *)
Theorem round_robin_interleaving (W : World) (custom_url : option string) (Q : Z) :
  1 < len (parsed_feeds W "all" custom_url) →
  fetch_rss_feeds W "all" custom_url Q
  = Returns (take (Z.to_nat Q)
                  (round_robin (map (readable_feed W) (parsed_feeds W "all" custom_url))))
  ∧ (NoDup (map snd (parsed_feeds W "all" custom_url)) →
     ∀ f : feed, f ∈ parsed_feeds W "all" custom_url →
       filter (fun a => source a = Some f.2)
              (take (Z.to_nat Q)
                    (round_robin (map (readable_feed W)
                                      (parsed_feeds W "all" custom_url))))
       `prefix_of` readable_feed W f)
  ∧ (∀ f1 f2 f3 : feed,
       parsed_feeds W "all" custom_url = [f1; f2; f3] →
       length (readable_feed W f1) = 5%nat →
       length (readable_feed W f2) = 2%nat →
       length (readable_feed W f3) = 10%nat →
       Q = 6 →
       ∃ out : list RSSFeed,
         fetch_rss_feeds W "all" custom_url Q = Returns out
         ∧ map source out
           = [Some f1.2; Some f2.2; Some f3.2; Some f1.2; Some f2.2; Some f3.2]
         ∧ out = cycle 0 (map (readable_feed W) [f1; f2; f3])
                 ++ cycle 1 (map (readable_feed W) [f1; f2; f3])).
Proof. exact (collect_round_robin W Q (parsed_feeds W "all" custom_url)). Qed.

Lemma round_robin_interleaving_witness :
  ∃ out : list RSSFeed,
    fetch_rss_feeds three_feeds "all" None 6 = Returns out
    ∧ map source out = [Some "A"; Some "B"; Some "C"; Some "A"; Some "B"; Some "C"].
Proof.
  assert (1 < len (parsed_feeds three_feeds "all" None)) as Hmany.
  { vm_compute. reflexivity. }
  destruct (round_robin_interleaving three_feeds None 6 Hmany) as (_ & _ & Hscenario).
  destruct (Hscenario
      (entries_of "http://a.example/" ["1"; "2"; "3"; "4"; "5"], "A")
      (entries_of "http://b.example/" ["1"; "2"], "B")
      (entries_of "http://c.example/"
                  ["1"; "2"; "3"; "4"; "5"; "6"; "7"; "8"; "9"; "10"], "C"))
      as (out & Hout & Hsrc & _).
  - vm_compute. reflexivity.
  - vm_compute. reflexivity.
  - vm_compute. reflexivity.
  - vm_compute. reflexivity.
  - reflexivity.
  - exists out. split; [exact Hout|exact Hsrc].
Defined.

(** ** Termination of the collection loop *)

Lemma while_loop_more_fuel (W : World) (Q : Z) (fuel : nat) :
  ∀ (fuel' : nat) (arts : list RSSFeed) (feeds : list feed)
    (r : list RSSFeed * list feed),
  (fuel <= fuel')%nat →
  while_loop W fuel Q arts feeds = Returns r →
  while_loop W fuel' Q arts feeds = Returns r.
Proof.
  induction fuel as [|fuel IH]; intros fuel' arts feeds r Hle.
  - destruct fuel'; simpl;
      destruct ((len arts <? Q) && negb (bool_decide (feeds = []))); try done.
  - destruct fuel' as [|fuel']; [lia|]. rewrite !while_loop_unfold.
    destruct ((len arts <? Q) && negb (bool_decide (feeds = []))); [|done].
    apply IH. lia.
Qed.

Lemma single_feed_fuel_free (W : World) (Q : Z) (t : string) (it : list FeedEntry) :
  ∀ (i : nat) (arts : list RSSFeed), single_feed W Q i it t arts ≠ OutOfFuel.
Proof.
  induction it as [|e later IH]; intros i arts; simpl; [done|].
  destruct (Q <=? Z.of_nat i); [done|].
  destruct (RSSFeed_of_entry W e t); [apply IH|done].
Qed.

(** C6.  For every list of live feeds and every quota the collection loop
    terminates: within [enough_passes] passes it returns, and it ends with
    the quota reached or with no live feed left.  A pass never adds or
    reorders sources, it strictly lowers the weight of the live feeds, and
    when the quota is still open after it the live feeds are exactly those
    whose [next] succeeded: a source that was exhausted or whose entry was
    rejected is gone and is never visited again. *)
Theorem collection_loop_terminates (W : World) (Q : Z) (arts : list RSSFeed)
    (feeds : list feed) :
  (∃ (final_articles : list RSSFeed) (final_feeds : list feed),
     (∀ fuel : nat, (enough_passes feeds <= fuel)%nat →
        while_loop W fuel Q arts feeds = Returns (final_articles, final_feeds))
     ∧ (Q <= len final_articles ∨ final_feeds = [])
     ∧ map snd final_feeds `sublist_of` map snd feeds)
  ∧ (len arts < Q → feeds ≠ [] →
     ∃ (arts' : list RSSFeed) (feeds' : list feed),
       while_body W Q arts feeds = Returns (arts', feeds')
       ∧ (live_weight feeds' < live_weight feeds)%nat
       ∧ map snd feeds' `sublist_of` map snd feeds
       ∧ (len arts' < Q → feeds' = omap (advance W) feeds))
  ∧ (∀ source : string, collect W source Q feeds ≠ OutOfFuel).
Proof.
  split; [|split].
  - destruct (while_loop_round_robin W Q (enough_passes feeds) feeds arts
                (enough_passes_weight feeds)) as (final & Hrun & Hsub & Hend).
    eexists _, final. split; [|split; [|exact Hsub]].
    + intros fuel Hfuel. by apply (while_loop_more_fuel W Q (enough_passes feeds)).
    + destruct Hend as [Hend|Hend]; [left|by right].
      rewrite len_app. unfold len in *. rewrite length_take. lia.
  - intros Hlt Hne. rewrite while_body_sweep. eexists _, _. split; [done|].
    split; [by apply sweep_weight_lt|]. split; [apply sweep_titles|].
    rewrite sweep_articles. intros Hopen. apply sweep_feeds.
    rewrite len_app in Hopen. unfold len in *. rewrite length_take in Hopen. lia.
  - intros source. unfold collect.
    destruct ((1 <? len feeds) && String.eqb source "all").
    + destruct (while_loop_round_robin W Q (enough_passes feeds) feeds []
                  (enough_passes_weight feeds)) as (final & -> & _). done.
    + destruct (len feeds =? 1); [|done].
      destruct feeds as [|[it t] ?]; [done|]. apply single_feed_fuel_free.
Qed.

(** ** Every source fails *)






(** ** The two collectors *)

Lemma for_feeds_agree (W : World) (Q : Z) (feeds : list feed) :
  ∀ (i : nat) (arts : list RSSFeed) (rm : list nat),
  HealthFitness.for_feeds W Q i feeds arts rm = Cybersecurity.for_feeds W Q i feeds arts rm.
Proof.
  induction feeds as [|[it t] rest IH]; intros i arts rm; simpl; [done|].
  destruct (Q <=? len arts); [done|].
  destruct it as [|e later]; [by rewrite IH|].
  destruct (RSSFeed_of_entry W e t); by rewrite IH.
Qed.

Lemma while_loop_agree (W : World) (Q : Z) (fuel : nat) :
  ∀ (arts : list RSSFeed) (feeds : list feed),
  HealthFitness.while_loop W fuel Q arts feeds = Cybersecurity.while_loop W fuel Q arts feeds.
Proof.
  induction fuel as [|fuel IH]; intros arts feeds; simpl; [done|].
  destruct ((len arts <? Q) && negb (bool_decide (feeds = []))); [|done].
  unfold HealthFitness.while_body, Cybersecurity.while_body.
  rewrite for_feeds_agree.
  destruct (Cybersecurity.for_feeds W Q 0 feeds arts []) as [[fs a] rm].
  destruct (pop_each (sorted_reverse rm) fs); simpl; [apply IH|done|done].
Qed.

Lemma single_feed_agree (W : World) (Q : Z) (t : string) (it : list FeedEntry) :
  ∀ (i : nat) (arts : list RSSFeed),
  HealthFitness.single_feed W Q i it t arts = Cybersecurity.single_feed W Q i it t arts.
Proof.
  induction it as [|e later IH]; intros i arts; simpl; [done|].
  destruct (Q <=? Z.of_nat i); [done|].
  destruct (RSSFeed_of_entry W e t); [apply IH|done].
Qed.

Lemma collect_agree (W : World) (source : string) (Q : Z) (feeds : list feed) :
  HealthFitness.collect W source Q feeds = Cybersecurity.collect W source Q feeds.
Proof.
  unfold HealthFitness.collect, Cybersecurity.collect.
  destruct ((1 <? len feeds) && String.eqb source "all").
  - by rewrite while_loop_agree.
  - destruct (len feeds =? 1); [|done].
    destruct feeds as [|[it t] ?]; [done|]. apply single_feed_agree.
Qed.

(** C10.  The collection loops of the health-fitness and of the
    cybersecurity actor are equivalent: on the same list of per-source
    entry lists, the same source selector and the same [max_articles] they
    return the same articles in the same order (or fail alike); hence the
    two [fetch_rss_feeds] agree whenever they parsed the same feeds, as they
    do for a custom feed. *)
Theorem collectors_agree (W : World) (source : string) (custom_url : option string)
    (Q : Z) :
  (∀ feeds : list feed,
     HealthFitness.collect W source Q feeds = Cybersecurity.collect W source Q feeds)
  ∧ (HealthFitness.parsed_feeds W source custom_url
     = Cybersecurity.parsed_feeds W source custom_url →
     HealthFitness.fetch_rss_feeds W source custom_url Q
     = Cybersecurity.fetch_rss_feeds W source custom_url Q)
  ∧ HealthFitness.fetch_rss_feeds W "custom" custom_url Q
    = Cybersecurity.fetch_rss_feeds W "custom" custom_url Q.
Proof.
  split; [intros feeds; apply collect_agree|]. split.
  - intros Hsame. unfold HealthFitness.fetch_rss_feeds, Cybersecurity.fetch_rss_feeds.
    rewrite Hsame. apply collect_agree.
  - unfold HealthFitness.fetch_rss_feeds, Cybersecurity.fetch_rss_feeds.
    assert (HealthFitness.parsed_feeds W "custom" custom_url
            = Cybersecurity.parsed_feeds W "custom" custom_url) as ->.
    { unfold HealthFitness.parsed_feeds, Cybersecurity.parsed_feeds.
      unfold HealthFitness.select_urls, Cybersecurity.select_urls.
      destruct (truthy_opt custom_url) eqn:Hc; [done|].
      destruct custom_url as [c|]; simpl in *; [by rewrite Hc|done]. }
    apply collect_agree.
Qed.

(** ** Deduplication and recycling *)

Lemma is_duplicate_seen (W : World) (store : gmap string bool) (a : RSSFeed) :
  store !! url_key W a = Some true → is_duplicate W store a = true.
Proof. unfold is_duplicate. by intros ->. Qed.

Lemma filter_not_in_filter {A} `{EqDecision A} (P : A → Prop) `{!∀ x, Decision (P x)}
    (all l : list A) :
  (∀ x, x ∈ l → x ∈ all) →
  filter (fun x => x ∉ filter P all) l = filter (fun x => ¬ P x) l.
Proof.
  induction l as [|x l IH]; intros Hin; [done|].
  rewrite !filter_cons, IH by (intros y Hy; apply Hin; by right).
  destruct (decide (P x)) as [HP|HP].
  - rewrite decide_False, decide_False; [done|tauto|].
    intros Hout. apply Hout. apply list_elem_of_filter. split; [done|]. apply Hin. left.
  - rewrite decide_True, decide_True; [done|done|].
    intros [? _]%list_elem_of_filter. done.
Qed.

Lemma length_filter_complement {A} (P : A → Prop) `{!∀ x, Decision (P x)} (l : list A) :
  (length (filter P l) + length (filter (fun x => ¬ P x) l))%nat = length l.
Proof. by rewrite <- length_app, filter_app_complement. Qed.

Lemma filter_seen (W : World) (store : gmap string bool) (all : list RSSFeed) :
  filter (fun a => ¬ is_duplicate W store a = false) all
  = filter (fun a => is_duplicate W store a = true) all.
Proof. apply list_filter_iff. intros a. apply not_false_iff_true. Qed.

(** The entries of this run that are already marked in the store. *)
Lemma recycle_remaining (W : World) (store : gmap string bool) (all : list RSSFeed) :
  filter (fun a => a ∉ filter_new W store all) all
  = filter (fun a => is_duplicate W store a = true) all.
Proof.
  unfold filter_new. rewrite filter_not_in_filter by done. apply filter_seen.
Qed.

Lemma recycle_submseteq (W : World) (store : gmap string bool) (Q : Z)
    (all : list RSSFeed) :
  recycle Q all (filter_new W store all) ⊆+ all.
Proof.
  unfold recycle. destruct (len (filter_new W store all) <? Q).
  - rewrite recycle_remaining.
    trans (filter (fun a => is_duplicate W store a = false) all
           ++ filter (fun a => ¬ is_duplicate W store a = false) all).
    + unfold filter_new. apply submseteq_app; [done|].
      rewrite filter_seen. apply sublist_submseteq, sublist_take.
    + by rewrite filter_app_complement.
  - apply sublist_submseteq, sublist_filter.
Qed.

(** What [rss_fetcher] returns when the collector returned at most the
    quota: the new articles followed by all the seen ones. *)
Lemma recycle_all (W : World) (store : gmap string bool) (Q : Z) (all : list RSSFeed) :
  len all <= Z.max 0 Q →
  recycle Q all (filter_new W store all)
  = filter_new W store all ++ filter (fun a => is_duplicate W store a = true) all.
Proof.
  intros Hall. unfold recycle. rewrite recycle_remaining.
  pose proof (length_filter_complement (fun a => is_duplicate W store a = false) all) as Hsum.
  cbv beta in Hsum. rewrite filter_seen in Hsum. unfold filter_new, len in *.
  destruct (Z.ltb_spec (Z.of_nat (length (filter (fun a => is_duplicate W store a = false) all))) Q)
    as [Hlt|Hge].
  - f_equal. apply take_ge. lia.
  - assert (length (filter (fun a => is_duplicate W store a = true) all) = 0%nat) as Hnone by lia.
    apply nil_length_inv in Hnone. by rewrite Hnone, app_nil_r.
Qed.

Lemma filter_all {A} (P : A → Prop) `{!∀ x, Decision (P x)} (l : list A) :
  Forall P l → filter P l = l.
Proof.
  induction 1 as [|x l Hx _ IH]; [done|].
  by rewrite filter_cons, decide_True, IH.
Qed.

Lemma is_duplicate_unseen (W : World) (store : gmap string bool) (a : RSSFeed) :
  is_duplicate W store a = false ↔ store !! url_key W a ≠ Some true.
Proof.
  unfold is_duplicate. destruct (store !! url_key W a) as [[|]|]; split; congruence.
Qed.

(** What [rss_fetcher] puts into the state, in terms of the list the
    collector returned: the unseen entries in fetch order, followed by the
    seen ones in fetch order.  A seen entry that was fetched always triggers
    the recycling step: the collector returns no more than [maxArticles]
    entries, so one seen entry among them leaves fewer new ones than
    [maxArticles]. *)
Lemma rss_fetcher_articles (W : World) (state : WorkflowState) (P : Platform)
    (all : list RSSFeed) :
  fetch_rss_feeds W (cfg_source (config state)) (customFeedUrl (config state))
                  (maxArticles (config state)) = Returns all →
  rss_fetcher W state P
  = Returns {| config := config state;
               articles := filter_new W (processed_urls_store P) all
                           ++ filter (fun a => is_duplicate W (processed_urls_store P) a = true) all;
               processed_count := 0 |}
  ∧ (∀ a : RSSFeed,
       a ∈ all → processed_urls_store P !! url_key W a = Some true →
       len (filter_new W (processed_urls_store P) all) < maxArticles (config state))
  ∧ (¬ (len (filter_new W (processed_urls_store P) all) < maxArticles (config state)) →
     filter_new W (processed_urls_store P) all = all
     ∧ filter (fun a => is_duplicate W (processed_urls_store P) a = true) all = []).
Proof.
  intros Hfetch.
  assert (len all <= Z.max 0 (maxArticles (config state))) as Hlen.
  { unfold fetch_rss_feeds in Hfetch. by eapply collect_length. }
  pose proof (length_filter_complement
                (fun a => is_duplicate W (processed_urls_store P) a = false) all) as Hsum.
  cbv beta in Hsum. rewrite filter_seen in Hsum.
  split; [|split].
  - unfold rss_fetcher. rewrite Hfetch. cbn [mbind outcome_bind].
    by rewrite recycle_all.
  - intros a Hin Hseen. apply is_duplicate_seen in Hseen.
    assert (a ∈ filter (fun a => is_duplicate W (processed_urls_store P) a = true) all)
      as Hmem by (by apply list_elem_of_filter).
    destruct (filter (fun a => is_duplicate W (processed_urls_store P) a = true) all)
      as [|s seen] eqn:Hs; [by apply elem_of_nil in Hmem|].
    unfold filter_new, len in *. simpl in Hsum. lia.
  - intros Hquiet.
    assert (filter (fun a => is_duplicate W (processed_urls_store P) a = true) all = [])
      as Hnone.
    { apply nil_length_inv. unfold filter_new, len in *. lia. }
    split; [|exact Hnone].
    unfold filter_new. apply filter_all, Forall_forall. intros a Hin.
    destruct (is_duplicate W (processed_urls_store P) a) eqn:Hdup; [|done].
    assert (a ∈ filter (fun a => is_duplicate W (processed_urls_store P) a = true) all)
      as Hmem by (by apply list_elem_of_filter).
    rewrite Hnone in Hmem. by apply elem_of_nil in Hmem.
Qed.

(** C8.  Let [all] be what the collector returned to [rss_fetcher].  The
    node returns the entries of [all] that are not marked in the store (the
    new articles, in fetch order) followed by the marked ones (in fetch
    order), and sets the count of processed articles to 0.  For every entry
    of [all] whose link hash is marked in the store: the deduplication
    filter keeps it out of the new articles; the recycling step is triggered
    (there are fewer new articles than [maxArticles]); and the entry is
    returned, after all the new articles.  When the recycling step is not
    triggered, no entry of [all] is marked and the node returns [all]. *)
Theorem seen_entries_excluded (W : World) (state : WorkflowState) (P : Platform)
    (all : list RSSFeed) :
  fetch_rss_feeds W (cfg_source (config state)) (customFeedUrl (config state))
                  (maxArticles (config state)) = Returns all →
  ∃ state' : WorkflowState,
    rss_fetcher W state P = Returns state'
    ∧ config state' = config state
    ∧ processed_count state' = 0%nat
    ∧ articles state'
      = filter_new W (processed_urls_store P) all
        ++ filter (fun a => is_duplicate W (processed_urls_store P) a = true) all
    ∧ (∀ a : RSSFeed,
         a ∈ filter_new W (processed_urls_store P) all
         ↔ a ∈ all ∧ processed_urls_store P !! url_key W a ≠ Some true)
    ∧ (∀ a : RSSFeed,
         a ∈ all → processed_urls_store P !! url_key W a = Some true →
         (a ∉ filter_new W (processed_urls_store P) all)
         ∧ len (filter_new W (processed_urls_store P) all) < maxArticles (config state)
         ∧ (∃ recycled_before recycled_after : list RSSFeed,
              articles state'
              = filter_new W (processed_urls_store P) all
                ++ recycled_before ++ a :: recycled_after))
    ∧ (¬ (len (filter_new W (processed_urls_store P) all) < maxArticles (config state)) →
       articles state' = all
       ∧ (∀ a : RSSFeed,
            a ∈ all → processed_urls_store P !! url_key W a ≠ Some true)).
Proof.
  intros Hfetch.
  destruct (rss_fetcher_articles W state P all Hfetch) as (Hrun & Htriggered & Hquiet).
  eexists. split; [exact Hrun|]. cbn [config processed_count articles].
  split; [done|]. split; [done|]. split; [done|]. split; [|split].
  - intros a. unfold filter_new. rewrite list_elem_of_filter, is_duplicate_unseen. tauto.
  - intros a Hin Hseen. split; [|split].
    + unfold filter_new. intros [Hnew _]%list_elem_of_filter.
      apply is_duplicate_unseen in Hnew. done.
    + by eapply Htriggered.
    + assert (a ∈ filter (fun a => is_duplicate W (processed_urls_store P) a = true) all)
        as Hmem.
      { apply list_elem_of_filter. split; [by apply is_duplicate_seen|done]. }
      apply list_elem_of_split in Hmem as (before & after & ->). by exists before, after.
  - intros Hnot. destruct (Hquiet Hnot) as [Hnew Hnone].
    rewrite Hnew, Hnone, app_nil_r. split; [done|].
    intros a Hin. apply is_duplicate_unseen.
    rewrite <- Hnew in Hin. unfold filter_new in Hin.
    by apply list_elem_of_filter in Hin as [? _].
Qed.

Lemma seen_entries_excluded_witness :
  ∃ (all : list RSSFeed) (state' : WorkflowState),
    fetch_rss_feeds two_feeds "all" None 8 = Returns all
    ∧ map link all
      = ["http://a.example/1"; "http://b.example/1"; "http://a.example/2";
         "http://b.example/2"; "http://a.example/3"; "http://b.example/3";
         "http://a.example/4"; "http://b.example/4"]
    ∧ rss_fetcher two_feeds (initial_state (example_config "all" 8 true))
                  (platform_with half_seen) = Returns state'
    ∧ map link (filter_new two_feeds half_seen all)
      = ["http://a.example/1"; "http://b.example/1"; "http://a.example/3";
         "http://b.example/3"]
    ∧ map link (articles state')
      = ["http://a.example/1"; "http://b.example/1"; "http://a.example/3";
         "http://b.example/3"; "http://a.example/2"; "http://b.example/2";
         "http://a.example/4"; "http://b.example/4"].
Proof.
  set (state := initial_state (example_config "all" 8 true)).
  set (P := platform_with half_seen).
  destruct (fetch_rss_feeds two_feeds "all" None 8) as [all| |] eqn:Hall;
    [|vm_compute in Hall; discriminate..].
  assert (fetch_rss_feeds two_feeds (cfg_source (config state))
            (customFeedUrl (config state)) (maxArticles (config state)) = Returns all)
    as Hfetch by exact Hall.
  destruct (seen_entries_excluded two_feeds state P all Hfetch)
    as (state' & Hrun & _ & _ & Harticles & _).
  exists all, state'. vm_compute in Hall. injection Hall as <-.
  split; [reflexivity|]. split; [reflexivity|]. split; [exact Hrun|].
  split; [vm_compute; reflexivity|].
  rewrite Harticles. vm_compute. reflexivity.
Defined.

(** ** Links within a run, and what recycling returns *)





(** C2, as the code has it.  The recycling step appends the entries fetched
    in this run that are already marked, in the order fetched and each at
    most once, so that [rss_fetcher] returns exactly the entries fetched:
    the new ones, then the seen ones.  That is the quota only when the
    collector returned as many; with a quota of 10 and 4 new entries among 8
    fetched the output is the 4 new entries and the 4 seen ones, 8 in all. *)
Theorem recycling_returns_all_fetched (W : World) (state : WorkflowState) (P : Platform)
    (all : list RSSFeed) :
  fetch_rss_feeds W (cfg_source (config state)) (customFeedUrl (config state))
                  (maxArticles (config state)) = Returns all →
  ∃ state' : WorkflowState,
    rss_fetcher W state P = Returns state'
    ∧ articles state'
      = filter_new W (processed_urls_store P) all
        ++ filter (fun a => is_duplicate W (processed_urls_store P) a = true) all
    ∧ len (articles state') = len all
    ∧ len (articles state') <= Z.max 0 (maxArticles (config state))
    ∧ (maxArticles (config state) = 10 → len all = 8 →
       len (filter_new W (processed_urls_store P) all) = 4 →
       len (articles state') = 8
       ∧ len (filter (fun a => is_duplicate W (processed_urls_store P) a = true) all) = 4).
Proof.
  intros Hfetch. pose proof Hfetch as Hlen. apply collect_length in Hlen.
  unfold rss_fetcher. rewrite Hfetch. cbn [mbind outcome_bind].
  eexists. split; [done|]. cbn [articles].
  rewrite recycle_all by done.
  pose proof (length_filter_complement
    (fun a => is_duplicate W (processed_urls_store P) a = false) all) as Hsum.
  cbv beta in Hsum. rewrite filter_seen in Hsum. split; [done|].
  rewrite len_app. unfold filter_new, len in *. repeat split; lia.
Qed.

Lemma recycling_returns_all_fetched_witness :
  ∃ state' : WorkflowState,
    rss_fetcher two_feeds (initial_state (example_config "all" 10 true))
                (platform_with half_seen) = Returns state'
    ∧ len (articles state') = 8.
Proof.
  destruct (recycling_returns_all_fetched two_feeds
              (initial_state (example_config "all" 10 true)) (platform_with half_seen)
              (take 8 (round_robin (map (readable_feed two_feeds)
                                        (parsed_feeds two_feeds "all" None)))))
    as (state' & Hrun & _ & _ & _ & Hscenario).
  - vm_compute. reflexivity.
  - exists state'. split; [exact Hrun|].
    apply Hscenario; vm_compute; reflexivity.
Defined.

(** With a quota of 10 and 4 new entries among the 8 fetched, the output
    holds 8 entries, not 10. *)
Lemma quota_not_reached_counterexample :
  ∃ (all : list RSSFeed) (state' : WorkflowState),
    fetch_rss_feeds two_feeds "all" None 10 = Returns all
    ∧ len all = 8
    ∧ len (filter_new two_feeds half_seen all) = 4
    ∧ rss_fetcher two_feeds (initial_state (example_config "all" 10 true))
                  (platform_with half_seen) = Returns state'
    ∧ len (articles state') = 8
    ∧ len (articles state') ≠ 10.
Proof.
  eexists _, _. split; [vm_compute; reflexivity|].
  split; [vm_compute; reflexivity|]. split; [vm_compute; reflexivity|].
  split; [vm_compute; reflexivity|]. split; [vm_compute; reflexivity|].
  vm_compute. discriminate.
Qed.

(** ** Committing a link after the push *)

Lemma truthy_empty (s : string) : truthy s = false ↔ s = "".
Proof.
  unfold truthy. destruct (String.eqb_spec s ""); simpl; split; congruence.
Qed.

(** C4.  [process_and_save_article] writes the link hash of the article to
    the store only after the record of that article was pushed: whatever
    the call does, the journal of the platform grows either by nothing, the
    store and the dataset being left as they were, or by the push of the
    record of the article followed by the commit of its key.  When no
    summary could be produced the article is skipped and the platform is
    unchanged; when the call raises, the store is unchanged. *)
Theorem commit_only_after_push (W : World) (state : WorkflowState) (P : Platform) :
  (journal (process_and_save_article W state P).1 = journal P
   ∧ processed_urls_store (process_and_save_article W state P).1 = processed_urls_store P
   ∧ dataset (process_and_save_article W state P).1 = dataset P
   ∨ ∃ (art : RSSFeed) (record : DatasetRecord),
       articles state !! processed_count state = Some art
       ∧ d_url record = link art
       ∧ d_title record = title art
       ∧ push_data_ok W record = true
       ∧ dataset (process_and_save_article W state P).1 = dataset P ++ [record]
       ∧ journal (process_and_save_article W state P).1
         = journal P ++ [PushData record; SetValue (url_key W art) true]
       ∧ processed_urls_store (process_and_save_article W state P).1
         = <[url_key W art := true]> (processed_urls_store P)
       ∧ ∃ state' : WorkflowState,
           (process_and_save_article W state P).2 = Returns state'
           ∧ processed_count state' = S (processed_count state))
  ∧ (∀ art : RSSFeed,
       articles state !! processed_count state = Some art →
       find_overview W (config state) art = "" →
       process_and_save_article W state P
       = (P, Returns {| config := config state;
                        articles := articles state;
                        processed_count := S (processed_count state) |}))
  ∧ (∀ e : exn,
       (process_and_save_article W state P).2 = Raises e →
       (process_and_save_article W state P).1 = P).
Proof.
  unfold process_and_save_article.
  destruct (articles state !! processed_count state) as [art|] eqn:Hart.
  2:{ split; [by left|]. split; [done|]. intros e. simpl. done. }
  destruct (truthy (find_overview W (config state) art)) eqn:Hov; cbn [negb].
  2:{ split; [by left|]. split; [|simpl; done].
      intros ? [= <-] _. done. }
  destruct (DatasetRecord_of (with_summary art (find_overview W (config state) art))
              (analyze_article_summary W (find_overview W (config state) art)
                 (runTestMode (config state)))) as [record|] eqn:Hrec.
  2:{ split; [by left|]. split; [|done].
      intros ? [= <-] Hempty. rewrite Hempty in Hov. done. }
  unfold push_data. destruct (push_data_ok W record) eqn:Hpush; cbn [fst snd].
  - split; [right|split].
    + exists art, record.
      unfold DatasetRecord_of in Hrec.
      destruct (validate_str_list _); [|done]. injection Hrec as <-.
      cbn. rewrite <- (assoc_L (++)). repeat split; try done. eauto.
    + intros ? [= <-] Hempty. rewrite Hempty in Hov. done.
    + done.
  - split; [by left|]. split; [|done].
    intros ? [= <-] Hempty. rewrite Hempty in Hov. done.
Qed.

(** ** Retrying the search *)

Ltac stops_at_first :=
  exists 0%nat; rewrite ?Nat.add_0_r;
  split; [lia|]; split; [done|]; split; [intros; exfalso; lia|].

Lemma search_attempts_shape (W : Gdelt.SearchWorld) (query : string) (count : nat) :
  ∀ first : nat,
  (first + count = 3)%nat → (0 < count)%nat →
  ∃ n : nat,
    (n < count)%nat
    ∧ (Gdelt.search_attempts W query (seq first count)).2 = backoff first n
    ∧ (∀ k : nat, (first <= k < first + n)%nat →
         ∃ body, Gdelt.http_get W k query = Gdelt.Response 403 body)
    ∧ ((∀ body, Gdelt.http_get W (first + n)%nat query ≠ Gdelt.Response 403 body)
       ∨ (first + n = 2)%nat ∧ (Gdelt.search_attempts W query (seq first count)).1 = "").
Proof.
  induction count as [|count IH]; intros first Hbound Hpos; [lia|].
  cbn [seq Gdelt.search_attempts].
  destruct (Gdelt.http_get W first query) as [|status body] eqn:Hget.
  { stops_at_first. left. by rewrite Hget. }
  destruct (Z.eqb_spec status 403) as [->|Hne].
  2:{ assert (∀ body', Gdelt.http_get W first query ≠ Gdelt.Response 403 body')
        by (rewrite Hget; intros ? [=]; done).
      destruct (Gdelt.raise_for_status W status); [stops_at_first; by left|].
      destruct body as [|[|item items]]; stops_at_first; by left. }
  unfold Gdelt.MAX_RETRIES.
  destruct (Z.ltb_spec (Z.of_nat first) (3 - 1)) as [Hearly|Hlast].
  - destruct count as [|count]; [lia|].
    destruct (IH (S first) ltac:(lia) ltac:(lia)) as (n & Hn & Hev & Hretry & Hstop).
    destruct (Gdelt.search_attempts W query (seq (S first) (S count))) as [r evs].
    cbn [fst snd] in *. exists (S n). split; [lia|]. split; [by rewrite Hev|].
    split.
    + intros k Hk. destruct (decide (k = first)) as [->|]; [eauto|].
      apply Hretry. lia.
    + replace (first + S n)%nat with (S first + n)%nat by lia. exact Hstop.
  - stops_at_first. right. split; [lia|done].
Qed.

(** C9.  [fetch_summary_from_google] asks at most three times.  A further
    request is made only after an answer with status 403, and only after
    sleeping 2 seconds after the first and 4 seconds after the second
    request; any other outcome of a request (an exception, another status,
    an unreadable or empty body, a summary) ends the call with that request.
    After three answers with status 403 the call gives up and returns the
    empty string.  The call never raises: every outcome is a string. *)
Theorem google_search_retries_on_403_only (W : Gdelt.SearchWorld) (query : string)
    (is_test_mode : bool) :
  (length (filter (fun e => is_request e = true)
                  (Gdelt.fetch_summary_from_google W query is_test_mode).2) <= 3)%nat
  ∧ ((Gdelt.fetch_summary_from_google W query is_test_mode).2 = []
     ∨ ∃ n : nat,
         (n < 3)%nat
         ∧ (Gdelt.fetch_summary_from_google W query is_test_mode).2 = backoff 0 n
         ∧ (∀ k : nat, (k < n)%nat →
              ∃ body, Gdelt.http_get W k query = Gdelt.Response 403 body)
         ∧ ((∀ body, Gdelt.http_get W n query ≠ Gdelt.Response 403 body)
            ∨ n = 2%nat ∧ (Gdelt.fetch_summary_from_google W query is_test_mode).1 = ""))
  ∧ (is_test_mode = false →
     truthy_opt (Gdelt.google_api_key W) = true →
     truthy_opt (Gdelt.google_cse_id W) = true →
     (∀ k : nat, (k < 3)%nat →
        ∃ body, Gdelt.http_get W k query = Gdelt.Response 403 body) →
     Gdelt.fetch_summary_from_google W query is_test_mode
     = ("", [Gdelt.Request 0; Gdelt.Sleep 2; Gdelt.Request 1; Gdelt.Sleep 4;
             Gdelt.Request 2])).
Proof.
  assert (∀ n, (n < 3)%nat →
            (length (filter (fun e => is_request e = true) (backoff 0 n)) <= 3)%nat)
    as Hcount.
  { intros [|[|[|n]]] Hn; try lia; vm_compute; lia. }
  unfold Gdelt.fetch_summary_from_google.
  destruct is_test_mode; [cbn; repeat split; [lia|by left|done]|].
  destruct (truthy_opt (Gdelt.google_api_key W));
    [|cbn; repeat split; [lia|by left|done]].
  destruct (truthy_opt (Gdelt.google_cse_id W));
    [|cbn; repeat split; [lia|by left|done]].
  cbn [negb orb]. change (Z.to_nat Gdelt.MAX_RETRIES) with 3%nat.
  destruct (search_attempts_shape W query 3 0 ltac:(lia) ltac:(lia))
    as (n & Hn & Hev & Hretry & Hstop).
  cbn [Nat.add] in Hstop.
  split; [rewrite Hev; by apply Hcount|]. split.
  - right. exists n. split; [done|]. split; [done|]. split; [|exact Hstop].
    intros k Hk. apply Hretry. lia.
  - intros _ _ _ Hall.
    destruct (Hall 0%nat ltac:(lia)) as [b0 H0].
    destruct (Hall 1%nat ltac:(lia)) as [b1 H1].
    destruct (Hall 2%nat ltac:(lia)) as [b2 H2].
    cbn. rewrite H0. cbn. rewrite H1. cbn. rewrite H2. done.
Qed.

(** * Further properties of the code *)

(** ** What [fetch_rss_feeds] returns *)

Lemma collect_nothing_wanted (W : World) (source : string) (Q : Z) (feeds : list feed) :
  Q <= 0 → collect W source Q feeds = Returns [].
Proof.
  intros HQ. unfold collect.
  destruct ((1 <? len feeds) && String.eqb source "all").
  - destruct (enough_passes feeds) as [|fuel] eqn:Hfuel; [done|].
    rewrite while_loop_unfold.
    destruct (Z.ltb_spec (len (@nil RSSFeed)) Q) as [Hlt|_]; [|done].
    unfold len in Hlt. simpl in Hlt. lia.
  - destruct (len feeds =? 1); [|done].
    destruct feeds as [|[[|e later] t] ?]; [done|done|]. simpl.
    destruct (Z.leb_spec Q (Z.of_nat 0)); [done|lia].
Qed.

(** X1.  [fetch_rss_feeds] never returns more articles than
    [max_articles], whatever the source and the feeds; with a quota of zero
    or less it returns the empty list and raises nothing, even when an entry
    of the only feed would be rejected. *)
Theorem fetch_never_exceeds_quota (W : World) (source : string)
    (custom_url : option string) (Q : Z) :
  (Q <= 0 → fetch_rss_feeds W source custom_url Q = Returns [])
  ∧ (∀ out : list RSSFeed,
       fetch_rss_feeds W source custom_url Q = Returns out →
       len out <= Z.max 0 Q).
Proof.
  split.
  - apply collect_nothing_wanted.
  - intros out. apply collect_length.
Qed.

Lemma fetch_never_exceeds_quota_witness :
  fetch_rss_feeds broken_feed "custom" (Some "https://feeds.example/custom") 0
  = Returns []
  ∧ ∀ out : list RSSFeed,
      fetch_rss_feeds three_feeds "all" None 6 = Returns out → len out <= Z.max 0 6.
Proof.
  destruct (fetch_never_exceeds_quota broken_feed "custom"
              (Some "https://feeds.example/custom") 0) as [Hnone _].
  destruct (fetch_never_exceeds_quota three_feeds "all" None 6) as [_ Hmost].
  split; [apply Hnone; lia|exact Hmost].
Defined.

Lemma elem_of_concat {A} (x : A) (ls : list (list A)) :
  x ∈ concat ls → ∃ l : list A, x ∈ l ∧ l ∈ ls.
Proof.
  induction ls as [|l ls IH]; simpl; [by intros ?%elem_of_nil|].
  intros [Hx|Hx]%elem_of_app.
  - exists l. split; [done|left].
  - destruct (IH Hx) as (l' & Hl' & Hin). exists l'. split; [done|by right].
Qed.

Lemma readable_provenance (W : World) (t : string) (it : list FeedEntry) (a : RSSFeed) :
  a ∈ readable W it t →
  ∃ e : FeedEntry, e ∈ it ∧ RSSFeed_of_entry W e t = Some a.
Proof.
  induction it as [|e later IH]; simpl; [by intros ?%elem_of_nil|].
  destruct (RSSFeed_of_entry W e t) as [b|] eqn:Hb; [|by intros ?%elem_of_nil].
  intros [->|Ha]%elem_of_cons.
  - exists e. split; [left|done].
  - destruct (IH Ha) as (e' & He' & Hmk). exists e'. split; [by right|done].
Qed.

(** X2.  Every article [fetch_rss_feeds] returns was built from an entry of
    one of the feeds that parsed with entries, carries the title of that
    feed as its source and the validated link of the entry; and no entry is
    returned more often than the feeds hold it. *)
Theorem fetched_articles_come_from_feeds (W : World) (selector : string)
    (custom_url : option string) (Q : Z) (out : list RSSFeed) :
  fetch_rss_feeds W selector custom_url Q = Returns out →
  out ⊆+ concat (map (readable_feed W) (parsed_feeds W selector custom_url))
  ∧ ∀ a : RSSFeed, a ∈ out →
      ∃ (f : feed) (e : FeedEntry),
        f ∈ parsed_feeds W selector custom_url
        ∧ e ∈ f.1
        ∧ RSSFeed_of_entry W e f.2 = Some a
        ∧ source a = Some f.2
        ∧ http_url W (default "" (entry_link e)) = Some (link a).
Proof.
  intros Hout. apply collect_submseteq in Hout. split; [exact Hout|].
  intros a Ha.
  assert (a ∈ concat (map (readable_feed W) (parsed_feeds W selector custom_url))) as Hin.
  { eapply elem_of_submseteq; [exact Ha|exact Hout]. }
  apply elem_of_concat in Hin as (l & Hal & Hl).
  change (map ?g ?x) with (g <$> x) in Hl.
  apply list_elem_of_fmap in Hl as (f & -> & Hf).
  destruct (readable_provenance W f.2 f.1 a Hal) as (e & He & Hmk).
  exists f, e. repeat split; try done.
  - unfold RSSFeed_of_entry in Hmk.
    destruct (http_url W (default "" (entry_link e))); [|done]. by injection Hmk as <-.
  - unfold RSSFeed_of_entry in Hmk.
    destruct (http_url W (default "" (entry_link e))); [|done]. by injection Hmk as <-.
Qed.

Lemma fetched_articles_come_from_feeds_witness :
  ∃ out : list RSSFeed,
    fetch_rss_feeds three_feeds "all" None 6 = Returns out
    ∧ out ⊆+ concat (map (readable_feed three_feeds)
                         (parsed_feeds three_feeds "all" None)).
Proof.
  eexists. split; [vm_compute; reflexivity|].
  eapply (proj1 (fetched_articles_come_from_feeds three_feeds "all" None 6 _ _)).
  Unshelve. vm_compute. reflexivity.
Defined.

(** ** A rejected entry: dropped feed or exception *)

Lemma single_feed_raises (W : World) (max_articles : Z) (t : string)
    (it : list FeedEntry) :
  ∀ (i : nat) (arts : list RSSFeed),
  (length (readable W it t) < length it)%nat →
  len (readable W it t) < max_articles - Z.of_nat i →
  single_feed W max_articles i it t arts = Raises ValidationError.
Proof.
  induction it as [|e later IH]; intros i arts Hshort Hquota; simpl in *; [lia|].
  destruct (Z.leb_spec max_articles (Z.of_nat i)) as [Hle|Hlt].
  { pose proof (len_nonneg (match RSSFeed_of_entry W e t with
                            | Some article => article :: readable W later t
                            | None => []
                            end)). lia. }
  destruct (RSSFeed_of_entry W e t) as [a|]; [|done].
  apply IH.
  - simpl in Hshort. lia.
  - rewrite len_cons in Hquota. lia.
Qed.

Lemma readable_length (W : World) (t : string) (it : list FeedEntry) :
  (length (readable W it t) <= length it)%nat.
Proof.
  induction it as [|e later IH]; simpl; [done|].
  destruct (RSSFeed_of_entry W e t); simpl; lia.
Qed.

(** X3.  A rejected entry is treated differently by the two branches of
    [fetch_rss_feeds].  With a single live feed the call raises the
    validation error exactly when one of the first [max_articles] entries of
    the feed is rejected (the readable entries end before the feed and
    before the quota); otherwise it returns the first [max_articles]
    entries.  With source "all" and at least two live feeds the call never
    raises: the feed is dropped instead. *)
Theorem rejected_entry_raises_or_drops (W : World) (selector : string)
    (custom_url : option string) (Q : Z) :
  (∀ (it : list FeedEntry) (t : string),
     parsed_feeds W selector custom_url = [(it, t)] →
     (fetch_rss_feeds W selector custom_url Q = Raises ValidationError
      ↔ (length (readable W it t) < length it)%nat ∧ len (readable W it t) < Q)
     ∧ (¬ ((length (readable W it t) < length it)%nat ∧ len (readable W it t) < Q) →
        fetch_rss_feeds W selector custom_url Q
        = Returns (take (Z.to_nat Q) (readable W it t))))
  ∧ (selector = "all" → 1 < len (parsed_feeds W selector custom_url) →
     ∃ out : list RSSFeed, fetch_rss_feeds W selector custom_url Q = Returns out).
Proof.
  unfold fetch_rss_feeds. split.
  - intros it t ->.
    assert (collect W selector Q [(it, t)] = single_feed W Q 0 it t []) as ->.
    { unfold collect. change (1 <? len [(it, t)]) with false. done. }
    pose proof (readable_length W t it) as Hlen.
    destruct (decide ((length (readable W it t) < length it)%nat
                      ∧ len (readable W it t) < Q)) as [[Hshort Hquota]|Hfine].
    + rewrite single_feed_raises by (done || lia). split; [done|].
      intros Hno. destruct Hno. done.
    + assert (single_feed W Q 0 it t []
              = Returns (take (Z.to_nat Q) (readable W it t))) as ->.
      { rewrite single_feed_returns.
        - simpl. do 2 f_equal. lia.
        - destruct (decide (length (readable W it t) = length it)); [by right|left].
          destruct (decide (len (readable W it t) < Q)); [|lia].
          destruct Hfine. split; [lia|done]. }
      split; [|done]. split; [done|]. intros ?. done.
  - intros -> Hmany. rewrite collect_many by done. eauto.
Qed.

Lemma rejected_entry_raises_or_drops_witness :
  fetch_rss_feeds broken_feed "custom" (Some "https://feeds.example/custom") 3
  = Raises ValidationError
  ∧ fetch_rss_feeds broken_feed "custom" (Some "https://feeds.example/custom") 1
    = Returns (take 1 (readable broken_feed
                         [entry_of "first" "http://x.example/1";
                          entry_of "second" "not a link";
                          entry_of "third" "http://x.example/3"] "X")).
Proof.
  destruct (rejected_entry_raises_or_drops broken_feed "custom"
              (Some "https://feeds.example/custom") 3) as [Hone _].
  destruct (rejected_entry_raises_or_drops broken_feed "custom"
              (Some "https://feeds.example/custom") 1) as [Hone' _].
  split.
  - apply (Hone [entry_of "first" "http://x.example/1";
                 entry_of "second" "not a link";
                 entry_of "third" "http://x.example/3"] "X").
    + vm_compute. reflexivity.
    + split; vm_compute; [lia|reflexivity].
  - apply (Hone' [entry_of "first" "http://x.example/1";
                  entry_of "second" "not a link";
                  entry_of "third" "http://x.example/3"] "X").
    + vm_compute. reflexivity.
    + intros [_ Hlt]. vm_compute in Hlt. discriminate Hlt.
Defined.

(** ** A source that selects nothing *)

(** X4.  When the source is neither "all" nor a key of [feed_map] with a
    non-empty URL (an unknown name, or "custom" without a custom URL), no
    URL is selected and [fetch_rss_feeds] returns the empty list, whatever
    the feeds would answer. *)
Theorem unknown_source_fetches_nothing (W : World) (selector : string)
    (custom_url : option string) (Q : Z) :
  selector ≠ "all" →
  truthy_opt (feed_map_get (feed_map custom_url) selector) = false →
  select_urls selector custom_url = []
  ∧ fetch_rss_feeds W selector custom_url Q = Returns [].
Proof.
  intros Hall Hkey.
  assert (select_urls selector custom_url = []) as Hurls.
  { unfold select_urls.
    destruct (String.eqb_spec selector "custom") as [->|Hcustom].
    - assert (feed_map_get (feed_map custom_url) "custom" = custom_url) as Hget
        by reflexivity.
      rewrite Hget in Hkey. rewrite Hkey. cbn [andb].
      change (String.eqb "custom" "all") with false. cbv iota.
      rewrite Hget. destruct custom_url as [c|]; [|done].
      simpl in Hkey. by rewrite Hkey.
    - cbn [andb]. destruct (String.eqb_spec selector "all") as [|_]; [done|].
      destruct (feed_map_get (feed_map custom_url) selector) as [u|]; [|done].
      simpl in Hkey. by rewrite Hkey. }
  split; [exact Hurls|].
  unfold fetch_rss_feeds, parsed_feeds. rewrite Hurls. done.
Qed.

Lemma unknown_source_fetches_nothing_witness :
  fetch_rss_feeds three_feeds "mens-helth" None 6 = Returns []
  ∧ fetch_rss_feeds three_feeds "custom" None 6 = Returns [].
Proof.
  split.
  - apply (unknown_source_fetches_nothing three_feeds "mens-helth" None 6).
    + intros H. discriminate H.
    + vm_compute. reflexivity.
  - apply (unknown_source_fetches_nothing three_feeds "custom" None 6).
    + intros H. discriminate H.
    + vm_compute. reflexivity.
Defined.

(** ** The run of the graph *)

Lemma grows_refl (P : Platform) : grows P P.
Proof. repeat split; done. Qed.

Lemma grows_trans (P1 P2 P3 : Platform) : grows P1 P2 → grows P2 P3 → grows P1 P3.
Proof.
  intros (Hd1 & Hj1 & Hs1) (Hd2 & Hj2 & Hs2). repeat split.
  - by etrans.
  - by etrans.
  - auto.
Qed.

Lemma grows_commit (W : World) (art : RSSFeed) (record : DatasetRecord) (P : Platform) :
  grows P (set_value (url_key W art) true
             {| dataset := dataset P ++ [record];
                processed_urls_store := processed_urls_store P;
                journal := journal P ++ [PushData record] |}).
Proof.
  repeat split; simpl.
  - by apply prefix_app_r.
  - rewrite <- (assoc_L (++)). by apply prefix_app_r.
  - intros key Hkey. destruct (decide (url_key W art = key)) as [->|Hne].
    + by rewrite lookup_insert_eq.
    + by rewrite lookup_insert_ne.
Qed.

(** What one call of [process_and_save_article] can do. *)
Lemma process_step (W : World) (st : WorkflowState) (P : Platform) :
  grows P (process_and_save_article W st P).1
  ∧ (length (dataset (process_and_save_article W st P).1) <= S (length (dataset P)))%nat
  ∧ ((process_and_save_article W st P).2 = Raises ValidationError
     ∨ (process_and_save_article W st P).2 = Raises PushError
     ∨ ∃ st' : WorkflowState,
         (process_and_save_article W st P).2 = Returns st'
         ∧ config st' = config st
         ∧ length (articles st') = length (articles st)
         ∧ ((processed_count st < length (articles st))%nat →
            processed_count st' = S (processed_count st))
         ∧ ((length (articles st) <= processed_count st)%nat →
            st' = st ∧ (process_and_save_article W st P).1 = P)).
Proof.
  unfold process_and_save_article.
  destruct (articles st !! processed_count st) as [art|] eqn:Hart.
  2:{ apply lookup_ge_None in Hart. cbn [fst snd].
      split; [apply grows_refl|]. split; [lia|]. right. right.
      exists st. repeat split; try done. lia. }
  apply lookup_lt_Some in Hart.
  destruct (truthy (find_overview W (config st) art)); cbn [negb].
  2:{ cbn [fst snd]. split; [apply grows_refl|]. split; [lia|]. right. right.
      eexists. split; [done|]. cbn. repeat split; try done; lia. }
  destruct (DatasetRecord_of _ _) as [record|].
  2:{ cbn [fst snd]. split; [apply grows_refl|]. split; [lia|]. by left. }
  unfold push_data. destruct (push_data_ok W record); cbn [fst snd].
  - split; [apply grows_commit|]. split.
    + simpl. rewrite length_app. simpl. lia.
    + right. right. eexists. split; [done|]. cbn.
      rewrite length_insert. repeat split; try done; lia.
  - split; [apply grows_refl|]. split; [lia|]. right. by left.
Qed.

Lemma should_continue_spec (st : WorkflowState) :
  String.eqb (should_continue st) "continue" = true
  ↔ (processed_count st < length (articles st))%nat.
Proof.
  unfold should_continue.
  destruct (Nat.ltb_spec (processed_count st) (length (articles st))); split;
    try done; try lia.
Qed.

(** A run that starts at the processing node with articles left and a limit
    above their number. *)
Lemma run_from_process (W : World) (limit : nat) :
  ∀ (st : WorkflowState) (P : Platform),
  (processed_count st < length (articles st))%nat →
  (length (articles st) - processed_count st < limit)%nat →
  grows P (run_graph W limit ProcessAndSaveArticle st P).1
  ∧ (length (dataset (run_graph W limit ProcessAndSaveArticle st P).1)
     <= length (dataset P) + (length (articles st) - processed_count st))%nat
  ∧ ((run_graph W limit ProcessAndSaveArticle st P).2 = Raises ValidationError
     ∨ (run_graph W limit ProcessAndSaveArticle st P).2 = Raises PushError
     ∨ ∃ st' : WorkflowState,
         (run_graph W limit ProcessAndSaveArticle st P).2 = Returns st'
         ∧ config st' = config st
         ∧ length (articles st') = length (articles st)
         ∧ processed_count st' = length (articles st')).
Proof.
  induction limit as [|limit IH]; intros st P Hleft Hlimit; [lia|].
  cbn [run_graph run_node].
  destruct (process_step W st P) as (Hgrow & Hdata & Hres).
  destruct (process_and_save_article W st P) as [P1 r]. cbn [fst snd] in *.
  destruct Hres as [->|[->|(st1 & -> & Hcfg & Hlen & Hnext & _)]].
  - cbn [fst snd]. split; [done|]. split; [lia|]. by left.
  - cbn [fst snd]. split; [done|]. split; [lia|]. right. by left.
  - specialize (Hnext Hleft).
    destruct limit as [|limit']; [lia|].
    destruct (String.eqb (should_continue st1) "continue") eqn:Hcont.
    + apply should_continue_spec in Hcont.
      destruct (IH st1 P1 Hcont ltac:(lia)) as (Hgrow' & Hdata' & Hres').
      split; [by eapply grows_trans|]. split; [lia|].
      destruct Hres' as [->|[->|(st' & -> & Hcfg' & Hlen' & Hdone)]];
        [by left|right; by left|].
      right. right. exists st'. repeat split; try congruence.
    + cbn [fst snd]. split; [done|]. split; [lia|]. right. right.
      exists st1. repeat split; try done.
      assert (¬ (processed_count st1 < length (articles st1))%nat) as Hstop.
      { intros Hc. apply should_continue_spec in Hc. congruence. }
      lia.
Qed.

Lemma single_feed_outcomes (W : World) (Q : Z) (t : string) (it : list FeedEntry) :
  ∀ (i : nat) (arts : list RSSFeed),
  single_feed W Q i it t arts = Raises ValidationError
  ∨ ∃ out, single_feed W Q i it t arts = Returns out.
Proof.
  induction it as [|e later IH]; intros i arts; simpl; [eauto|].
  destruct (Q <=? Z.of_nat i); [eauto|].
  destruct (RSSFeed_of_entry W e t); [apply IH|by left].
Qed.

Lemma collect_outcomes (W : World) (selector : string) (Q : Z) (feeds : list feed) :
  collect W selector Q feeds = Raises ValidationError
  ∨ ∃ out, collect W selector Q feeds = Returns out.
Proof.
  unfold collect. destruct ((1 <? len feeds) && String.eqb selector "all").
  - destruct (while_loop_round_robin W Q (enough_passes feeds) feeds []
                (enough_passes_weight feeds)) as (final & -> & _). right. eauto.
  - destruct (len feeds =? 1); [|right; eauto].
    destruct feeds as [|[it t] ?]; [right; eauto|]. apply single_feed_outcomes.
Qed.

Lemma rss_fetcher_outcomes (W : World) (cfg : InputConfig) (P : Platform) :
  rss_fetcher W (initial_state cfg) P = Raises ValidationError
  ∨ ∃ st : WorkflowState,
      rss_fetcher W (initial_state cfg) P = Returns st
      ∧ config st = cfg
      ∧ processed_count st = 0%nat
      ∧ len (articles st) <= Z.max 0 (maxArticles cfg).
Proof.
  unfold rss_fetcher, fetch_rss_feeds. cbn [config initial_state].
  destruct (collect_outcomes W (cfg_source cfg) (maxArticles cfg)
              (parsed_feeds W (cfg_source cfg) (customFeedUrl cfg)))
    as [->|[all Hall]]; [by left|].
  rewrite Hall. right. eexists. split; [done|]. cbn. split; [done|]. split; [done|].
  apply collect_length in Hall.
  pose proof (recycle_submseteq W (processed_urls_store P) (maxArticles cfg) all) as Hsub.
  apply submseteq_length in Hsub. unfold len in *. lia.
Qed.

(** X5.  The recursion limit [main] gives the graph is enough: for a
    non-negative [maxArticles] the run never ends in the recursion error
    (nor out of fuel or with an index error).  It ends with every article
    processed, or with the validation or push error of one article.  The
    platform only gains, and at most [maxArticles] records are pushed. *)
Theorem pipeline_runs_to_the_end (W : World) (cfg : InputConfig) (P : Platform) :
  0 <= maxArticles cfg →
  grows P (pipeline W cfg P).1
  ∧ len (dataset (pipeline W cfg P).1) <= len (dataset P) + maxArticles cfg
  ∧ ((pipeline W cfg P).2 = Raises ValidationError
     ∨ (pipeline W cfg P).2 = Raises PushError
     ∨ ∃ st : WorkflowState,
         (pipeline W cfg P).2 = Returns st
         ∧ config st = cfg
         ∧ processed_count st = length (articles st)
         ∧ len (articles st) <= maxArticles cfg).
Proof.
  intros HQ. unfold pipeline.
  destruct (Z.to_nat (maxArticles cfg + 5)) as [|limit] eqn:Hlimit; [lia|].
  cbn [run_graph run_node]. fold (initial_state cfg).
  destruct (rss_fetcher_outcomes W cfg P) as [->|(st & -> & Hcfg & Hcount & Hlen)].
  { cbn [fst snd]. split; [apply grows_refl|]. split; [lia|]. by left. }
  destruct limit as [|limit']; [lia|].
  destruct (String.eqb (should_continue st) "continue") eqn:Hcont.
  - apply should_continue_spec in Hcont.
    destruct (run_from_process W (S limit') st P Hcont ltac:(unfold len in *; lia))
      as (Hgrow & Hdata & Hres).
    split; [done|]. split; [unfold len in *; lia|].
    destruct Hres as [->|[->|(st' & -> & Hcfg' & Hlen' & Hdone)]];
      [by left|right; by left|].
    right. right. exists st'. repeat split; try congruence.
    unfold len in *. lia.
  - cbn [fst snd]. split; [apply grows_refl|]. split; [lia|]. right. right.
    exists st. repeat split; try done; [|lia].
    assert (¬ (processed_count st < length (articles st))%nat) as Hstop.
    { intros Hc. apply should_continue_spec in Hc. congruence. }
    lia.
Qed.

Lemma pipeline_runs_to_the_end_witness :
  grows (platform_with half_seen)
        (pipeline two_feeds (example_config "all" 3 true) (platform_with half_seen)).1
  ∧ len (dataset (pipeline two_feeds (example_config "all" 3 true)
                           (platform_with half_seen)).1) <= 0 + 3.
Proof.
  assert (0 <= maxArticles (example_config "all" 3 true)) as HQ by (simpl; lia).
  destruct (pipeline_runs_to_the_end two_feeds (example_config "all" 3 true)
              (platform_with half_seen) HQ) as (Hgrow & Hdata & _).
  split; [exact Hgrow|exact Hdata].
Defined.

(** ** A run in test mode *)

Lemma find_overview_test (W : World) (cfg : InputConfig) (art : RSSFeed) :
  runTestMode cfg = true →
  find_overview W cfg art = summarize_snippets_with_llm dead_feeds "" true.
Proof.
  intros Htest. unfold find_overview, fetch_summary_from_duckduckgo.
  rewrite Htest. reflexivity.
Qed.

Lemma process_test_step (W : World) (st : WorkflowState) (P : Platform) (art : RSSFeed) :
  runTestMode (config st) = true →
  (∀ record, push_data_ok W record = true) →
  articles st !! processed_count st = Some art →
  process_and_save_article W st P
  = ({| dataset := dataset P ++ [test_record art];
        processed_urls_store := <[url_key W art := true]> (processed_urls_store P);
        journal := journal P ++ test_effects W art |},
     Returns {| config := config st;
                articles := <[processed_count st :=
                               with_summary art
                                 (summarize_snippets_with_llm dead_feeds "" true)]>
                              (articles st);
                processed_count := S (processed_count st) |}).
Proof.
  intros Htest Hpush Hart. unfold process_and_save_article.
  rewrite Hart, (find_overview_test W (config st) art Htest).
  change (truthy (summarize_snippets_with_llm dead_feeds "" true)) with true.
  cbn [negb]. unfold analyze_article_summary. rewrite Htest.
  change (DatasetRecord_of _ _) with (Some (test_record art)).
  cbv iota beta. unfold push_data. rewrite Hpush.
  unfold set_value, test_effects. cbn. by rewrite <- (assoc_L (++)).
Qed.

Lemma run_test_mode (W : World) (todo : list RSSFeed) :
  ∀ (limit : nat) (before : list RSSFeed) (st : WorkflowState) (P : Platform),
  runTestMode (config st) = true →
  (∀ record, push_data_ok W record = true) →
  articles st = before ++ todo →
  processed_count st = length before →
  todo ≠ [] →
  (length todo < limit)%nat →
  run_graph W limit ProcessAndSaveArticle st P
  = ({| dataset := dataset P ++ map test_record todo;
        processed_urls_store := commit_all W todo (processed_urls_store P);
        journal := journal P ++ concat (map (test_effects W) todo) |},
     Returns {| config := config st;
                articles :=
                  before ++ map (fun a => with_summary a
                                 (summarize_snippets_with_llm dead_feeds "" true)) todo;
                processed_count := length (before ++ todo) |}).
Proof.
  induction todo as [|art todo IH]; intros limit before st P Htest Hpush Harts Hcount Hne Hlimit;
    [done|].
  destruct limit as [|limit]; [simpl in Hlimit; lia|].
  cbn [run_graph run_node].
  destruct limit as [|limit']; [simpl in Hlimit; lia|].
  assert (articles st !! processed_count st = Some art) as Hart.
  { rewrite Harts, Hcount. by rewrite list_lookup_middle. }
  rewrite (process_test_step W st P art Htest Hpush Hart).
  set (s := summarize_snippets_with_llm dead_feeds "" true).
  assert (<[processed_count st := with_summary art s]> (articles st)
          = (before ++ [with_summary art s]) ++ todo) as Hupd.
  { rewrite Harts, Hcount.
    replace (length before) with (length before + 0)%nat by lia.
    rewrite insert_app_r. simpl. by rewrite <- (assoc_L (++)). }
  rewrite Hupd. unfold should_continue. cbn [articles processed_count].
  rewrite Hcount.
  destruct todo as [|art2 todo].
  - destruct (Nat.ltb_spec (S (length before)) (length ((before ++ [with_summary art s]) ++ [])))
      as [Hlt|_].
    { rewrite app_nil_r, length_app in Hlt. simpl in Hlt. lia. }
    change (String.eqb "end" "continue") with false. cbv iota.
    simpl. rewrite ?app_nil_r, ?length_app. simpl.
    replace (length before + 1)%nat with (S (length before)) by lia. done.
  - destruct (Nat.ltb_spec (S (length before))
                (length ((before ++ [with_summary art s]) ++ art2 :: todo))) as [_|Hge].
    2:{ rewrite !length_app in Hge. simpl in Hge. lia. }
    change (String.eqb "continue" "continue") with true. cbv iota.
    rewrite (IH (S limit') (before ++ [with_summary art s]));
      cbn [config articles processed_count];
      try done.
    + simpl. rewrite <- ?(assoc_L (++)), ?length_app. simpl.
      rewrite ?length_app. simpl.
      replace (length before + 1 + S (length todo))%nat
        with (length before + S (S (length todo)))%nat by lia. done.
    + rewrite length_app. simpl. lia.
    + simpl in Hlimit. simpl. lia.
Qed.

Lemma pipeline_test_mode (W : World) (cfg : InputConfig) (P : Platform)
    (st0 : WorkflowState) :
  runTestMode cfg = true →
  (∀ record, push_data_ok W record = true) →
  0 <= maxArticles cfg →
  rss_fetcher W (initial_state cfg) P = Returns st0 →
  ∃ (P' : Platform) (st' : WorkflowState),
    pipeline W cfg P = (P', Returns st')
    ∧ dataset P' = dataset P ++ map test_record (articles st0)
    ∧ journal P' = journal P ++ concat (map (test_effects W) (articles st0))
    ∧ processed_urls_store P' = commit_all W (articles st0) (processed_urls_store P)
    ∧ processed_count st' = length (articles st0)
    ∧ length (articles st') = length (articles st0).
Proof.
  intros Htest Hpush HQ Hfetch. unfold pipeline.
  destruct (Z.to_nat (maxArticles cfg + 5)) as [|limit] eqn:Hlimit; [lia|].
  cbn [run_graph run_node]. fold (initial_state cfg).
  destruct (rss_fetcher_outcomes W cfg P) as [Hraise|(st & Hst & Hcfg & Hcount & Hlen)];
    [congruence|].
  rewrite Hfetch in Hst. injection Hst as <-. rewrite Hfetch.
  destruct limit as [|limit']; [lia|].
  unfold should_continue. rewrite Hcount.
  destruct (articles st0) as [|a arts] eqn:Harts.
  - change (String.eqb _ "continue") with false. cbv iota.
    exists P, st0. rewrite Harts. simpl. rewrite !app_nil_r. repeat split; done.
  - change (String.eqb _ "continue") with true. cbv iota.
    rewrite (run_test_mode W (a :: arts) (S limit') [] st0 P); try done.
    + eexists _, _. split; [done|]. cbn. rewrite length_map. repeat split; done.
    + by rewrite Hcfg.
    + unfold len in Hlen. simpl in *. lia.
Qed.

(** X6.  In test mode, on a platform that accepts every push, the run
    processes every article [rss_fetcher] selected, in order: it pushes one
    record per article (the article with the canned summary and analysis),
    commits the key of each article right after its push, and ends with all
    articles counted as processed. *)
Theorem test_mode_pushes_every_article (W : World) (cfg : InputConfig) (P : Platform)
    (st0 : WorkflowState) :
  runTestMode cfg = true →
  (∀ record, push_data_ok W record = true) →
  0 <= maxArticles cfg →
  rss_fetcher W (initial_state cfg) P = Returns st0 →
  ∃ (P' : Platform) (st' : WorkflowState),
    pipeline W cfg P = (P', Returns st')
    ∧ dataset P' = dataset P ++ map test_record (articles st0)
    ∧ journal P' = journal P ++ concat (map (test_effects W) (articles st0))
    ∧ processed_urls_store P' = commit_all W (articles st0) (processed_urls_store P)
    ∧ processed_count st' = length (articles st0)
    ∧ length (articles st') = length (articles st0).
Proof. exact (pipeline_test_mode W cfg P st0). Qed.

Lemma test_mode_pushes_every_article_witness :
  ∃ (P' : Platform) (st' : WorkflowState),
    pipeline two_feeds (example_config "all" 3 true) (platform_with half_seen)
    = (P', Returns st')
    ∧ length (dataset P') = 3%nat
    ∧ processed_count st' = 3%nat.
Proof.
  assert (∃ st0, rss_fetcher two_feeds (initial_state (example_config "all" 3 true))
                   (platform_with half_seen) = Returns st0
                 ∧ length (articles st0) = 3%nat) as (st0 & Hst0 & Hthree).
  { eexists. split; [vm_compute; reflexivity|]. vm_compute. reflexivity. }
  destruct (test_mode_pushes_every_article two_feeds (example_config "all" 3 true)
              (platform_with half_seen) st0)
    as (P' & st' & Hrun & Hdata & _ & _ & Hcount & _).
  - reflexivity.
  - intros record. reflexivity.
  - simpl. lia.
  - exact Hst0.
  - exists P', st'. split; [exact Hrun|]. split.
    + rewrite Hdata. simpl. rewrite length_map. exact Hthree.
    + rewrite Hcount. exact Hthree.
Defined.

(** ** A second run over the same feeds *)

Lemma rss_fetcher_result (W : World) (cfg : InputConfig) (P : Platform)
    (all : list RSSFeed) :
  fetch_rss_feeds W (cfg_source cfg) (customFeedUrl cfg) (maxArticles cfg) = Returns all →
  rss_fetcher W (initial_state cfg) P
  = Returns {| config := cfg;
               articles :=
                 filter_new W (processed_urls_store P) all
                 ++ filter (fun a => is_duplicate W (processed_urls_store P) a = true) all;
               processed_count := 0 |}.
Proof.
  intros Hfetch. unfold rss_fetcher. cbn [config initial_state]. rewrite Hfetch.
  cbn [mbind outcome_bind]. rewrite recycle_all; [done|].
  by apply collect_length in Hfetch.
Qed.

Lemma new_then_seen_perm (W : World) (store : gmap string bool) (all : list RSSFeed) :
  filter_new W store all ++ filter (fun a => is_duplicate W store a = true) all ≡ₚ all.
Proof.
  unfold filter_new. rewrite <- filter_seen. apply filter_app_complement.
Qed.

Lemma commit_all_marks (W : World) (arts : list RSSFeed) :
  ∀ (store : gmap string bool) (a : RSSFeed),
  a ∈ arts ∨ store !! url_key W a = Some true →
  commit_all W arts store !! url_key W a = Some true.
Proof.
  unfold commit_all. induction arts as [|b arts IH]; intros store a Ha; simpl.
  - destruct Ha as [Ha|Ha]; [by apply elem_of_nil in Ha|done].
  - apply IH. destruct Ha as [[->|Ha]%elem_of_cons|Ha].
    + right. by rewrite lookup_insert_eq.
    + by left.
    + right. destruct (decide (url_key W b = url_key W a)) as [->|Hne].
      * by rewrite lookup_insert_eq.
      * by rewrite lookup_insert_ne.
Qed.

Lemma commit_all_marked (W : World) (arts : list RSSFeed) :
  ∀ store : gmap string bool,
  (∀ a, a ∈ arts → store !! url_key W a = Some true) →
  commit_all W arts store = store.
Proof.
  unfold commit_all. induction arts as [|b arts IH]; intros store Hall; simpl; [done|].
  rewrite insert_id by (apply Hall; left).
  apply IH. intros a Ha. apply Hall. by right.
Qed.

(** X7.  The store of processed links does not keep a second run from
    processing the same articles again.  In test mode, on a platform that
    accepts every push, a first run pushes a record for every article
    fetched (new ones first); a second run over the same feeds finds them
    all marked, recycles them all, pushes a record for each of them again,
    in the order fetched, and leaves the store as the first run left it. *)
Theorem second_run_pushes_again (W : World) (cfg : InputConfig) (P : Platform)
    (all : list RSSFeed) :
  runTestMode cfg = true →
  (∀ record, push_data_ok W record = true) →
  0 <= maxArticles cfg →
  fetch_rss_feeds W (cfg_source cfg) (customFeedUrl cfg) (maxArticles cfg) = Returns all →
  ∃ (P1 P2 : Platform) (st1 st2 : WorkflowState) (first : list RSSFeed),
    pipeline W cfg P = (P1, Returns st1)
    ∧ pipeline W cfg P1 = (P2, Returns st2)
    ∧ first ≡ₚ all
    ∧ dataset P1 = dataset P ++ map test_record first
    ∧ dataset P2 = dataset P1 ++ map test_record all
    ∧ processed_urls_store P2 = processed_urls_store P1.
Proof.
  intros Htest Hpush HQ Hfetch.
  destruct (pipeline_test_mode W cfg P _ Htest Hpush HQ (rss_fetcher_result W cfg P all Hfetch))
    as (P1 & st1 & Hrun1 & Hdata1 & _ & Hstore1 & _).
  cbn [articles] in Hdata1, Hstore1.
  set (first := filter_new W (processed_urls_store P) all
                ++ filter (fun a => is_duplicate W (processed_urls_store P) a = true) all)
    in *.
  assert (first ≡ₚ all) as Hperm by apply new_then_seen_perm.
  assert (∀ a, a ∈ all → processed_urls_store P1 !! url_key W a = Some true) as Hmarked.
  { intros a Ha. rewrite Hstore1. apply commit_all_marks. left. by rewrite Hperm. }
  assert (filter_new W (processed_urls_store P1) all = []) as Hnew.
  { unfold filter_new. apply filter_none. intros a Ha.
    rewrite (is_duplicate_seen W _ a (Hmarked a Ha)). done. }
  assert (filter (fun a => is_duplicate W (processed_urls_store P1) a = true) all = all)
    as Hseen.
  { apply filter_every. intros a Ha. apply is_duplicate_seen, Hmarked, Ha. }
  destruct (pipeline_test_mode W cfg P1 _ Htest Hpush HQ
              (rss_fetcher_result W cfg P1 all Hfetch))
    as (P2 & st2 & Hrun2 & Hdata2 & _ & Hstore2 & _).
  cbn [articles] in Hdata2, Hstore2. rewrite Hnew, Hseen in Hdata2, Hstore2.
  simpl in Hdata2, Hstore2.
  exists P1, P2, st1, st2, first. repeat split; try done.
  rewrite Hstore2. by apply commit_all_marked.
Qed.

Lemma second_run_pushes_again_witness :
  ∃ (P1 P2 : Platform),
    (pipeline two_feeds (example_config "all" 3 true) (platform_with ∅)).1 = P1
    ∧ (pipeline two_feeds (example_config "all" 3 true) P1).1 = P2
    ∧ length (dataset P1) = 3%nat
    ∧ length (dataset P2) = 6%nat
    ∧ processed_urls_store P2 = processed_urls_store P1.
Proof.
  assert (∃ all, fetch_rss_feeds two_feeds "all" None 3 = Returns all
                 ∧ length all = 3%nat) as (all & Hall & Hthree).
  { eexists. split; [vm_compute; reflexivity|]. vm_compute. reflexivity. }
  destruct (second_run_pushes_again two_feeds (example_config "all" 3 true)
              (platform_with ∅) all)
    as (P1 & P2 & st1 & st2 & first & Hrun1 & Hrun2 & Hperm & Hdata1 & Hdata2 & Hstore).
  - reflexivity.
  - intros record. reflexivity.
  - simpl. lia.
  - exact Hall.
  - exists P1, P2. rewrite Hrun1, Hrun2. split; [done|]. split; [done|].
    assert (length (dataset P1) = 3%nat) as Hone.
    { rewrite Hdata1. simpl. rewrite length_map, Hperm. exact Hthree. }
    split; [exact Hone|]. split; [|exact Hstore].
    rewrite Hdata2, length_app, length_map, Hone, Hthree. done.
Defined.

(** ** The search with retries: time slept and the way to a summary *)

Lemma sleep_total_backoff (n : nat) :
  (n < 3)%nat →
  sleep_total (backoff 0 n)
  = match length (filter (fun e => is_request e = true) (backoff 0 n)) with
    | 0%nat | 1%nat => 0
    | 2%nat => 2
    | _ => 6
    end.
Proof. intros Hn. destruct n as [|[|[|n]]]; [done|done|done|lia]. Qed.

(** X8.  [fetch_summary_from_google] sleeps 6 seconds at most: nothing
    when it makes one request or none, 2 seconds when it makes two requests
    and 2 + 4 seconds when it makes three. *)
Theorem search_sleeps_six_seconds_at_most (W : Gdelt.SearchWorld) (query : string)
    (is_test_mode : bool) :
  sleep_total (Gdelt.fetch_summary_from_google W query is_test_mode).2
  = match length (filter (fun e => is_request e = true)
                         (Gdelt.fetch_summary_from_google W query is_test_mode).2) with
    | 0%nat | 1%nat => 0
    | 2%nat => 2
    | _ => 6
    end
  ∧ 0 <= sleep_total (Gdelt.fetch_summary_from_google W query is_test_mode).2 <= 6.
Proof.
  assert (∀ n, (n < 3)%nat → 0 <= sleep_total (backoff 0 n) <= 6) as Hbound.
  { intros [|[|[|n]]] Hn; try lia; vm_compute; split; discriminate. }
  unfold Gdelt.fetch_summary_from_google.
  destruct is_test_mode; [cbn; split; [done|lia]|].
  destruct (truthy_opt (Gdelt.google_api_key W)); [|cbn; split; [done|lia]].
  destruct (truthy_opt (Gdelt.google_cse_id W)); [|cbn; split; [done|lia]].
  cbn [negb orb]. change (Z.to_nat Gdelt.MAX_RETRIES) with 3%nat.
  destruct (search_attempts_shape W query 3 0 ltac:(lia) ltac:(lia))
    as (n & Hn & -> & _).
  split; [by apply sleep_total_backoff|by apply Hbound].
Qed.

Lemma search_attempts_success (W : Gdelt.SearchWorld) (query : string) (count : nat) :
  ∀ first : nat,
  (first + count = 3)%nat → (0 < count)%nat →
  (Gdelt.search_attempts W query (seq first count)).1 ≠ "" →
  ∃ (n : nat) (status : Z) (items : list (option string)),
    (n < count)%nat
    ∧ (∀ k : nat, (first <= k < first + n)%nat →
         ∃ body, Gdelt.http_get W k query = Gdelt.Response 403 body)
    ∧ Gdelt.http_get W (first + n)%nat query
      = Gdelt.Response status (Gdelt.BodyItems items)
    ∧ status ≠ 403
    ∧ Gdelt.raise_for_status W status = false
    ∧ items ≠ []
    ∧ Gdelt.search_attempts W query (seq first count)
      = (Gdelt.llm_summary W (snippets_of items), backoff first n).
Proof.
  induction count as [|count IH]; intros first Hbound Hpos; [lia|].
  cbn [seq Gdelt.search_attempts].
  destruct (Gdelt.http_get W first query) as [|status body] eqn:Hget; [done|].
  destruct (Z.eqb_spec status 403) as [->|Hne].
  - unfold Gdelt.MAX_RETRIES.
    destruct (Z.ltb_spec (Z.of_nat first) (3 - 1)) as [Hearly|Hlast]; [|done].
    destruct count as [|count]; [lia|].
    specialize (IH (S first) ltac:(lia) ltac:(lia)).
    destruct (Gdelt.search_attempts W query (seq (S first) (S count))) as [r evs].
    cbn [fst snd] in *. intros Hr.
    destruct (IH Hr) as (n & status & items & Hn & Hretry & Hok & Hst & Hraise & Hitems & Heq).
    injection Heq as -> ->.
    exists (S n), status, items. split; [lia|]. split.
    { intros k Hk. destruct (decide (k = first)) as [->|]; [eauto|]. apply Hretry. lia. }
    replace (first + S n)%nat with (S first + n)%nat by lia.
    repeat split; done.
  - destruct (Gdelt.raise_for_status W status) eqn:Hraise; [done|].
    destruct body as [|[|item items]]; [done|done|].
    cbn [fst]. intros _.
    exists 0%nat, status, (item :: items). rewrite Nat.add_0_r.
    split; [lia|]. split; [intros; exfalso; lia|]. repeat split; done.
Qed.

(** X9.  Outside test mode [fetch_summary_from_google] returns a non-empty
    summary only on one path: the requests before the last one were all
    answered with status 403, the last one was answered with a status other
    than 403 that [raise_for_status] accepts and with at least one item, and
    the summary is what the model made of the snippets of these items. *)
Theorem summary_needs_successful_request (W : Gdelt.SearchWorld) (query : string) :
  (Gdelt.fetch_summary_from_google W query false).1 ≠ "" →
  ∃ (n : nat) (status : Z) (items : list (option string)),
    (n < 3)%nat
    ∧ truthy_opt (Gdelt.google_api_key W) = true
    ∧ truthy_opt (Gdelt.google_cse_id W) = true
    ∧ (∀ k : nat, (k < n)%nat →
         ∃ body, Gdelt.http_get W k query = Gdelt.Response 403 body)
    ∧ Gdelt.http_get W n query = Gdelt.Response status (Gdelt.BodyItems items)
    ∧ status ≠ 403
    ∧ Gdelt.raise_for_status W status = false
    ∧ items ≠ []
    ∧ Gdelt.fetch_summary_from_google W query false
      = (Gdelt.llm_summary W (snippets_of items), backoff 0 n).
Proof.
  unfold Gdelt.fetch_summary_from_google.
  destruct (truthy_opt (Gdelt.google_api_key W)); [|done].
  destruct (truthy_opt (Gdelt.google_cse_id W)); [|done].
  cbn [negb orb]. change (Z.to_nat Gdelt.MAX_RETRIES) with 3%nat.
  intros Hsome.
  destruct (search_attempts_success W query 3 0 ltac:(lia) ltac:(lia) Hsome)
    as (n & status & items & Hn & Hretry & Hok & Hst & Hraise & Hitems & Heq).
  exists n, status, items. repeat split; try done.
  intros k Hk. apply Hretry. lia.
Qed.

Lemma summary_needs_successful_request_witness :
  Gdelt.fetch_summary_from_google flaky_search "query" false
  = ("a summary", [Gdelt.Request 0; Gdelt.Sleep 2; Gdelt.Request 1]).
Proof.
  destruct (summary_needs_successful_request flaky_search "query")
    as (n & status & items & Hn & _ & _ & _ & _ & _ & _ & _ & Heq).
  - vm_compute. intros H. discriminate H.
  - vm_compute. reflexivity.
Defined.

(** ** Cleaning a feed summary *)

Lemma append_cons (c : Ascii.ascii) (s t : string) :
  String c s +:+ t = String c (s +:+ t).
Proof. reflexivity. Qed.

Lemma append_nil_l (t : string) : "" +:+ t = t.
Proof. reflexivity. Qed.

Lemma append_nil_r (s : string) : s +:+ "" = s.
Proof. induction s as [|c s IH]; [done|]. by rewrite append_cons, IH. Qed.

Lemma append_assoc (s1 s2 s3 : string) : (s1 +:+ s2) +:+ s3 = s1 +:+ (s2 +:+ s3).
Proof.
  induction s1 as [|c s1 IH]; [done|]. by rewrite !append_cons, IH.
Qed.

Lemma every_char_append (p : Ascii.ascii → bool) (s1 s2 : string) :
  every_char p (s1 +:+ s2) = every_char p s1 && every_char p s2.
Proof.
  induction s1 as [|c s1 IH]; [done|].
  rewrite append_cons. simpl. by rewrite IH, andb_assoc.
Qed.

Lemma append_not_empty (s : string) (c : Ascii.ascii) : s +:+ String c "" ≠ "".
Proof. by destruct s. Qed.

(** Reading a word in front of the rest of a text. *)
Lemma py_split_from_word (w : string) :
  ∀ (acc : option string) (s : string),
  every_char (fun c => negb (py_isspace c)) w = true →
  w ≠ "" →
  py_split_from acc (w +:+ s) = py_split_from (Some (default "" acc +:+ w)) s.
Proof.
  induction w as [|c w IH]; intros acc s Hfree Hne; [done|].
  simpl in Hfree. apply andb_true_iff in Hfree as [Hc Hfree].
  apply negb_true_iff in Hc. rewrite append_cons. cbn [py_split_from]. rewrite Hc.
  destruct w as [|c2 w].
  - by rewrite append_nil_l.
  - rewrite IH by done. cbn [default]. unfold id. by rewrite append_assoc.
Qed.

Lemma py_split_from_blank (w : string) (s : string) :
  py_split_from (Some w) (" " +:+ s) = w :: py_split_from None s.
Proof. done. Qed.

Lemma py_split_join (ws : list string) :
  Forall is_word ws → py_split (String.concat " " ws) = ws.
Proof.
  unfold py_split. induction 1 as [|w ws [Hne Hfree] Hws IH]; [done|].
  destruct ws as [|w2 ws].
  - simpl. rewrite <- (append_nil_r w) at 1.
    by rewrite py_split_from_word.
  - change (String.concat " " (w :: w2 :: ws))
      with (w +:+ (" " +:+ String.concat " " (w2 :: ws))).
    rewrite py_split_from_word by done. cbn [default].
    rewrite py_split_from_blank. f_equal. exact IH.
Qed.

Lemma py_split_from_words (p : Ascii.ascii → bool) (s : string) :
  ∀ acc : option string,
  every_char p s = true →
  match acc with
  | Some w => is_word w ∧ every_char p w = true
  | None => True
  end →
  Forall (fun w => is_word w ∧ every_char p w = true) (py_split_from acc s).
Proof.
  induction s as [|c s IH]; intros acc Hs Hacc; simpl.
  { destruct acc; [by constructor|constructor]. }
  simpl in Hs. apply andb_true_iff in Hs as [Hc Hs].
  destruct (py_isspace c) eqn:Hspace.
  - destruct acc as [w|]; [constructor; [done|]|]; by apply IH.
  - apply IH; [done|].
    assert (every_char (fun c => negb (py_isspace c)) (default "" acc) = true
            ∧ every_char p (default "" acc) = true) as [Hfree Hp].
    { destruct acc as [w|]; [|done]. destruct Hacc as [[_ Hw] Hpw]. done. }
    split; [split|].
    + apply append_not_empty.
    + rewrite every_char_append, Hfree. simpl. by rewrite Hspace.
    + rewrite every_char_append, Hp. simpl. by rewrite Hc.
Qed.

Lemma py_split_words (s : string) : Forall is_word (py_split s).
Proof.
  eapply Forall_impl.
  - apply (py_split_from_words (fun _ => true) s None); [|done].
    induction s; simpl; done.
  - intros w [Hw _]. exact Hw.
Qed.

Lemma every_char_join (p : Ascii.ascii → bool) (ws : list string) :
  p (Ascii.ascii_of_nat 32) = true →
  Forall (fun w => every_char p w = true) ws →
  every_char p (String.concat " " ws) = true.
Proof.
  intros Hblank. induction 1 as [|w ws Hw Hws IH]; [done|].
  destruct ws as [|w2 ws]; [done|].
  change (String.concat " " (w :: w2 :: ws))
    with (w +:+ (" " +:+ String.concat " " (w2 :: ws))).
  rewrite every_char_append, Hw.
  change (every_char p (" " +:+ String.concat " " (w2 :: ws)))
    with (p (Ascii.ascii_of_nat 32) && every_char p (String.concat " " (w2 :: ws))).
  by rewrite Hblank, IH.
Qed.

Lemma re_sub_tags_tag_free (s : string) : tag_free s → re_sub_tags s = s.
Proof.
  unfold tag_free, re_sub_tags. induction s as [|c s IH]; simpl; [done|].
  intros [Hc Hs]%andb_true_iff. apply negb_true_iff in Hc. rewrite Hc.
  by rewrite IH.
Qed.

Lemma strip_html_tags_value (t : string) :
  strip_html_tags (Some t) = String.concat " " (py_split (re_sub_tags t)).
Proof.
  unfold strip_html_tags. destruct t; [done|done].
Qed.

(** X10.  [strip_html_tags] returns the words of the text without its
    tags, separated by single blanks: splitting the result gives the words
    back, and cleaning the blanks of the result again changes nothing.  A
    missing or empty text gives the empty string.  On a text without the
    sign that opens a tag only the blanks change, and the function is
    idempotent. *)
Theorem strip_html_tags_normalises (t : string) :
  strip_html_tags None = ""
  ∧ strip_html_tags (Some "") = ""
  ∧ py_split (strip_html_tags (Some t)) = py_split (re_sub_tags t)
  ∧ String.concat " " (py_split (strip_html_tags (Some t))) = strip_html_tags (Some t)
  ∧ (tag_free t →
     strip_html_tags (Some t) = String.concat " " (py_split t)
     ∧ strip_html_tags (Some (strip_html_tags (Some t))) = strip_html_tags (Some t)).
Proof.
  split; [done|]. split; [done|].
  assert (py_split (strip_html_tags (Some t)) = py_split (re_sub_tags t)) as Hwords.
  { rewrite strip_html_tags_value. apply py_split_join, py_split_words. }
  split; [exact Hwords|]. split.
  { rewrite Hwords. by rewrite strip_html_tags_value. }
  intros Hfree. rewrite !strip_html_tags_value, (re_sub_tags_tag_free t Hfree).
  split; [done|].
  rewrite re_sub_tags_tag_free.
  - by rewrite py_split_join by apply py_split_words.
  - apply every_char_join; [done|].
    eapply Forall_impl.
    + apply (py_split_from_words _ t None Hfree). done.
    + intros w [_ Hw]. exact Hw.
Qed.

Lemma strip_html_tags_normalises_witness :
  strip_html_tags (Some "  two   words ") = String.concat " " (py_split "  two   words ")
  ∧ strip_html_tags (Some (strip_html_tags (Some "  two   words ")))
    = strip_html_tags (Some "  two   words ").
Proof.
  destruct (strip_html_tags_normalises "  two   words ") as (_ & _ & _ & _ & Hfree).
  apply Hfree. vm_compute. reflexivity.
Defined.

Lemma join_words_empty (ws : list string) :
  Forall is_word ws → String.concat " " ws = "" → ws = [].
Proof.
  intros Hws. destruct Hws as [|w ws [Hne _] _]; [done|].
  destruct w as [|c w]; [done|]. by destruct ws.
Qed.

(** X11.  The summary of the feed is the last resort of
    [process_and_save_article], and its length is tested before its tags are
    removed.  When both searches find nothing, the summary of a feed entry
    is used when it has 50 characters or more, and what is used are its
    words without the tags: the article is skipped when the summary is
    shorter or when it holds nothing but tags and blanks, and a skip leaves
    the platform as it was and moves on to the next article. *)
Theorem feed_summary_is_last_resort (W : World) (cfg : InputConfig) (art : RSSFeed)
    (text : string) :
  searches_fail W cfg art →
  summary art = Some text →
  find_overview W cfg art
  = (if 50 <=? str_len (py_strip text)
     then String.concat " " (py_split (re_sub_tags text)) else "")
  ∧ (find_overview W cfg art = ""
     ↔ str_len (py_strip text) < 50 ∨ py_split (re_sub_tags text) = [])
  ∧ (find_overview W cfg art = "" →
     ∀ (state : WorkflowState) (P : Platform),
       config state = cfg →
       articles state !! processed_count state = Some art →
       process_and_save_article W state P
       = (P, Returns {| config := cfg; articles := articles state;
                        processed_count := S (processed_count state) |})).
Proof.
  intros [Hstrict Hloose] Htext.
  assert (find_overview W cfg art
          = (if 50 <=? str_len (py_strip text)
             then String.concat " " (py_split (re_sub_tags text)) else "")) as Hvalue.
  { unfold find_overview. rewrite Hstrict. cbn [truthy String.eqb negb].
    rewrite Hloose, Htext. cbn [truthy String.eqb negb truthy_opt default andb].
    unfold id. destruct (Z.leb_spec 50 (str_len (py_strip text))) as [Hlong|_].
    - destruct text as [|c text];
        [change (str_len (py_strip "")) with 0 in Hlong; lia|].
      cbn [truthy String.eqb negb andb]. apply strip_html_tags_value.
    - by rewrite andb_false_r. }
  split; [exact Hvalue|]. split.
  - rewrite Hvalue. destruct (Z.leb_spec 50 (str_len (py_strip text))) as [Hlong|Hshort].
    + split.
      * intros Hempty. right. by apply join_words_empty; [apply py_split_words|].
      * intros [Hshort| ->]; [lia|done].
    + split; [by left|done].
  - intros Hempty state P Hcfg Hart. unfold process_and_save_article.
    rewrite Hart, Hcfg, Hempty. done.
Qed.

Lemma feed_summary_is_last_resort_witness :
  find_overview dead_feeds (example_config "all" 3 false) tags_only_article = ""
  ∧ 50 <= str_len (py_strip (default "" (summary tags_only_article))).
Proof.
  assert (searches_fail dead_feeds (example_config "all" 3 false) tags_only_article)
    as Hfail by (split; vm_compute; reflexivity).
  destruct (feed_summary_is_last_resort dead_feeds (example_config "all" 3 false)
              tags_only_article _ Hfail eq_refl) as (_ & Hskip & _).
  split; [|vm_compute; discriminate].
  apply Hskip. right. vm_compute. reflexivity.
Defined.

Lemma omap_usable {A B} (p : A → bool) (g : A → B) (l : list A) :
  omap (fun x => if p x then Some (g x) else None) l
  = map g (filter (fun x => p x = true) l).
Proof.
  induction l as [|x l IH]; [done|]. cbn [omap list_omap].
  rewrite filter_cons. destruct (p x) eqn:Hx.
  - rewrite decide_True by done. cbn [map]. f_equal. exact IH.
  - rewrite decide_False by congruence. exact IH.
Qed.

(** X21.  Outside test mode [fetch_summary_from_duckduckgo] returns a
    summary only when the search answered and at least one result has a
    snippet: the model is asked about the results with a snippet only, in
    their order, and the summary is its answer without the blanks around
    it.  A time limit that reads "any" in any letter case is passed to the
    search as no limit. *)
Theorem duckduckgo_summary_needs_a_snippet (W : World) (query region time_limit : string) :
  fetch_summary_from_duckduckgo W query false region time_limit ≠ "" →
  ∃ (search_results : list (option string * option string))
    (item : option string * option string),
    duckduckgo_search W query region
      (if String.eqb (py_lower time_limit) "any" then None else Some time_limit)
    = SearchResults search_results
    ∧ item ∈ search_results
    ∧ truthy_opt item.2 = true
    ∧ fetch_summary_from_duckduckgo W query false region time_limit
      = summarize_snippets_with_llm W (snippets_for_prompt search_results) false.
Proof.
  unfold fetch_summary_from_duckduckgo.
  assert ((if truthy time_limit && String.eqb (py_lower time_limit) "any"
           then None else Some time_limit)
          = (if String.eqb (py_lower time_limit) "any" then None else Some time_limit))
    as ->.
  { destruct time_limit; [done|done]. }
  destruct (duckduckgo_search W query region _) as [|search_results] eqn:Hsearch; [done|].
  destruct search_results as [|first others]; [done|].
  rewrite (omap_usable (fun item : option string * option string => truthy_opt item.2)
             (fun item : option string * option string =>
                "Title: " +:+ default "N/A" item.1 +:+ newline
                +:+ "Snippet: " +:+ default "" item.2)).
  fold (snippets_for_prompt (first :: others)).
  destruct (truthy (snippets_for_prompt (first :: others))) eqn:Htext; [|done].
  intros _. exists (first :: others).
  destruct (filter (fun item : option string * option string => truthy_opt item.2 = true)
              (first :: others)) as [|item usable] eqn:Husable.
  { unfold snippets_for_prompt in Htext. by rewrite Husable in Htext. }
  assert (item ∈ filter (fun item : option string * option string =>
                           truthy_opt item.2 = true) (first :: others)) as Hitem
    by (rewrite Husable; left).
  apply list_elem_of_filter in Hitem as [Hsnippet Hin].
  by exists item.
Qed.

Lemma duckduckgo_summary_needs_a_snippet_witness :
  ∃ (search_results : list (option string * option string))
    (item : option string * option string),
    duckduckgo_search answering_search "Title" "wt-wt" None = SearchResults search_results
    ∧ item ∈ search_results
    ∧ truthy_opt item.2 = true.
Proof.
  destruct (duckduckgo_summary_needs_a_snippet answering_search "Title" "wt-wt" "Any")
    as (search_results & item & Hsearch & Hin & Hsnippet & _).
  - vm_compute. discriminate.
  - exists search_results, item. split; [exact Hsearch|]. split; [exact Hin|exact Hsnippet].
Defined.

(** ** Dates of the GDELT actor *)

Import GdeltMain.

Lemma digit_value_spec (c : Ascii.ascii) (x : Z) :
  digit_value c = Some x → 0 <= x <= 9 ∧ c = digit_char x.
Proof.
  unfold digit_value, digit_char.
  destruct (_ && _) eqn:Hrange; [|done]. intros [= <-].
  apply andb_true_iff in Hrange as [Hlow%Nat.leb_le Hhigh%Nat.leb_le].
  split; [lia|].
  replace (Z.to_nat (48 + (Z.of_nat (Ascii.nat_of_ascii c) - 48)))
    with (Ascii.nat_of_ascii c) by lia.
  symmetry. apply Ascii.ascii_nat_embedding.
Qed.

Ltac each_digit x :=
  let H := fresh in
  assert (x = 0 ∨ x = 1 ∨ x = 2 ∨ x = 3 ∨ x = 4 ∨ x = 5 ∨ x = 6 ∨ x = 7 ∨ x = 8 ∨ x = 9)
    as H by lia;
  destruct H as [->|[->|[->|[->|[->|[->|[->|[->|[->| ->]]]]]]]]].

Lemma digit_value_char (x : Z) :
  0 <= x <= 9 → digit_value (digit_char x) = Some x.
Proof. intros Hx. each_digit x; reflexivity. Qed.

Lemma digit_char_inj (x y : Z) :
  0 <= x <= 9 → 0 <= y <= 9 → digit_char x = digit_char y → x = y.
Proof.
  intros Hx Hy Heq.
  assert (digit_value (digit_char x) = digit_value (digit_char y)) as Hv by by rewrite Heq.
  rewrite !digit_value_char in Hv by done. by injection Hv.
Qed.

Lemma digit_char_isdigit (x : Z) :
  0 <= x <= 9 → py_isdigit_char (digit_char x) = true.
Proof. intros Hx. each_digit x; reflexivity. Qed.

Lemma isdigit_not_space (c : Ascii.ascii) :
  py_isdigit_char c = true → py_isspace c = false.
Proof.
  destruct c as [[] [] [] [] [] [] [] []]; vm_compute; congruence.
Qed.

Ltac div_lia := Z.div_mod_to_equations; lia.

Lemma pad2_digits (x y : Z) :
  0 <= x <= 9 → 0 <= y <= 9 →
  pad2 (10 * x + y) = String (digit_char x) (String (digit_char y) "").
Proof.
  intros Hx Hy. unfold pad2.
  replace ((10 * x + y) / 10) with x by div_lia.
  replace ((10 * x + y) mod 10) with y by div_lia.
  done.
Qed.

Lemma pad4_digits (x y z w : Z) :
  0 <= x <= 9 → 0 <= y <= 9 → 0 <= z <= 9 → 0 <= w <= 9 →
  pad4 (1000 * x + 100 * y + 10 * z + w)
  = String (digit_char x) (String (digit_char y)
      (String (digit_char z) (String (digit_char w) ""))).
Proof.
  intros Hx Hy Hz Hw. unfold pad4.
  replace ((1000 * x + 100 * y + 10 * z + w) / 1000) with x by div_lia.
  replace ((1000 * x + 100 * y + 10 * z + w) / 100 mod 10) with y by div_lia.
  replace ((1000 * x + 100 * y + 10 * z + w) mod 100) with (10 * z + w) by div_lia.
  by rewrite pad2_digits.
Qed.

Lemma pad2_inj (n n' : Z) :
  0 <= n <= 99 → 0 <= n' <= 99 → pad2 n = pad2 n' → n = n'.
Proof.
  intros Hn Hn' Heq. unfold pad2 in Heq.
  injection Heq as Hhigh Hlow.
  apply digit_char_inj in Hhigh; [|div_lia..].
  apply digit_char_inj in Hlow; [|div_lia..].
  div_lia.
Qed.

Lemma pad4_inj (n n' : Z) :
  0 <= n <= 9999 → 0 <= n' <= 9999 → pad4 n = pad4 n' → n = n'.
Proof.
  intros Hn Hn' Heq. unfold pad4 in Heq.
  injection Heq as Hthousands Hhundreds Htens Hunits.
  apply digit_char_inj in Hthousands; [|div_lia..].
  apply digit_char_inj in Hhundreds; [|div_lia..].
  apply digit_char_inj in Htens; [|div_lia..].
  apply digit_char_inj in Hunits; [|div_lia..].
  div_lia.
Qed.

(** *** What a token takes from a text *)

Lemma two_digits_inv (ok : Z → Z → bool) (s : string) (v : Z) (r : string) :
  (v, r) ∈ two_digits ok s → 0 <= v <= 99 ∧ s = pad2 v +:+ r.
Proof.
  unfold two_digits. destruct s as [|a [|b rest]]; [by intros ?%elem_of_nil..|].
  destruct (digit_value a) as [x|] eqn:Hx; [|by intros ?%elem_of_nil].
  destruct (digit_value b) as [y|] eqn:Hy; [|by intros ?%elem_of_nil].
  destruct (ok x y); [|by intros ?%elem_of_nil].
  intros [= -> ->]%list_elem_of_singleton.
  apply digit_value_spec in Hx as [Hxr ->]. apply digit_value_spec in Hy as [Hyr ->].
  split; [lia|]. by rewrite pad2_digits.
Qed.

Lemma one_digit_inv (ok : Z → bool) (s : string) (v : Z) (r : string) :
  (v, r) ∈ one_digit ok s → ∃ a : Ascii.ascii, s = String a r ∧ digit_value a = Some v.
Proof.
  unfold one_digit. destruct s as [|a rest]; [by intros ?%elem_of_nil|].
  destruct (digit_value a) as [x|] eqn:Hx; [|by intros ?%elem_of_nil].
  destruct (ok x); [|by intros ?%elem_of_nil].
  intros [= -> ->]%list_elem_of_singleton. by exists a.
Qed.

Ltac narrow_token :=
  intros s v r Hin;
  repeat (apply elem_of_app in Hin as [Hin|Hin]);
  first [ left; exact (two_digits_inv _ _ _ _ Hin)
        | right; destruct (one_digit_inv _ _ _ _ Hin) as (a & -> & _); by exists a ].

Lemma token_m_narrow : narrow token_m.
Proof. unfold token_m. narrow_token. Qed.

Lemma token_H_narrow : narrow token_H.
Proof. unfold token_H. narrow_token. Qed.

Lemma token_M_narrow : narrow token_M.
Proof. unfold token_M. narrow_token. Qed.

Lemma token_S_narrow : narrow token_S.
Proof. unfold token_S. narrow_token. Qed.

(** The day may also be a blank and a digit. *)
Lemma token_d_inv (s : string) (v : Z) (r : string) :
  (v, r) ∈ token_d s →
  (0 <= v <= 99 ∧ s = pad2 v +:+ r)
  ∨ (∃ a : Ascii.ascii, s = String a r)
  ∨ (∃ b : Ascii.ascii, s = String (Ascii.ascii_of_nat 32) (String b r)
                         ∧ digit_value b = Some v).
Proof.
  unfold token_d. intros Hin.
  repeat (apply elem_of_app in Hin as [Hin|Hin]);
    try (left; exact (two_digits_inv _ _ _ _ Hin)).
  - right; left. destruct (one_digit_inv _ _ _ _ Hin) as (a & -> & _). by exists a.
  - right; right. unfold blank_digit in Hin.
    destruct s as [|a rest]; [by apply elem_of_nil in Hin|].
    destruct (Ascii.eqb_spec a (Ascii.ascii_of_nat 32)) as [->|_];
      [|by apply elem_of_nil in Hin].
    destruct (one_digit_inv _ _ _ _ Hin) as (b & -> & Hb). by exists b.
Qed.

Lemma token_Y_inv (s : string) (v : Z) (r : string) :
  (v, r) ∈ token_Y s → 0 <= v <= 9999 ∧ s = pad4 v +:+ r.
Proof.
  unfold token_Y.
  destruct s as [|a [|b [|c [|d rest]]]]; [by intros ?%elem_of_nil..|].
  destruct (digit_value a) as [x|] eqn:Hx; [|by intros ?%elem_of_nil].
  destruct (digit_value b) as [y|] eqn:Hy; [|by intros ?%elem_of_nil].
  destruct (digit_value c) as [z|] eqn:Hz; [|by intros ?%elem_of_nil].
  destruct (digit_value d) as [w|] eqn:Hw; [|by intros ?%elem_of_nil].
  intros [= -> ->]%list_elem_of_singleton.
  apply digit_value_spec in Hx as [Hxr ->]. apply digit_value_spec in Hy as [Hyr ->].
  apply digit_value_spec in Hz as [Hzr ->]. apply digit_value_spec in Hw as [Hwr ->].
  split; [lia|]. by rewrite pad4_digits.
Qed.

Lemma token_char_inv (c : Ascii.ascii) (s : string) (v : Z) (r : string) :
  (v, r) ∈ token_char c s → v = 0 ∧ s = String c r.
Proof.
  unfold token_char. destruct s as [|a rest]; [by intros ?%elem_of_nil|].
  destruct (Ascii.eqb_spec a c) as [->|_]; [|by intros ?%elem_of_nil].
  by intros [= -> ->]%list_elem_of_singleton.
Qed.

Lemma first_match_Some {A B} (f : A → option B) (l : list A) (y : B) :
  first_match f l = Some y → ∃ x : A, x ∈ l ∧ f x = Some y.
Proof.
  induction l as [|x l IH]; [done|]. simpl.
  destruct (f x) as [y'|] eqn:Hx.
  - intros [= ->]. exists x. split; [left|done].
  - intros (x' & Hin & Hx')%IH. exists x'. split; [by right|done].
Qed.

(** One step of a match: the token took [v] and left [r]. *)
Lemma regex_match_step (tok : token) (later : list token) (s : string)
    (values : list Z) (rest : string) :
  regex_match (tok :: later) s = Some (values, rest) →
  ∃ (v : Z) (r : string) (values' : list Z),
    (v, r) ∈ tok s ∧ regex_match later r = Some (values', rest)
    ∧ values = v :: values'.
Proof.
  cbn [regex_match]. intros ([v r] & Hin & Hlater)%first_match_Some.
  cbn [fst snd] in Hlater.
  destruct (regex_match later r) as [[values' rest']|] eqn:Hm; [|done].
  injection Hlater as <- <-. by exists v, r, values'.
Qed.

Lemma regex_match_head (tok : token) (later : list token) (s : string) (v : Z)
    (r : string) (others : list (Z * string)) (values : list Z) (rest : string) :
  tok s = (v, r) :: others →
  regex_match later r = Some (values, rest) →
  regex_match (tok :: later) s = Some (v :: values, rest).
Proof. intros Htok Hlater. cbn [regex_match]. rewrite Htok. simpl. by rewrite Hlater. Qed.

Lemma length_append (s t : string) :
  String.length (s +:+ t) = (String.length s + String.length t)%nat.
Proof. induction s as [|c s IH]; [done|]. rewrite append_cons. simpl. by rewrite IH. Qed.

Lemma length_pad2 (n : Z) : String.length (pad2 n) = 2%nat.
Proof. done. Qed.

Lemma length_pad4 (n : Z) : String.length (pad4 n) = 4%nat.
Proof. done. Qed.

(** The match of a timestamp of 14 digits takes two digits for every
    field. *)
Lemma timestamp_match (s : string) (values : list Z) :
  regex_match [token_Y; token_m; token_d; token_H; token_M; token_S] s
  = Some (values, "") →
  String.length s = 14%nat →
  every_char py_isdigit_char s = true →
  ∃ year month day hour minute second : Z,
    values = [year; month; day; hour; minute; second]
    ∧ (0 <= year <= 9999 ∧ 0 <= month <= 99 ∧ 0 <= day <= 99)
    ∧ (0 <= hour <= 99 ∧ 0 <= minute <= 99 ∧ 0 <= second <= 99)
    ∧ s = compact_date year month day +:+ clock hour minute second.
Proof.
  intros Hmatch Hlen Hdigits.
  apply regex_match_step in Hmatch as (year & r1 & vs1 & HY & Hmatch & ->).
  apply regex_match_step in Hmatch as (month & r2 & vs2 & Hm & Hmatch & ->).
  apply regex_match_step in Hmatch as (day & r3 & vs3 & Hd & Hmatch & ->).
  apply regex_match_step in Hmatch as (hour & r4 & vs4 & HH & Hmatch & ->).
  apply regex_match_step in Hmatch as (minute & r5 & vs5 & HM & Hmatch & ->).
  apply regex_match_step in Hmatch as (second & r6 & vs6 & HS & Hmatch & ->).
  injection Hmatch as <- ->.
  apply token_Y_inv in HY as [Hyear ->].
  rewrite length_append, length_pad4 in Hlen.
  rewrite every_char_append in Hdigits. apply andb_true_iff in Hdigits as [_ Hdigits].
  apply token_m_narrow in Hm. apply token_d_inv in Hd.
  apply token_H_narrow in HH. apply token_M_narrow in HM. apply token_S_narrow in HS.
  assert (∀ (v : Z) (r r' : string),
            (0 <= v <= 99 ∧ r = pad2 v +:+ r') ∨ (∃ a : Ascii.ascii, r = String a r') →
            (String.length r <= String.length r' + 2)%nat
            ∧ ((String.length r = String.length r' + 2)%nat →
               0 <= v <= 99 ∧ r = pad2 v +:+ r')) as Hwide.
  { intros v r r' [[Hv ->]|[a ->]].
    - rewrite length_append, length_pad2. split; [lia|done].
    - simpl. split; [lia|]. lia. }
  assert ((String.length r2 <= String.length r3 + 2)%nat
          ∧ ((String.length r2 = String.length r3 + 2)%nat →
             0 <= day <= 99 ∧ r2 = pad2 day +:+ r3
             ∨ ∃ t : string, r2 = String (Ascii.ascii_of_nat 32) t)) as [Hd1 Hd2].
  { destruct Hd as [[Hv ->]|[[a ->]|(b & -> & _)]].
    - rewrite length_append, length_pad2. split; [lia|]. by left.
    - simpl. split; [lia|]. lia.
    - simpl. split; [lia|]. intros _. right. by eexists. }
  destruct (Hwide _ _ _ Hm) as [Hm1 Hm2]. destruct (Hwide _ _ _ HH) as [HH1 HH2].
  destruct (Hwide _ _ _ HM) as [HM1 HM2]. destruct (Hwide _ _ _ HS) as [HS1 HS2].
  simpl in HS1, HS2.
  destruct Hm2 as [Hmonth ->]; [lia|].
  rewrite every_char_append in Hdigits. apply andb_true_iff in Hdigits as [_ Hdigits].
  destruct Hd2 as [[Hday ->]|[t ->]]; [lia| |by simpl in Hdigits].
  destruct HH2 as [Hhour ->]; [lia|].
  destruct HM2 as [Hminute ->]; [lia|].
  destruct HS2 as [Hsecond ->]; [lia|].
  exists year, month, day, hour, minute, second.
  unfold compact_date, clock. rewrite !append_assoc, append_nil_r. done.
Qed.

(** *** Texts the tokens accept *)

Lemma two_digits_pad2 (ok : Z → Z → bool) (v : Z) (r : string) :
  0 <= v <= 99 →
  two_digits ok (pad2 v +:+ r) = if ok (v / 10) (v mod 10) then [(v, r)] else [].
Proof.
  intros Hv. unfold pad2. rewrite !append_cons, append_nil_l. unfold two_digits.
  rewrite !digit_value_char by div_lia.
  replace (10 * (v / 10) + v mod 10) with v by div_lia. done.
Qed.

Ltac two_digit_head :=
  intros; rewrite !two_digits_pad2 by lia;
  repeat match goal with
         | |- context [Z.eqb ?a ?b] => destruct (Z.eqb_spec a b)
         | |- context [Z.leb ?a ?b] => destruct (Z.leb_spec a b)
         end;
  cbn [andb app];
  first [ by eexists | exfalso; div_lia ].

Lemma token_m_head (v : Z) (r : string) :
  1 <= v <= 12 → ∃ others, token_m (pad2 v +:+ r) = (v, r) :: others.
Proof. unfold token_m. two_digit_head. Qed.

Lemma token_d_head (v : Z) (r : string) :
  1 <= v <= 31 → ∃ others, token_d (pad2 v +:+ r) = (v, r) :: others.
Proof. unfold token_d. two_digit_head. Qed.

Lemma token_H_head (v : Z) (r : string) :
  0 <= v <= 23 → ∃ others, token_H (pad2 v +:+ r) = (v, r) :: others.
Proof. unfold token_H. two_digit_head. Qed.

Lemma token_M_head (v : Z) (r : string) :
  0 <= v <= 59 → ∃ others, token_M (pad2 v +:+ r) = (v, r) :: others.
Proof. unfold token_M. two_digit_head. Qed.

Lemma token_S_head (v : Z) (r : string) :
  0 <= v <= 59 → ∃ others, token_S (pad2 v +:+ r) = (v, r) :: others.
Proof. unfold token_S. two_digit_head. Qed.

Lemma token_Y_pad4 (v : Z) (r : string) :
  0 <= v <= 9999 → token_Y (pad4 v +:+ r) = [(v, r)].
Proof.
  intros Hv. unfold pad4, pad2. rewrite !append_cons, append_nil_l. unfold token_Y.
  rewrite !digit_value_char by div_lia.
  replace (1000 * (v / 1000) + 100 * (v / 100 mod 10) + 10 * (v mod 100 / 10)
           + v mod 100 mod 10) with v by div_lia.
  done.
Qed.

Lemma token_char_head (c : Ascii.ascii) (r : string) :
  token_char c (String c r) = [(0, r)].
Proof. unfold token_char. by rewrite Ascii.eqb_refl. Qed.

Lemma days_in_month_bounds (year month : Z) : 28 <= days_in_month year month <= 31.
Proof. unfold days_in_month. repeat case_match; lia. Qed.

Lemma date_ok_bounds (year month day : Z) :
  date_ok year month day = true →
  1 <= year <= 9999 ∧ 1 <= month <= 12 ∧ 1 <= day <= 31.
Proof.
  unfold date_ok. rewrite !andb_true_iff, !Z.leb_le.
  pose proof (days_in_month_bounds year month). lia.
Qed.

Lemma time_ok_bounds (hour minute second : Z) :
  time_ok hour minute second = true →
  hour <= 23 ∧ minute <= 59 ∧ second <= 59.
Proof. unfold time_ok. rewrite !andb_true_iff, !Z.leb_le. lia. Qed.

(** [strptime] reads a timestamp of a real date and time field by field. *)
Lemma timestamp_parses (year month day hour minute second : Z) :
  date_ok year month day = true →
  0 <= hour <= 23 → 0 <= minute <= 59 → 0 <= second <= 59 →
  strptime_values [token_Y; token_m; token_d; token_H; token_M; token_S]
    (compact_date year month day +:+ clock hour minute second)
  = Some [year; month; day; hour; minute; second].
Proof.
  intros (Hyear & Hmonth & Hday)%date_ok_bounds Hhour Hminute Hsecond.
  unfold strptime_values, compact_date, clock. rewrite !append_assoc.
  destruct (token_m_head month
              (pad2 day +:+ pad2 hour +:+ pad2 minute +:+ pad2 second) Hmonth)
    as [om Hm].
  destruct (token_d_head day (pad2 hour +:+ pad2 minute +:+ pad2 second) Hday)
    as [od Hd].
  destruct (token_H_head hour (pad2 minute +:+ pad2 second) Hhour) as [oH HH].
  destruct (token_M_head minute (pad2 second) Hminute) as [oM HM].
  destruct (token_S_head second "" Hsecond) as [oS HS].
  rewrite append_nil_r in HS.
  assert (regex_match [token_Y; token_m; token_d; token_H; token_M; token_S]
            (pad4 year +:+ pad2 month +:+ pad2 day +:+ pad2 hour +:+ pad2 minute
             +:+ pad2 second)
          = Some ([year; month; day; hour; minute; second], "")) as ->; [|done].
  eapply regex_match_head; [apply token_Y_pad4; lia|].
  eapply regex_match_head; [exact Hm|].
  eapply regex_match_head; [exact Hd|].
  eapply regex_match_head; [exact HH|].
  eapply regex_match_head; [exact HM|].
  eapply regex_match_head; [exact HS|done].
Qed.

Lemma every_char_pad2 (n : Z) :
  0 <= n <= 99 → every_char py_isdigit_char (pad2 n) = true.
Proof.
  intros Hn. unfold pad2. cbn [every_char].
  rewrite !digit_char_isdigit by div_lia. done.
Qed.

Lemma every_char_pad4 (n : Z) :
  0 <= n <= 9999 → every_char py_isdigit_char (pad4 n) = true.
Proof.
  intros Hn. unfold pad4. cbn [every_char].
  rewrite !digit_char_isdigit by div_lia. apply every_char_pad2. div_lia.
Qed.

Lemma compact_date_digits (year month day : Z) :
  0 <= year <= 9999 → 0 <= month <= 99 → 0 <= day <= 99 →
  String.length (compact_date year month day) = 8%nat
  ∧ py_isdigit (compact_date year month day) = true.
Proof.
  intros Hy Hm Hd. split; [done|]. unfold py_isdigit, compact_date.
  rewrite !every_char_append, every_char_pad4, !every_char_pad2 by done. done.
Qed.

Lemma clock_digits (hour minute second : Z) :
  0 <= hour <= 99 → 0 <= minute <= 99 → 0 <= second <= 99 →
  String.length (clock hour minute second) = 6%nat
  ∧ every_char py_isdigit_char (clock hour minute second) = true.
Proof.
  intros HH HM HS. split; [done|]. unfold clock.
  rewrite !every_char_append, !every_char_pad2 by done. done.
Qed.

Lemma py_isdigit_append (s t : string) :
  py_isdigit s = true → every_char py_isdigit_char t = true → py_isdigit (s +:+ t) = true.
Proof.
  unfold py_isdigit. intros [Hne Hs]%andb_true_iff Ht.
  rewrite every_char_append, Hs, Ht. destruct s; [done|]. done.
Qed.

(** [convert_gdelt_date_to_iso] on the timestamp of a real date and time. *)
Lemma convert_timestamp (year month day hour minute second : Z) :
  date_ok year month day = true →
  0 <= hour <= 23 → 0 <= minute <= 59 → 0 <= second <= 59 →
  convert_gdelt_date_to_iso (compact_date year month day +:+ clock hour minute second)
  = isoformat year month day hour minute second.
Proof.
  intros Hdate Hhour Hminute Hsecond.
  pose proof (date_ok_bounds _ _ _ Hdate) as (Hy & Hm & Hd).
  destruct (compact_date_digits year month day) as [Hlen Hdigits]; [lia..|].
  destruct (clock_digits hour minute second) as [Hlen' Hdigits']; [lia..|].
  unfold convert_gdelt_date_to_iso.
  rewrite timestamp_parses by done.
  rewrite py_isdigit_append by done.
  rewrite length_append, Hlen, Hlen', Hdate.
  assert (time_ok hour minute second = true) as ->.
  { unfold time_ok. rewrite !andb_true_iff, !Z.leb_le. lia. }
  done.
Qed.

(** [convert_gdelt_date_to_iso] answers with a date only for a timestamp of
    a real date and time. *)
Lemma convert_only_timestamps (s : string) :
  convert_gdelt_date_to_iso s ≠ "N/A" →
  ∃ year month day hour minute second : Z,
    date_ok year month day = true
    ∧ (0 <= hour <= 23 ∧ 0 <= minute <= 59 ∧ 0 <= second <= 59)
    ∧ s = compact_date year month day +:+ clock hour minute second.
Proof.
  unfold convert_gdelt_date_to_iso.
  destruct (truthy s); [|done]. cbn [andb].
  destruct (Nat.eqb_spec (String.length s) 14) as [Hlen|]; [|done]. cbn [andb].
  destruct (py_isdigit s) eqn:Hdigits; [|done].
  unfold strptime_values.
  destruct (regex_match _ s) as [[values [|c rest]]|] eqn:Hmatch; [|done..].
  apply andb_true_iff in Hdigits as [_ Hdigits].
  destruct (timestamp_match s values Hmatch Hlen Hdigits)
    as (year & month & day & hour & minute & second & -> & _ & (HH & HM & HS) & ->).
  destruct (date_ok year month day) eqn:Hdate; [|done]. cbn [andb].
  destruct (time_ok hour minute second) eqn:Htime; [|done]. intros _.
  apply time_ok_bounds in Htime.
  exists year, month, day, hour, minute, second. split; [done|]. split; [lia|done].
Qed.

(** *** [format_datetime] *)

Lemma every_char_mono (p q : Ascii.ascii → bool) (s : string) :
  (∀ c, p c = true → q c = true) → every_char p s = true → every_char q s = true.
Proof.
  intros Hpq. induction s as [|c s IH]; [done|]. cbn [every_char].
  intros [Hc Hs]%andb_true_iff. by rewrite (Hpq c Hc), IH.
Qed.

Lemma py_strip_id (s : string) :
  every_char (fun c => negb (py_isspace c)) s = true → py_strip s = s.
Proof.
  intros Hs. unfold py_strip.
  assert (py_rstrip s = s) as ->.
  { induction s as [|c s IH]; [done|]. cbn [every_char] in Hs.
    apply andb_true_iff in Hs as [Hc Hs]. cbn [py_rstrip]. rewrite (IH Hs).
    apply negb_true_iff in Hc. rewrite Hc, andb_false_r. done. }
  destruct s as [|c s]; [done|]. cbn [every_char] in Hs.
  apply andb_true_iff in Hs as [Hc _]. apply negb_true_iff in Hc.
  cbn [py_lstrip]. by rewrite Hc.
Qed.

Lemma py_strip_digits (s : string) :
  every_char py_isdigit_char s = true → py_strip s = s.
Proof.
  intros Hs. apply py_strip_id. revert Hs. apply every_char_mono.
  intros c Hc. by rewrite (isdigit_not_space c Hc).
Qed.

Lemma dashed_date_shape (year month day : Z) :
  0 <= year <= 9999 → 0 <= month <= 99 → 0 <= day <= 99 →
  py_strip (dashed_date year month day) = dashed_date year month day
  ∧ String.length (dashed_date year month day) = 10%nat
  ∧ contains_char (Ascii.ascii_of_nat 45) (dashed_date year month day) = true
  ∧ py_isdigit (dashed_date year month day) = false.
Proof.
  intros Hy Hm Hd. split; [|split; [done|split]].
  - apply py_strip_id. unfold dashed_date. rewrite !every_char_append.
    assert (∀ t, every_char py_isdigit_char t = true →
                 every_char (fun c => negb (py_isspace c)) t = true) as Hdigits.
    { intros t. apply every_char_mono. intros c Hc. by rewrite (isdigit_not_space c Hc). }
    rewrite (Hdigits _ (every_char_pad4 year Hy)), (Hdigits _ (every_char_pad2 month Hm)),
      (Hdigits _ (every_char_pad2 day Hd)).
    done.
  - unfold dashed_date, pad4, pad2. rewrite !append_cons, !append_nil_l.
    cbn [contains_char]. rewrite Ascii.eqb_refl, !orb_true_r. done.
  - unfold py_isdigit, dashed_date, pad4, pad2. rewrite !append_cons, !append_nil_l.
    cbn [every_char]. change (py_isdigit_char (Ascii.ascii_of_nat 45)) with false.
    rewrite !andb_false_r. done.
Qed.

Lemma dashed_date_parses (year month day : Z) :
  date_ok year month day = true →
  strptime_values
    [token_Y; token_char (Ascii.ascii_of_nat 45); token_m;
     token_char (Ascii.ascii_of_nat 45); token_d] (dashed_date year month day)
  = Some [year; 0; month; 0; day].
Proof.
  intros (Hyear & Hmonth & Hday)%date_ok_bounds.
  unfold strptime_values, dashed_date.
  destruct (token_m_head month ("-" +:+ pad2 day) Hmonth) as [om Hm].
  destruct (token_d_head day "" Hday) as [od Hd]. rewrite append_nil_r in Hd.
  assert (regex_match
            [token_Y; token_char (Ascii.ascii_of_nat 45); token_m;
             token_char (Ascii.ascii_of_nat 45); token_d]
            (pad4 year +:+ "-" +:+ pad2 month +:+ "-" +:+ pad2 day)
          = Some ([year; 0; month; 0; day], "")) as ->; [|done].
  eapply regex_match_head; [apply token_Y_pad4; lia|].
  eapply regex_match_head; [apply token_char_head|].
  eapply regex_match_head; [exact Hm|].
  eapply regex_match_head; [apply token_char_head|].
  eapply regex_match_head; [exact Hd|done].
Qed.

(** A dashed date of a real day: the date is parsed and printed again. *)
Lemma format_dashed_date (small_year : Z → option string) (year month day : Z)
    (default_ts : string) :
  date_ok year month day = true →
  format_datetime small_year (Some (dashed_date year month day)) default_ts
  = (fun text => text +:+ default_ts) <$> strftime_Ymd small_year year month day.
Proof.
  intros Hdate. pose proof (date_ok_bounds _ _ _ Hdate) as (Hy & Hm & Hd).
  destruct (dashed_date_shape year month day) as (Hstrip & Hlen & Hdash & Hdigits);
    [lia..|].
  unfold format_datetime. cbn [truthy_opt default negb].
  assert (truthy (dashed_date year month day) = true) as -> by done.
  cbn [negb]. unfold id. rewrite Hstrip, Hlen, Hdash, dashed_date_parses, Hdate by done.
  done.
Qed.

(** A text of 8 or of 14 digits is taken as it is. *)
Lemma format_digits (small_year : Z → option string) (text default_ts : string) :
  py_isdigit text = true →
  (String.length text = 14%nat →
   format_datetime small_year (Some text) default_ts = Some text)
  ∧ (String.length text = 8%nat →
     format_datetime small_year (Some text) default_ts = Some (text +:+ default_ts)).
Proof.
  intros Hdigits. pose proof Hdigits as [Hne Hall]%andb_true_iff.
  unfold format_datetime. cbn [truthy_opt default]. unfold id, truthy.
  rewrite Hne. cbn [negb]. rewrite (py_strip_digits text Hall), Hdigits.
  split; intros ->; done.
Qed.

(** The match of a dashed date of 10 characters. *)
Lemma dashed_match (s : string) (values : list Z) :
  regex_match
    [token_Y; token_char (Ascii.ascii_of_nat 45); token_m;
     token_char (Ascii.ascii_of_nat 45); token_d] s = Some (values, "") →
  String.length s = 10%nat →
  ∃ year month day : Z,
    values = [year; 0; month; 0; day]
    ∧ (0 <= year <= 9999 ∧ 0 <= month <= 99)
    ∧ (s = dashed_date year month day
       ∨ ∃ b : Ascii.ascii,
           s = pad4 year +:+ "-" +:+ pad2 month +:+ "- " +:+ String b ""
           ∧ digit_value b = Some day).
Proof.
  intros Hmatch Hlen.
  apply regex_match_step in Hmatch as (year & r1 & vs1 & HY & Hmatch & ->).
  apply regex_match_step in Hmatch as (z1 & r2 & vs2 & Hc1 & Hmatch & ->).
  apply regex_match_step in Hmatch as (month & r3 & vs3 & Hm & Hmatch & ->).
  apply regex_match_step in Hmatch as (z2 & r4 & vs4 & Hc2 & Hmatch & ->).
  apply regex_match_step in Hmatch as (day & r5 & vs5 & Hd & Hmatch & ->).
  injection Hmatch as <- ->.
  apply token_Y_inv in HY as [Hyear ->].
  apply token_char_inv in Hc1 as [-> ->]. apply token_char_inv in Hc2 as [-> ->].
  rewrite length_append, length_pad4 in Hlen. cbn [String.length] in Hlen.
  exists year, month, day.
  destruct (token_m_narrow _ _ _ Hm) as [[Hmonth ->]|[a ->]].
  - rewrite length_append, length_pad2 in Hlen. cbn [String.length] in Hlen.
    destruct (token_d_inv _ _ _ Hd) as [[Hday ->]|[[a ->]|(b & -> & Hb)]].
    + split; [done|]. split; [lia|]. left. unfold dashed_date.
      by rewrite append_nil_r.
    + exfalso. cbn [String.length] in Hlen. lia.
    + split; [done|]. split; [lia|]. right. by exists b.
  - exfalso. cbn [String.length] in Hlen.
    destruct (token_d_inv _ _ _ Hd) as [[Hday ->]|[[a' ->]|(b & -> & Hb)]];
      rewrite ?length_append, ?length_pad2 in Hlen; cbn [String.length] in Hlen; lia.
Qed.

Lemma compact_date_inj (y m d y' m' d' : Z) (t t' : string) :
  0 <= y <= 9999 → 0 <= m <= 99 → 0 <= d <= 99 →
  0 <= y' <= 9999 → 0 <= m' <= 99 → 0 <= d' <= 99 →
  compact_date y m d +:+ t = compact_date y' m' d' +:+ t' →
  y = y' ∧ m = m' ∧ d = d'.
Proof.
  intros Hy Hm Hd Hy' Hm' Hd' Heq.
  unfold compact_date, pad4, pad2 in Heq.
  rewrite !append_cons, !append_nil_l in Heq.
  injection Heq as H1 H2 H3 H4 H5 H6 H7 H8 _.
  apply digit_char_inj in H1; [|div_lia..]. apply digit_char_inj in H2; [|div_lia..].
  apply digit_char_inj in H3; [|div_lia..]. apply digit_char_inj in H4; [|div_lia..].
  apply digit_char_inj in H5; [|div_lia..]. apply digit_char_inj in H6; [|div_lia..].
  apply digit_char_inj in H7; [|div_lia..]. apply digit_char_inj in H8; [|div_lia..].
  div_lia.
Qed.

(** A dashed date of a day that does not exist is refused. *)
Lemma format_dashed_unreal (small_year : Z → option string) (year month day : Z)
    (default_ts : string) :
  0 <= year <= 9999 → 0 <= month <= 99 → 0 <= day <= 99 →
  date_ok year month day = false →
  format_datetime small_year (Some (dashed_date year month day)) default_ts = None.
Proof.
  intros Hy Hm Hd Hdate.
  destruct (dashed_date_shape year month day) as (Hstrip & Hlen & Hdash & Hdigits);
    [lia..|].
  unfold format_datetime. cbn [truthy_opt default negb].
  assert (truthy (dashed_date year month day) = true) as -> by done.
  cbn [negb]. unfold id. rewrite Hstrip, Hlen, Hdash, Hdigits. cbn [andb Nat.eqb].
  unfold strptime_values.
  destruct (regex_match _ (dashed_date year month day)) as [[values [|c rest]]|] eqn:Hmatch;
    [|done..].
  destruct (dashed_match _ values Hmatch Hlen)
    as (y' & m' & d' & -> & [Hy' Hm'] & [Heq|(b & Heq & Hb)]).
  - destruct (date_ok y' m' d') eqn:Hdate'; [|done].
    pose proof (date_ok_bounds _ _ _ Hdate') as (_ & _ & Hd').
    unfold dashed_date, pad4, pad2 in Heq. rewrite !append_cons, !append_nil_l in Heq.
    injection Heq as H1 H2 H3 H4 H5 H6 H7 H8.
    apply digit_char_inj in H1; [|div_lia..]. apply digit_char_inj in H2; [|div_lia..].
    apply digit_char_inj in H3; [|div_lia..]. apply digit_char_inj in H4; [|div_lia..].
    apply digit_char_inj in H5; [|div_lia..]. apply digit_char_inj in H6; [|div_lia..].
    apply digit_char_inj in H7; [|div_lia..]. apply digit_char_inj in H8; [|div_lia..].
    assert (year = y' ∧ month = m' ∧ day = d') as (-> & -> & ->) by div_lia.
    congruence.
  - exfalso. unfold dashed_date, pad4, pad2 in Heq.
    rewrite !append_cons, !append_nil_l in Heq.
    injection Heq as _ _ _ _ _ _ Hblank _.
    assert (digit_value (digit_char (day / 10)) = None) as Hnone by by rewrite Hblank.
    rewrite digit_value_char in Hnone by div_lia. done.
Qed.

(** X12.  [convert_gdelt_date_to_iso] turns the timestamp [YYYYMMDDHHMMSS]
    of a real date and time (year 1 to 9999, a day the month has, hour
    below 24, minute and second below 60) into the ISO text of the same date
    and time in UTC; for every other text of characters below 256 (other
    lengths, other characters, month 13, 30 February, second 60, year 0) it
    answers "N/A". *)
Theorem iso_date_only_for_real_timestamps :
  (∀ year month day hour minute second : Z,
     date_ok year month day = true →
     0 <= hour <= 23 → 0 <= minute <= 59 → 0 <= second <= 59 →
     convert_gdelt_date_to_iso (compact_date year month day +:+ clock hour minute second)
     = isoformat year month day hour minute second)
  ∧ (∀ s : string,
       convert_gdelt_date_to_iso s ≠ "N/A" →
       ∃ year month day hour minute second : Z,
         date_ok year month day = true
         ∧ (0 <= hour <= 23 ∧ 0 <= minute <= 59 ∧ 0 <= second <= 59)
         ∧ s = compact_date year month day +:+ clock hour minute second
         ∧ convert_gdelt_date_to_iso s = isoformat year month day hour minute second).
Proof.
  split; [exact convert_timestamp|].
  intros s Hs.
  destruct (convert_only_timestamps s Hs)
    as (year & month & day & hour & minute & second & Hdate & Htime & ->).
  exists year, month, day, hour, minute, second.
  repeat split; try done; try lia.
  apply convert_timestamp; [done|lia..].
Qed.

Lemma iso_date_only_for_real_timestamps_witness :
  convert_gdelt_date_to_iso (compact_date 2024 2 29 +:+ clock 23 59 59)
  = isoformat 2024 2 29 23 59 59.
Proof.
  destruct iso_date_only_for_real_timestamps as [Hreal _].
  apply (Hreal 2024 2 29 23 59 59); [vm_compute; reflexivity|lia..].
Defined.

(** X13.  The two spellings of a date that [format_datetime] accepts lead
    to the same timestamp: for a real date from the year 1000 on,
    [YYYY-MM-DD] and [YYYYMMDD] both give [YYYYMMDD] followed by the default
    time; this timestamp is returned unchanged when it is formatted again,
    and with the time of a real clock (as 000000 and 235959, the defaults of
    [build_gdelt_url]) [convert_gdelt_date_to_iso] turns it into the ISO
    text of that date and time. *)
Theorem dates_become_timestamps (small_year : Z → option string)
    (year month day hour minute second : Z) (other_ts : string) :
  date_ok year month day = true →
  1000 <= year →
  0 <= hour <= 23 → 0 <= minute <= 59 → 0 <= second <= 59 →
  format_datetime small_year (Some (dashed_date year month day))
    (clock hour minute second)
  = Some (compact_date year month day +:+ clock hour minute second)
  ∧ format_datetime small_year (Some (compact_date year month day))
      (clock hour minute second)
    = Some (compact_date year month day +:+ clock hour minute second)
  ∧ format_datetime small_year
      (Some (compact_date year month day +:+ clock hour minute second)) other_ts
    = Some (compact_date year month day +:+ clock hour minute second)
  ∧ convert_gdelt_date_to_iso (compact_date year month day +:+ clock hour minute second)
    = isoformat year month day hour minute second.
Proof.
  intros Hdate Hyear Hhour Hminute Hsecond.
  pose proof (date_ok_bounds _ _ _ Hdate) as (Hy & Hm & Hd).
  destruct (compact_date_digits year month day) as [Hlen Hdigits]; [lia..|].
  destruct (clock_digits hour minute second) as [Hlen' Hdigits']; [lia..|].
  split; [|split; [|split]].
  - rewrite format_dashed_date by done. unfold strftime_Ymd.
    destruct (Z.leb_spec 1000 year) as [_|]; [|lia]. cbn.
    unfold compact_date. by rewrite !append_assoc.
  - by apply (format_digits small_year (compact_date year month day)).
  - apply (format_digits small_year); [by apply py_isdigit_append|].
    by rewrite length_append, Hlen, Hlen'.
  - by apply convert_timestamp.
Qed.

Lemma dates_become_timestamps_witness :
  format_datetime (fun _ => None) (Some (dashed_date 2025 10 16)) (clock 23 59 59)
  = Some (compact_date 2025 10 16 +:+ clock 23 59 59)
  ∧ convert_gdelt_date_to_iso (compact_date 2025 10 16 +:+ clock 23 59 59)
    = isoformat 2025 10 16 23 59 59.
Proof.
  assert (date_ok 2025 10 16 = true) as Hdate by (vm_compute; reflexivity).
  destruct (dates_become_timestamps (fun _ => None) 2025 10 16 23 59 59 "000000" Hdate)
    as (Hdashed & _ & _ & Hiso); [lia..|].
  split; [exact Hdashed|exact Hiso].
Defined.

(** X14.  [format_datetime] checks a date only in its dashed spelling.  A
    date that does not exist (month 13, 30 February, day 0) is refused as
    [YYYY-MM-DD] but accepted as [YYYYMMDD], and the timestamp made from it
    is one [convert_gdelt_date_to_iso] refuses. *)
Theorem compact_dates_are_not_checked (small_year : Z → option string)
    (year month day : Z) (default_ts : string) :
  0 <= year <= 9999 → 0 <= month <= 99 → 0 <= day <= 99 →
  date_ok year month day = false →
  format_datetime small_year (Some (dashed_date year month day)) default_ts = None
  ∧ format_datetime small_year (Some (compact_date year month day)) default_ts
    = Some (compact_date year month day +:+ default_ts)
  ∧ ∀ hour minute second : Z,
      convert_gdelt_date_to_iso (compact_date year month day +:+ clock hour minute second)
      = "N/A".
Proof.
  intros Hy Hm Hd Hdate.
  destruct (compact_date_digits year month day) as [Hlen Hdigits]; [lia..|].
  split; [by apply format_dashed_unreal|]. split.
  - by apply (format_digits small_year (compact_date year month day)).
  - intros hour minute second.
    destruct (decide (convert_gdelt_date_to_iso
                        (compact_date year month day +:+ clock hour minute second)
                      = "N/A")) as [|Hs]; [done|].
    destruct (convert_only_timestamps _ Hs)
      as (y' & m' & d' & hour' & minute' & second' & Hdate' & _ & Heq).
    pose proof (date_ok_bounds _ _ _ Hdate') as (Hy' & Hm' & Hd').
    apply compact_date_inj in Heq as (-> & -> & ->); [|lia..].
    congruence.
Qed.

Lemma compact_dates_are_not_checked_witness :
  format_datetime (fun _ => None) (Some (dashed_date 2024 2 30)) "000000" = None
  ∧ format_datetime (fun _ => None) (Some (compact_date 2024 2 30)) "000000"
    = Some (compact_date 2024 2 30 +:+ "000000")
  ∧ convert_gdelt_date_to_iso (compact_date 2024 2 30 +:+ clock 0 0 0) = "N/A".
Proof.
  assert (date_ok 2024 2 30 = false) as Hdate by (vm_compute; reflexivity).
  destruct (compact_dates_are_not_checked (fun _ => None) 2024 2 30 "000000")
    as (Hdashed & Hcompact & Hiso); [lia..|exact Hdate|].
  split; [exact Hdashed|]. split; [exact Hcompact|exact (Hiso 0 0 0)].
Defined.

(** X15.  For a year below 1000 the timestamp [format_datetime] makes of a
    dashed date depends on how the C library prints the year: when it
    prints fewer than four characters (no leading zeros), the result is
    shorter than 14 characters, and [convert_gdelt_date_to_iso] refuses it;
    when printing fails, nothing is returned. *)
Theorem early_years_give_short_timestamps (small_year : Z → option string)
    (year month day : Z) (default_ts : string) :
  date_ok year month day = true →
  year < 1000 →
  String.length default_ts = 6%nat →
  match small_year year with
  | Some year_text =>
      format_datetime small_year (Some (dashed_date year month day)) default_ts
      = Some (year_text +:+ pad2 month +:+ pad2 day +:+ default_ts)
      ∧ ((String.length year_text < 4)%nat →
         convert_gdelt_date_to_iso (year_text +:+ pad2 month +:+ pad2 day +:+ default_ts)
         = "N/A")
  | None =>
      format_datetime small_year (Some (dashed_date year month day)) default_ts = None
  end.
Proof.
  intros Hdate Hyear Hts. rewrite format_dashed_date by done. unfold strftime_Ymd.
  destruct (Z.leb_spec 1000 year) as [|_]; [lia|].
  destruct (small_year year) as [year_text|]; [|done].
  split; [cbn; by rewrite !append_assoc|].
  intros Hshort. unfold convert_gdelt_date_to_iso.
  rewrite !length_append, !length_pad2, Hts.
  destruct (Nat.eqb_spec (String.length year_text + (2 + (2 + 6))) 14) as [|_]; [lia|].
  by rewrite andb_false_r.
Qed.

Lemma early_years_give_short_timestamps_witness :
  format_datetime (fun _ => Some "999") (Some (dashed_date 999 1 5)) "000000"
  = Some ("999" +:+ pad2 1 +:+ pad2 5 +:+ "000000")
  ∧ convert_gdelt_date_to_iso ("999" +:+ pad2 1 +:+ pad2 5 +:+ "000000") = "N/A".
Proof.
  assert (date_ok 999 1 5 = true) as Hdate by (vm_compute; reflexivity).
  pose proof (early_years_give_short_timestamps
                (fun _ => Some "999") 999 1 5 "000000" Hdate) as Hearly.
  cbv beta in Hearly.
  destruct Hearly as [Hformat Hiso]; [lia|reflexivity|].
  split; [exact Hformat|apply Hiso; cbn; lia].
Defined.

(** ** The GDELT request *)

Lemma count_char_append (c : Ascii.ascii) (s t : string) :
  count_char c (s +:+ t) = (count_char c s + count_char c t)%nat.
Proof.
  induction s as [|a s IH]; [done|]. rewrite append_cons. cbn [count_char].
  rewrite IH. lia.
Qed.

Lemma count_char_none (p : Ascii.ascii → bool) (c : Ascii.ascii) (s : string) :
  every_char p s = true → p c = false → count_char c s = 0%nat.
Proof.
  intros Hs Hc. induction s as [|a s IH]; [done|]. cbn [every_char] in Hs.
  apply andb_true_iff in Hs as [Ha Hs]. cbn [count_char]. rewrite (IH Hs).
  destruct (Ascii.eqb_spec a c) as [->|_]; [congruence|done].
Qed.

(** What [quote_plus] makes of a character is made of encoded characters. *)
Lemma quote_plus_encoded (s : string) : every_char encoded_char (quote_plus s) = true.
Proof.
  induction s as [|a s IH]; [done|]. cbn [quote_plus].
  rewrite every_char_append, IH, andb_true_r.
  destruct a as [[] [] [] [] [] [] [] []]; vm_compute; reflexivity.
Qed.

Lemma count_char_quote_plus (c : Ascii.ascii) (s : string) :
  encoded_char c = false → count_char c (quote_plus s) = 0%nat.
Proof. apply count_char_none, quote_plus_encoded. Qed.

Lemma urlencode_cons (kv : string * string) (rest : list (string * string)) :
  urlencode (kv :: rest)
  = quote_plus kv.1 +:+ "=" +:+ quote_plus kv.2
    +:+ match rest with [] => "" | _ => "&" +:+ urlencode rest end.
Proof.
  unfold urlencode. destruct rest as [|kv' rest]; cbn [map String.concat].
  - by rewrite append_nil_r.
  - by rewrite !append_assoc.
Qed.

(** In an encoded query string every parameter brings one equals sign, and
    the parameters are separated by single ampersands; no other sign that
    structures a URL occurs. *)
Lemma urlencode_counts (ps : list (string * string)) (c : Ascii.ascii) :
  encoded_char c = false →
  count_char c (urlencode ps)
  = (length ps * count_char c "=" + (length ps - 1) * count_char c "&")%nat.
Proof.
  intros Hc. induction ps as [|kv rest IH]; [done|].
  rewrite urlencode_cons, !count_char_append, !count_char_quote_plus by done.
  destruct rest as [|kv' rest].
  - cbn [length count_char]. lia.
  - rewrite count_char_append, IH. cbn [length].
    generalize (count_char c "=") (count_char c "&") (length rest). intros e a n. nia.
Qed.

Lemma params_names (small_year : Z → option string) (input_data : InputData) :
  map fst (params small_year input_data) `sublist_of` parameter_names
  ∧ ¬ ("timespan" ∈ map fst (params small_year input_data)
       ∧ ("startdatetime" ∈ map fst (params small_year input_data)
          ∨ "enddatetime" ∈ map fst (params small_year input_data)))
  ∧ (3 <= length (params small_year input_data) <= 7)%nat.
Proof.
  unfold params, parameter_names.
  destruct (max_records_limit input_data) as [limit|]; [destruct (limit =? 0)|];
    destruct (truthy_opt (sort_by input_data));
    destruct (truthy_opt (timespan_offset input_data));
    destruct (truthy_opt (format_datetime small_year (start_datetime input_data) "000000"));
    destruct (truthy_opt (format_datetime small_year (end_datetime input_data) "235959"));
    cbn [app map fst];
    (split;
     [ repeat first [apply sublist_nil_l | apply sublist_skip | apply sublist_cons]
     | split; [apply (bool_decide_unpack _); vm_compute; exact I|cbn; lia] ]).
Qed.

Lemma build_gdelt_url_count (small_year : Z → option string) (input_data : InputData)
    (c : Ascii.ascii) :
  encoded_char c = false →
  count_char c (build_gdelt_url small_year input_data)
  = (count_char c GDELT_API_BASE_URL + count_char c "?"
     + length (params small_year input_data) * count_char c "="
     + (length (params small_year input_data) - 1) * count_char c "&")%nat.
Proof.
  intros Hc. unfold build_gdelt_url.
  rewrite !count_char_append, urlencode_counts by done. lia.
Qed.

(** X16.  Whatever the input holds, the URL [build_gdelt_url] returns is
    the address of the GDELT API, one question mark and the parameters
    [mode=artlist], [format=json] and [query], followed by at most four more
    parameters with names of the fixed list, in its order.  The texts of the
    input are escaped: the URL has one equals sign for every parameter, one
    ampersand between two parameters and no hash sign, so a text of the
    input cannot add or cut off a parameter.  The relative time span and
    the absolute dates never occur together. *)
Theorem input_cannot_add_parameters (small_year : Z → option string)
    (input_data : InputData) :
  (∃ rest : string,
     build_gdelt_url small_year input_data
     = GDELT_API_BASE_URL +:+ "?mode=artlist&format=json&query="
       +:+ quote_plus (final_gdelt_query input_data) +:+ rest)
  ∧ count_char question_mark (build_gdelt_url small_year input_data) = 1%nat
  ∧ count_char equals_sign (build_gdelt_url small_year input_data)
    = length (params small_year input_data)
  ∧ (count_char ampersand (build_gdelt_url small_year input_data) + 1)%nat
    = length (params small_year input_data)
  ∧ count_char hash_sign (build_gdelt_url small_year input_data) = 0%nat
  ∧ (3 <= length (params small_year input_data) <= 7)%nat
  ∧ map fst (params small_year input_data) `sublist_of` parameter_names
  ∧ ¬ ("timespan" ∈ map fst (params small_year input_data)
       ∧ ("startdatetime" ∈ map fst (params small_year input_data)
          ∨ "enddatetime" ∈ map fst (params small_year input_data))).
Proof.
  destruct (params_names small_year input_data) as (Hnames & Hwindow & Hlen).
  split.
  { unfold build_gdelt_url, params. cbn [app]. rewrite !urlencode_cons.
    cbn [fst snd]. eexists.
    change (quote_plus "mode") with "mode". change (quote_plus "artlist") with "artlist".
    change (quote_plus "format") with "format". change (quote_plus "json") with "json".
    change (quote_plus "query") with "query".
    f_equal. }
  rewrite !build_gdelt_url_count by reflexivity.
  change (count_char question_mark GDELT_API_BASE_URL) with 0%nat.
  change (count_char equals_sign GDELT_API_BASE_URL) with 0%nat.
  change (count_char ampersand GDELT_API_BASE_URL) with 0%nat.
  change (count_char hash_sign GDELT_API_BASE_URL) with 0%nat.
  change (count_char question_mark "?") with 1%nat.
  change (count_char question_mark "=") with 0%nat.
  change (count_char question_mark "&") with 0%nat.
  change (count_char equals_sign "?") with 0%nat.
  change (count_char equals_sign "=") with 1%nat.
  change (count_char equals_sign "&") with 0%nat.
  change (count_char ampersand "?") with 0%nat.
  change (count_char ampersand "=") with 0%nat.
  change (count_char ampersand "&") with 1%nat.
  change (count_char hash_sign "?") with 0%nat.
  change (count_char hash_sign "=") with 0%nat.
  change (count_char hash_sign "&") with 0%nat.
  repeat split; try done; lia.
Qed.

(** *** The query *)

Lemma endswith_char_append (c : Ascii.ascii) (s : string) :
  endswith_char c (s +:+ String c "") = true.
Proof.
  induction s as [|a s IH]; [cbn; apply Ascii.eqb_refl|].
  rewrite append_cons. cbn [endswith_char]. rewrite IH.
  destruct (s +:+ String c "") eqn:Hs; [by destruct s|done].
Qed.

(** X17.  The parentheses [build_gdelt_url] puts around a query with
    several terms are put once: a query that contains [OR] or [AND] comes
    out wrapped in parentheses, every other query comes out unchanged, and
    wrapping the result again changes nothing. *)
Theorem query_is_wrapped_once (raw_query : string) :
  wrapped_query (wrapped_query raw_query) = wrapped_query raw_query
  ∧ (wrapped_query raw_query = raw_query
     ∨ wrapped_query raw_query = "(" +:+ raw_query +:+ ")")
  ∧ (py_in "OR" raw_query || py_in "AND" raw_query = true →
     startswith_char open_paren (wrapped_query raw_query) = true
     ∧ endswith_char close_paren (wrapped_query raw_query) = true)
  ∧ (py_in "OR" raw_query || py_in "AND" raw_query = false →
     wrapped_query raw_query = raw_query).
Proof.
  assert (startswith_char open_paren ("(" +:+ raw_query +:+ ")") = true) as Hopens by done.
  assert (endswith_char close_paren ("(" +:+ raw_query +:+ ")") = true) as Hcloses.
  { pose proof (endswith_char_append close_paren raw_query) as Hends.
    change (String close_paren "") with ")" in Hends.
    rewrite append_cons, append_nil_l. cbn [endswith_char].
    destruct (raw_query +:+ ")") eqn:Hs; [by destruct raw_query|done]. }
  destruct (py_in "OR" raw_query || py_in "AND" raw_query) eqn:Hterms.
  - destruct (startswith_char open_paren raw_query && endswith_char close_paren raw_query)
      eqn:Hwrapped.
    + assert (wrapped_query raw_query = raw_query) as Hvalue.
      { unfold wrapped_query. by rewrite Hterms, Hwrapped. }
      rewrite !Hvalue. apply andb_true_iff in Hwrapped.
      split; [done|]. split; [by left|]. split; [done|done].
    + assert (wrapped_query raw_query = "(" +:+ raw_query +:+ ")") as Hvalue.
      { unfold wrapped_query. by rewrite Hterms, Hwrapped. }
      assert (wrapped_query ("(" +:+ raw_query +:+ ")") = "(" +:+ raw_query +:+ ")")
        as Hagain.
      { unfold wrapped_query. rewrite Hopens, Hcloses.
        cbn [andb negb]. by case_match. }
      rewrite !Hvalue, Hagain.
      split; [done|]. split; [by right|]. split; [done|done].
  - assert (wrapped_query raw_query = raw_query) as Hvalue.
    { unfold wrapped_query. by rewrite Hterms. }
    rewrite !Hvalue. split; [done|]. split; [by left|]. split; [done|done].
Qed.

(** ** The enrichment *)

Lemma enrichment_loop_spec (W : EnrichWorld) (is_test_mode : bool)
    (gdelt_articles : list Article) :
  ∀ (i : nat) (dataset : list DatasetRecord),
  ∃ records : list DatasetRecord,
    (enrichment_loop W is_test_mode i gdelt_articles dataset).1 = dataset ++ records
    ∧ pushed_in_order W is_test_mode i gdelt_articles records
    ∧ match (enrichment_loop W is_test_mode i gdelt_articles dataset).2 with
      | Completed => length records = length gdelt_articles
      | ActorFailed f =>
          ∃ article_data : Article,
            gdelt_articles !! length records = Some article_data
            ∧ fails_at W is_test_mode (i + length records) article_data f
      | NoArticles => False
      end.
Proof.
  induction gdelt_articles as [|article_data later IH]; intros i dataset.
  - exists []. cbn. rewrite app_nil_r. split; [done|]. split; [|done].
    intros j record Hj. by rewrite lookup_nil in Hj.
  - cbn [enrichment_loop].
    destruct (enriched_record W i is_test_mode article_data) as [record|f] eqn:Hrecord.
    + destruct (push_data_ok W i record) eqn:Hpush.
      * destruct (IH (S i) (dataset ++ [record])) as (records & Hdata & Horder & Hend).
        exists (record :: records). rewrite Hdata, <- app_assoc. split; [done|]. split.
        -- intros [|j] record' Hj.
           ++ injection Hj as <-. exists article_data. by rewrite Nat.add_0_r.
           ++ destruct (Horder j record' Hj) as (a & Ha & Hr & Hp).
              exists a. by rewrite Nat.add_succ_r.
        -- destruct (enrichment_loop W is_test_mode (S i) later (dataset ++ [record])).2
             as [|  |f]; [done|cbn; by rewrite Hend|].
           destruct Hend as (a & Ha & Hfails). exists a. cbn [length].
           by rewrite Nat.add_succ_r.
      * exists []. cbn. rewrite app_nil_r, Nat.add_0_r. split; [done|]. split.
        -- intros j record' Hj. by rewrite lookup_nil in Hj.
        -- exists article_data. split; [done|]. right. by exists record.
    + exists []. cbn. rewrite app_nil_r, Nat.add_0_r. split; [done|]. split.
      * intros j record' Hj. by rewrite lookup_nil in Hj.
      * exists article_data. split; [done|]. by left.
Qed.

(** X18.  A run of [main] pushes the records of the articles in the order
    GDELT gave them, one push per article, and stops at the first article
    whose record is refused or whose push fails: the records of the
    articles before it stay in the dataset, the articles after it are not
    read, and the run ends in [Actor.fail()].  Without articles nothing is
    pushed and the run ends early. *)
Theorem enrichment_stops_at_first_failure (W : EnrichWorld) (input_data : InputData)
    (runTestMode : bool) (dataset : list DatasetRecord) :
  ∃ records : list DatasetRecord,
    (main W input_data runTestMode dataset).1 = dataset ++ records
    ∧ pushed_in_order W runTestMode 0
        (fetch_gdelt_articles W (build_gdelt_url (small_year W) input_data)) records
    ∧ match (main W input_data runTestMode dataset).2 with
      | NoArticles =>
          fetch_gdelt_articles W (build_gdelt_url (small_year W) input_data) = []
          ∧ records = []
      | Completed =>
          length records
          = length (fetch_gdelt_articles W (build_gdelt_url (small_year W) input_data))
      | ActorFailed f =>
          ∃ article_data : Article,
            fetch_gdelt_articles W (build_gdelt_url (small_year W) input_data)
              !! length records = Some article_data
            ∧ fails_at W runTestMode (length records) article_data f
      end.
Proof.
  unfold main.
  destruct (fetch_gdelt_articles W (build_gdelt_url (small_year W) input_data))
    as [|article_data later] eqn:Harticles.
  - exists []. cbn. rewrite app_nil_r. split; [done|]. split; [|done].
    intros j record Hj. by rewrite lookup_nil in Hj.
  - destruct (enrichment_loop_spec W runTestMode (article_data :: later) 0 dataset)
      as (records & Hdata & Horder & Hend).
    exists records. split; [done|]. split; [done|].
    destruct (enrichment_loop W runTestMode 0 (article_data :: later) dataset).2; done.
Qed.

Lemma py_remove_char_append (c : Ascii.ascii) (s t : string) :
  py_remove_char c (s +:+ t) = py_remove_char c s +:+ py_remove_char c t.
Proof.
  induction s as [|a s IH]; [done|]. rewrite append_cons. cbn [py_remove_char].
  rewrite IH. by destruct (Ascii.eqb c a).
Qed.

Lemma py_remove_char_none (p : Ascii.ascii → bool) (c : Ascii.ascii) (s : string) :
  every_char p s = true → p c = false → py_remove_char c s = s.
Proof.
  intros Hs Hc. induction s as [|a s IH]; [done|]. cbn [every_char] in Hs.
  apply andb_true_iff in Hs as [Ha Hs]. cbn [py_remove_char]. rewrite (IH Hs).
  destruct (Ascii.eqb_spec c a) as [->|_]; [congruence|done].
Qed.

(** The letters come off the text of a moment as GDELT writes it. *)
Lemma seen_stamp_cleaned (year month day hour minute second : Z) :
  0 <= year <= 9999 → 0 <= month <= 99 → 0 <= day <= 99 →
  0 <= hour <= 99 → 0 <= minute <= 99 → 0 <= second <= 99 →
  py_remove_char (Ascii.ascii_of_nat 90)
    (py_remove_char (Ascii.ascii_of_nat 84)
       (seen_stamp year month day hour minute second))
  = compact_date year month day +:+ clock hour minute second.
Proof.
  intros Hy Hm Hd HH HM HS.
  destruct (compact_date_digits year month day) as [_ [_ Hdate]%andb_true_iff]; [done..|].
  destruct (clock_digits hour minute second) as [_ Hclock]; [done..|].
  unfold seen_stamp. rewrite !py_remove_char_append.
  rewrite !(py_remove_char_none py_isdigit_char _ (compact_date year month day))
    by done.
  rewrite !(py_remove_char_none py_isdigit_char _ (clock hour minute second)) by done.
  change (py_remove_char (Ascii.ascii_of_nat 84) "T") with "".
  change (py_remove_char (Ascii.ascii_of_nat 84) "Z") with "Z".
  change (py_remove_char (Ascii.ascii_of_nat 90) "") with "".
  change (py_remove_char (Ascii.ascii_of_nat 90) "Z") with "".
  by rewrite append_nil_l, append_nil_r.
Qed.

Lemma isoformat_not_missing (year month day hour minute second : Z) :
  String.eqb (isoformat year month day hour minute second) "N/A" = false.
Proof.
  destruct (String.eqb_spec (isoformat year month day hour minute second) "N/A")
    as [Heq|]; [|done].
  apply (f_equal String.length) in Heq. discriminate Heq.
Qed.

(** X19.  When GDELT gives the moment of an article as [YYYYMMDDTHHMMSSZ]
    (in [date], or in [seendate] when there is no [date]) and it is a real
    date and time, the record of the article carries this moment as its ISO
    text in UTC; the search for a date is not consulted, in test mode
    neither. *)
Theorem gdelt_moment_is_published (W : EnrichWorld) (i : nat) (is_test_mode : bool)
    (article_data : Article) (year month day hour minute second : Z) :
  date_ok year month day = true →
  0 <= hour <= 23 → 0 <= minute <= 59 → 0 <= second <= 59 →
  g_date article_data = Some (seen_stamp year month day hour minute second)
  ∨ (truthy_opt (g_date article_data) = false
     ∧ g_seendate article_data = Some (seen_stamp year month day hour minute second)) →
  (∀ query_for_enrichment : string,
     published_of W i is_test_mode article_data query_for_enrichment
     = isoformat year month day hour minute second)
  ∧ (∀ record : DatasetRecord,
       enriched_record W i is_test_mode article_data = Done record →
       d_published record = Some (isoformat year month day hour minute second)).
Proof.
  intros Hdate Hhour Hminute Hsecond Hmoment.
  pose proof (date_ok_bounds _ _ _ Hdate) as (Hy & Hm & Hd).
  assert (∀ q, published_of W i is_test_mode article_data q
               = isoformat year month day hour minute second) as Hpublished.
  { intros q. unfold published_of.
    assert ((if truthy_opt (g_date article_data) then g_date article_data
             else g_seendate article_data)
            = Some (seen_stamp year month day hour minute second)) as ->.
    { destruct Hmoment as [->|[-> ->]]; done. }
    cbn [truthy_opt default]. unfold id.
    assert (truthy (seen_stamp year month day hour minute second) = true) as -> by done.
    rewrite seen_stamp_cleaned, convert_timestamp by (done || lia).
    rewrite isoformat_not_missing. cbn [negb]. by rewrite isoformat_not_missing. }
  split; [exact Hpublished|].
  intros record. unfold enriched_record. rewrite Hpublished.
  destruct (if truthy _ then _ else _) as [analysis_results|f]; [|done].
  destruct (http_url W _) as [valid_url|]; [|done].
  destruct (validate_str_list _) as [entities|]; [|done].
  by intros [= <-].
Qed.

Lemma gdelt_moment_is_published_witness :
  published_of quiet_world 0 false
    {| g_url := Some "https://www.example.org/a";
       g_title := Some "First";
       g_date := None;
       g_seendate := Some (seen_stamp 2025 10 16 9 0 0);
       g_snippet := Some "A snippet." |} "First example.org"
  = isoformat 2025 10 16 9 0 0.
Proof.
  assert (date_ok 2025 10 16 = true) as Hdate by (vm_compute; reflexivity).
  destruct (gdelt_moment_is_published quiet_world 0 false
              {| g_url := Some "https://www.example.org/a";
                 g_title := Some "First";
                 g_date := None;
                 g_seendate := Some (seen_stamp 2025 10 16 9 0 0);
                 g_snippet := Some "A snippet." |} 2025 10 16 9 0 0 Hdate)
    as [Hpublished _]; [lia..| |].
  - right. split; reflexivity.
  - exact (Hpublished "First example.org").
Defined.

(** Without the settings of the search no summary is found, and the record
    of an article is its plain record. *)
Lemma enriched_record_plain (W : EnrichWorld) (i : nat) (article_data : Article) :
  truthy_opt (Gdelt.google_api_key (search_world W i)) = false
  ∨ truthy_opt (Gdelt.google_cse_id (search_world W i)) = false →
  enriched_record W i false article_data
  = match http_url W (default "N/A" (g_url article_data)) with
    | Some valid_url => Done (plain_record W i false article_data valid_url)
    | None => Fails RecordRejected
    end.
Proof.
  intros Hsettings. unfold enriched_record, Gdelt.fetch_summary_from_google.
  assert (negb (truthy_opt (Gdelt.google_api_key (search_world W i)))
          || negb (truthy_opt (Gdelt.google_cse_id (search_world W i))) = true) as ->.
  { destruct Hsettings as [-> | ->]; [done|by rewrite orb_true_r]. }
  cbn [fst truthy]. cbn.
  by destruct (http_url W _).
Qed.

Lemma plain_loop (W : EnrichWorld) (gdelt_articles : list Article) :
  (∀ i : nat,
     truthy_opt (Gdelt.google_api_key (search_world W i)) = false
     ∨ truthy_opt (Gdelt.google_cse_id (search_world W i)) = false) →
  (∀ (i : nat) (record : DatasetRecord), push_data_ok W i record = true) →
  (∀ article_data : Article,
     article_data ∈ gdelt_articles →
     is_Some (http_url W (default "N/A" (g_url article_data)))) →
  ∀ (i : nat) (dataset : list DatasetRecord),
  ∃ records : list DatasetRecord,
    enrichment_loop W false i gdelt_articles dataset = (dataset ++ records, Completed)
    ∧ length records = length gdelt_articles
    ∧ ∀ (j : nat) (article_data : Article),
        gdelt_articles !! j = Some article_data →
        ∃ valid_url : string,
          http_url W (default "N/A" (g_url article_data)) = Some valid_url
          ∧ records !! j = Some (plain_record W (i + j) false article_data valid_url).
Proof.
  intros Hsettings Hpush. induction gdelt_articles as [|article_data later IH];
    intros Hurls i dataset.
  - exists []. cbn. rewrite app_nil_r. split; [done|]. split; [done|].
    intros j a Hj. by rewrite lookup_nil in Hj.
  - cbn [enrichment_loop]. rewrite enriched_record_plain by done.
    destruct (Hurls article_data) as [valid_url Hurl]; [left|]. rewrite Hurl, Hpush.
    destruct (IH (fun a Ha => Hurls a (list_elem_of_further _ _ _ Ha)) (S i)
                (dataset ++ [plain_record W i false article_data valid_url]))
      as (records & Hloop & Hlen & Hrecords).
    exists (plain_record W i false article_data valid_url :: records).
    rewrite Hloop, <- app_assoc. split; [done|]. split; [cbn; by rewrite Hlen|].
    intros [|j] a Hj.
    + injection Hj as <-. exists valid_url. by rewrite Nat.add_0_r.
    + destruct (Hrecords j a Hj) as (u & Hu & Hr). exists u.
      by rewrite Nat.add_succ_r.
Qed.

(** X20.  Outside test mode and without the settings of the search
    ([GOOGLE_API_KEY] or [GOOGLE_CSE_ID] missing), a run over articles with
    valid URLs on a platform that accepts every push completes, whether or
    not the client of the model can be made: every article is still pushed,
    in order, with its snippet (or "No summary available.") as summary,
    "N/A" as sentiment and category and no entities. *)
Theorem run_without_search_settings (W : EnrichWorld) (input_data : InputData)
    (dataset : list DatasetRecord) :
  (∀ i : nat,
     truthy_opt (Gdelt.google_api_key (search_world W i)) = false
     ∨ truthy_opt (Gdelt.google_cse_id (search_world W i)) = false) →
  (∀ (i : nat) (record : DatasetRecord), push_data_ok W i record = true) →
  (∀ article_data : Article,
     article_data ∈ fetch_gdelt_articles W (build_gdelt_url (small_year W) input_data) →
     is_Some (http_url W (default "N/A" (g_url article_data)))) →
  ∃ records : list DatasetRecord,
    (main W input_data false dataset).1 = dataset ++ records
    ∧ (main W input_data false dataset).2
      = match fetch_gdelt_articles W (build_gdelt_url (small_year W) input_data) with
        | [] => NoArticles
        | _ => Completed
        end
    ∧ length records
      = length (fetch_gdelt_articles W (build_gdelt_url (small_year W) input_data))
    ∧ ∀ (j : nat) (article_data : Article),
        fetch_gdelt_articles W (build_gdelt_url (small_year W) input_data) !! j
        = Some article_data →
        ∃ valid_url : string,
          http_url W (default "N/A" (g_url article_data)) = Some valid_url
          ∧ records !! j = Some (plain_record W j false article_data valid_url).
Proof.
  intros Hsettings Hpush Hurls. unfold main.
  destruct (fetch_gdelt_articles W (build_gdelt_url (small_year W) input_data))
    as [|article_data later] eqn:Harticles.
  - exists []. cbn. by rewrite app_nil_r.
  - destruct (plain_loop W (article_data :: later) Hsettings Hpush Hurls 0 dataset)
      as (records & Hloop & Hlen & Hrecords).
    exists records. rewrite Hloop. done.
Qed.

Lemma run_without_search_settings_witness :
  ∃ records : list DatasetRecord,
    (main quiet_world example_input false []).1 = [] ++ records
    ∧ (main quiet_world example_input false []).2 = Completed
    ∧ length records = 2%nat.
Proof.
  destruct (run_without_search_settings quiet_world example_input [])
    as (records & Hdata & Hend & Hlen & _).
  - intros i. by left.
  - done.
  - intros a Ha. vm_compute in Ha.
    apply elem_of_cons in Ha as [->|Ha]; [by eexists|].
    apply elem_of_cons in Ha as [->|Ha]; [by eexists|].
    by apply elem_of_nil in Ha.
  - exists records. split; [exact Hdata|]. split; [exact Hend|exact Hlen].
Defined.

Lemma query_is_wrapped_once_witness :
  startswith_char open_paren (wrapped_query "cyber OR attack") = true
  ∧ endswith_char close_paren (wrapped_query "cyber OR attack") = true
  ∧ wrapped_query "Orange" = "Orange".
Proof.
  destruct (query_is_wrapped_once "cyber OR attack") as (_ & _ & Hwrapped & _).
  destruct (query_is_wrapped_once "Orange") as (_ & _ & _ & Hplain).
  destruct Hwrapped as [Hopens Hcloses]; [reflexivity|].
  split; [exact Hopens|]. split; [exact Hcloses|]. apply Hplain. reflexivity.
Defined.

(** ** The date the search finds *)

Lemma counter_keys_from (l : list string) :
  ∀ acc : list string,
    (∀ x, x ∈ foldl (fun keys x => if decide (x ∈ keys) then keys else keys ++ [x]) acc l
          ↔ x ∈ acc ∨ x ∈ l)
    ∧ (NoDup acc →
       NoDup (foldl (fun keys x => if decide (x ∈ keys) then keys else keys ++ [x]) acc l))
    ∧ ∃ more : list string,
        foldl (fun keys x => if decide (x ∈ keys) then keys else keys ++ [x]) acc l
        = acc ++ more.
Proof.
  induction l as [|y l IH]; intros acc; cbn [foldl].
  - split; [|split; [done|]].
    + intros x. rewrite elem_of_nil. tauto.
    + exists []. by rewrite app_nil_r.
  - destruct (decide (y ∈ acc)) as [Hy|Hy].
    + destruct (IH acc) as (Hin & Hnodup & more & Hmore).
      split; [|split; [done|by exists more]].
      intros x. rewrite Hin, elem_of_cons. split; [tauto|].
      intros [Hx|[->|Hx]]; tauto.
    + destruct (IH (acc ++ [y])) as (Hin & Hnodup & more & Hmore).
      split; [|split].
      * intros x. rewrite Hin, elem_of_app, !elem_of_cons, elem_of_nil. tauto.
      * intros Hacc. apply Hnodup. apply NoDup_app. split; [done|]. split.
        -- intros x Hx [->|[]%elem_of_nil]%elem_of_cons. done.
        -- apply NoDup_singleton.
      * exists (y :: more). by rewrite Hmore, <- app_assoc.
Qed.

Lemma counter_keys_elem (l : list string) (x : string) : x ∈ counter_keys l ↔ x ∈ l.
Proof.
  unfold counter_keys. destruct (counter_keys_from l []) as (Hin & _ & _).
  rewrite Hin, elem_of_nil. tauto.
Qed.

Lemma counter_keys_NoDup (l : list string) : NoDup (counter_keys l).
Proof.
  unfold counter_keys. destruct (counter_keys_from l []) as (_ & Hnodup & _).
  apply Hnodup, NoDup_nil_2.
Qed.

(** The keys come in the order of the first occurrences. *)
Lemma counter_keys_split (before : list string) (t : string) (after : list string) :
  t ∉ before →
  ∃ more : list string,
    counter_keys (before ++ t :: after) = counter_keys before ++ t :: more.
Proof.
  intros Ht. unfold counter_keys at 1. rewrite foldl_app. cbn [foldl].
  fold (counter_keys before).
  rewrite decide_False by by rewrite counter_keys_elem.
  destruct (counter_keys_from after (counter_keys before ++ [t])) as (_ & _ & more & ->).
  exists more. by rewrite <- app_assoc.
Qed.

(** The first of the largest: what the scan for the largest count keeps. *)
Lemma first_largest (c : string → nat) (ks : list string) :
  ∀ b : string,
  ∃ (r : string) (kb ka : list string),
    foldl (fun best x =>
             match best with
             | None => Some x
             | Some b => if (c b <? c x)%nat then Some x else best
             end) (Some b) ks = Some r
    ∧ b :: ks = kb ++ r :: ka
    ∧ (∀ k, k ∈ kb → (c k < c r)%nat)
    ∧ (∀ k, k ∈ ka → (c k <= c r)%nat).
Proof.
  induction ks as [|x ks IH]; intros b; cbn [foldl].
  - exists b, [], []. split; [done|]. split; [done|].
    split; intros k []%elem_of_nil.
  - destruct (Nat.ltb_spec (c b) (c x)) as [Hlt|Hge].
    + destruct (IH x) as (r & kb & ka & Hr & Hsplit & Hbefore & Hafter).
      exists r, (b :: kb), ka. split; [done|]. split; [by rewrite Hsplit|].
      split; [|done]. intros k [->|Hk]%elem_of_cons; [|by apply Hbefore].
      destruct kb as [|k0 kb]; injection Hsplit as <- _; [done|].
      pose proof (Hbefore x ltac:(left)). lia.
    + destruct (IH b) as (r & kb & ka & Hr & Hsplit & Hbefore & Hafter).
      destruct kb as [|k0 kb]; injection Hsplit as <- Hks.
      * exists b, [], (x :: ks). split; [done|]. split; [done|].
        split; [intros k []%elem_of_nil|].
        intros k [->|Hk]%elem_of_cons; [done|]. apply Hafter. by rewrite <- Hks.
      * exists r, (b :: x :: kb), ka. split; [done|]. split; [by rewrite Hks|].
        split; [|done]. intros k [->|[->|Hk]%elem_of_cons]%elem_of_cons.
        -- apply Hbefore. left.
        -- pose proof (Hbefore b ltac:(left)). lia.
        -- apply Hbefore. by right.
Qed.

Lemma occurrences_absent (x : string) (l : list string) :
  x ∉ l → occurrences x l = 0%nat.
Proof.
  intros Hx. unfold occurrences.
  destruct (filter (fun y => y = x) l) as [|y ys] eqn:Hfilter; [done|].
  assert (y ∈ filter (fun y => y = x) l) as Hy by (rewrite Hfilter; left).
  apply list_elem_of_filter in Hy as [-> Hy]. done.
Qed.

(** [most_common] gives the text that occurs most often, and among several
    of them the one that occurs first. *)
Lemma most_common_spec (l : list string) :
  l ≠ [] →
  ∃ (before : list string) (t : string) (after : list string),
    l = before ++ t :: after
    ∧ (t ∉ before)
    ∧ (∀ x : string, x ∈ before → (occurrences x l < occurrences t l)%nat)
    ∧ (∀ x : string, (occurrences x l <= occurrences t l)%nat)
    ∧ most_common l = Some t.
Proof.
  intros Hl. unfold most_common.
  destruct (counter_keys l) as [|k0 ks] eqn:Hkeys.
  { destruct l as [|x l]; [done|].
    assert (x ∈ counter_keys (x :: l)) as Hx by (apply counter_keys_elem; left).
    rewrite Hkeys in Hx. by apply elem_of_nil in Hx. }
  cbn [foldl].
  destruct (first_largest (fun x => occurrences x l) ks k0)
    as (t & kb & ka & Hbest & Hsplit & Hbefore & Hafter).
  rewrite <- Hkeys in Hsplit.
  assert (t ∈ l) as Ht.
  { apply counter_keys_elem. rewrite Hsplit, elem_of_app, elem_of_cons. tauto. }
  destruct (list_elem_of_split_l l t Ht) as (before & after & Hparts & Hfirst).
  destruct (counter_keys_split before t after Hfirst) as [more Hmore].
  rewrite <- Hparts, Hsplit in Hmore.
  pose proof (counter_keys_NoDup l) as Hnodup. rewrite Hsplit in Hnodup.
  apply NoDup_app in Hnodup as (_ & Hapart & Hrest).
  apply NoDup_cons in Hrest as [Hlater _].
  assert (t ∉ kb) as Hkb.
  { intros Hin. apply (Hapart t Hin). left. }
  destruct (not_elem_of_app_cons_inv_l t t kb ka (counter_keys before) more)
    as (-> & _ & _); [by rewrite counter_keys_elem|done|done|].
  exists before, t, after. split; [done|]. split; [done|]. split; [|split; [|done]].
  - intros x Hx. apply Hbefore. by apply counter_keys_elem.
  - intros x. destruct (decide (x ∈ l)) as [Hx|Hx].
    + apply counter_keys_elem in Hx. rewrite Hsplit in Hx.
      apply elem_of_app in Hx as [Hx|[->|Hx]%elem_of_cons].
      * pose proof (Hbefore x Hx). cbv beta in *. lia.
      * done.
      * exact (Hafter x Hx).
    + rewrite (occurrences_absent x l Hx). lia.
Qed.

(** The dates found are the dashed texts of the dates [date_parse] gave. *)
Lemma dates_found_dashed (W : EnrichWorld) (items : list SearchItem) :
  (∀ (text : string) (year month day : Z),
     date_parse W text = DateParsed year month day →
     date_ok year month day = true ∧ 1000 <= year) →
  ∀ found : list string,
    dates_found W items = Some found →
    Forall (fun text => ∃ year month day : Z,
                date_ok year month day = true ∧ text = dashed_date year month day)
           found.
Proof.
  intros Hreal. induction items as [|item later IH]; intros found; cbn [dates_found].
  - intros [= <-]. constructor.
  - destruct (truthy_opt (date_str_of W item)); [|apply IH].
    destruct (date_parse W _) as [year month day| |] eqn:Hparse; [|apply IH|done].
    destruct (Hreal _ _ _ _ Hparse) as [Hdate Hyear].
    unfold strftime_dashed. destruct (Z.leb_spec 1000 year) as [_|]; [|lia].
    cbn [mbind option_bind].
    destruct (dates_found W later) as [found'|]; [|done].
    intros [= <-]. constructor; [|by apply IH].
    by exists year, month, day.
Qed.

(** X22.  Outside test mode, with the settings of the search present and an
    answer with results, [extract_most_common_date_from_google] returns the
    date found most often among the results, at midnight UTC; of several
    dates found equally often it returns the one found first.  It returns
    nothing when no date was found or when reading a date raised an
    unexpected exception.  (The dates are those [date_parse] gave, real and
    from the year 1000 on, counted by their text [YYYY-MM-DD].) *)
Theorem search_date_is_the_most_common (W : EnrichWorld) (i : nat) (query : string)
    (items : list SearchItem) :
  truthy_opt (Gdelt.google_api_key (search_world W i)) = true →
  truthy_opt (Gdelt.google_cse_id (search_world W i)) = true →
  date_search W i query = DateSearchItems items →
  (∀ (text : string) (year month day : Z),
     date_parse W text = DateParsed year month day →
     date_ok year month day = true ∧ 1000 <= year) →
  match dates_found W items with
  | None | Some [] => extract_most_common_date_from_google W i query false = None
  | Some found =>
      ∃ (before : list string) (t : string) (after : list string),
        found = before ++ t :: after
        ∧ (t ∉ before)
        ∧ (∀ x : string, x ∈ before → (occurrences x found < occurrences t found)%nat)
        ∧ (∀ x : string, (occurrences x found <= occurrences t found)%nat)
        ∧ extract_most_common_date_from_google W i query false
          = Some (t +:+ "T00:00:00+00:00")
  end.
Proof.
  intros Hkey Hcse Hsearch Hreal. unfold extract_most_common_date_from_google.
  rewrite Hkey, Hcse, Hsearch. cbn [negb orb].
  destruct (dates_found W items) as [[|text found]|] eqn:Hfound.
  - by destruct items.
  - pose proof (dates_found_dashed W items Hreal _ Hfound) as Hdashed.
    destruct (most_common_spec (text :: found))
      as (before & t & after & Hparts & Hfirst & Hbefore & Hmost & Hcommon); [done|].
    exists before, t, after. split; [done|]. split; [done|]. split; [done|].
    split; [done|].
    assert (t ∈ text :: found) as Ht.
    { rewrite Hparts, elem_of_app, elem_of_cons. tauto. }
    rewrite Forall_forall in Hdashed.
    destruct (Hdashed t Ht) as (year & month & day & Hdate & ->).
    destruct items as [|item later]; [done|].
    rewrite Hcommon, dashed_date_parses, Hdate by done.
    unfold isoformat, dashed_date. by rewrite !append_assoc.
  - by destruct items.
Qed.

Lemma search_date_is_the_most_common_witness :
  dates_found dated_world dated_items = Some ["2025-10-15"; "2025-10-16"; "2025-10-16"]
  ∧ extract_most_common_date_from_google dated_world 0 "Title example.org" false
    = Some ("2025-10-16" +:+ "T00:00:00+00:00").
Proof.
  assert (dates_found dated_world dated_items
          = Some ["2025-10-15"; "2025-10-16"; "2025-10-16"]) as Hfound
    by (vm_compute; reflexivity).
  split; [exact Hfound|].
  pose proof (search_date_is_the_most_common dated_world 0 "Title example.org"
                dated_items eq_refl eq_refl eq_refl) as Hmost.
  rewrite Hfound in Hmost.
  destruct Hmost as (before & t & after & Hparts & Hfirst & Hbefore & Hlargest & Hdate).
  { intros text year month day. cbn [date_parse dated_world].
    repeat case_match; intros [= <- <- <-]; split; (vm_compute; done) || lia. }
  assert (t = "2025-10-16") as ->; [|exact Hdate].
  pose proof (Hlargest "2025-10-16") as Hcount.
  assert (t ∈ ["2025-10-15"; "2025-10-16"; "2025-10-16"]) as Ht.
  { rewrite Hparts, elem_of_app, elem_of_cons. tauto. }
  rewrite !elem_of_cons, elem_of_nil in Ht.
  destruct Ht as [->|[->|[->|[]]]]; [|done|done].
  vm_compute in Hcount. lia.
Defined.
